(** * DocReview Pro: anchoring, highlight rendering and the annotation store

    A shallow embedding of the review client (the [ReviewClient] component
    and the helpers declared next to it) together with the properties its
    specification states about it.

    Conventions of the embedding.
    - JavaScript numbers that hold offsets, version numbers and counts are
      integers ([Z], [nat] for [Array.length]).
    - A JavaScript string that is sliced by index is a list of UTF-16 code
      units; a string that is only compared or stored is a [string].
    - [Record<string, Annotation[]>] is a [gmap string (list Annotation)].
    - [nowIso()] and [genId()] read the outside world; the k-th reading is
      taken from an environment, and the number of readings made so far is
      threaded through every handler (type [M]).
    - React's [setState] is applied at once, in source order: every handler
      runs to completion inside one event, and a render follows it.
    - A handler wired to a button is the function of the current render; a
      function held by a [useMemo] array is the function of the render in
      which the array was last built (type [Palette]).
    - [importJsonFile] stores the values of the file without checking
      them: it is modelled on the store with its two imported cells as
      JavaScript values (type [Cells]). *)

From Stdlib Require Import ZArith QArith Ascii String.
From stdpp Require Import gmap strings list fin_maps.

(** ** Types of [types.ts] *)

Inductive Severity := Low | Medium | High.
Inductive AnnotationStatus := Open | Resolved | NeedsRemap.
Inductive AnnotationCategory :=
  MissingInfo | Formatting | Compliance | LegalRisk | Clarification.
Inductive UnanchoredReason := NotFoundInVersion | UserNeedsRemap.

Inductive AnnotationAnchor :=
| TextRange (sectionId : string) (start end_ : Z)
| Unanchored (reason : UnanchoredReason).

Record Annotation := mkAnnotation {
  id : string;
  docId : string;
  versionId : string;
  quote : string;
  category : AnnotationCategory;
  severity : Severity;
  status : AnnotationStatus;
  assigneeId : option string;
  comment : string;
  anchor : AnnotationAnchor;
  createdAt : string;
  updatedAt : string }.

Record DocumentVersion := mkVersion {
  v_id : string;
  v_docId : string;
  versionNumber : Z;
  v_createdAt : string;
  v_title : string }.

Record Document := mkDocument {
  d_id : string;
  d_title : string;
  versions : list DocumentVersion }.

#[global] Instance Severity_eq_dec : EqDecision Severity.
Proof. solve_decision. Defined.
#[global] Instance AnnotationStatus_eq_dec : EqDecision AnnotationStatus.
Proof. solve_decision. Defined.
#[global] Instance AnnotationCategory_eq_dec : EqDecision AnnotationCategory.
Proof. solve_decision. Defined.
#[global] Instance UnanchoredReason_eq_dec : EqDecision UnanchoredReason.
Proof. solve_decision. Defined.
#[global] Instance AnnotationAnchor_eq_dec : EqDecision AnnotationAnchor.
Proof. solve_decision. Defined.
#[global] Instance Annotation_eq_dec : EqDecision Annotation.
Proof. solve_decision. Defined.

(** The two type guards of the client. On a value of the union type they
    reduce to a test of the tag. *)
Definition isTextRangeAnchor (a : AnnotationAnchor) : bool :=
  match a with TextRange _ _ _ => true | Unanchored _ => false end.

Definition isUnanchoredAnchor (a : AnnotationAnchor) : bool :=
  match a with
  | Unanchored NotFoundInVersion | Unanchored UserNeedsRemap => true
  | TextRange _ _ _ => false
  end.

(** ** JavaScript library functions used by the client *)

(** [Array.prototype.sort(cmp)]: stable, smallest first. Insertion from the
    right keeps an element in front of the later elements it ties with. *)
Section JsSort.
Context {A : Type} (cmp : A → A → Z).

Fixpoint sort_insert (x : A) (l : list A) : list A :=
  match l with
  | [] => [x]
  | y :: l' => if (cmp x y <=? 0)%Z then x :: l else y :: sort_insert x l'
  end.

Definition js_sort (l : list A) : list A := foldr sort_insert [] l.
End JsSort.

(** [String.prototype.slice(b, e)] on a list of code units: a negative index
    counts from the end, both are cut to the length, an empty range gives
    the empty string. *)
Section JsSlice.
Context {char : Type}.

Definition rel_index (len i : Z) : Z :=
  if (i <? 0)%Z then Z.max (len + i) 0 else Z.min i len.

Definition slice (s : list char) (b e : Z) : list char :=
  let len := Z.of_nat (length s) in
  let from := rel_index len b in
  let to := rel_index len e in
  take (Z.to_nat (to - from)) (drop (Z.to_nat from) s).

(** [s.slice(b)]: the end defaults to the length. *)
Definition slice_from (s : list char) (b : Z) : list char :=
  slice s b (Z.of_nat (length s)).
End JsSlice.

(** ** The highlight renderer *)

(** [clamp(n, min, max)] *)
Definition clamp (n min max : Z) : Z := Z.max min (Z.min max n).

Record Highlight := mkHighlight {
  h_id : string;
  h_start : Z;
  h_end : Z;
  h_status : AnnotationStatus }.

(** The React keys [t-<cursor>-<start>], [m-<start>-<end>-<id>] and
    [t-<cursor>-end], kept as the numbers they are printed from. *)
Inductive PartKey :=
| KeyText (cursor start : Z)
| KeyMark (start end_ : Z) (hid : string)
| KeyTail (cursor : Z).

Section Renderer.
Context {char : Type}.

Inductive Part :=
| PText (value : list char) (key : PartKey)
| PMark (value : list char) (key : PartKey) (hid : string)
        (st : AnnotationStatus).


(** State of the sweep: the parts pushed so far and the cursor. *)
Record Sweep := mkSweep { parts : list Part; cursor : Z }.

(** One iteration of [for (const h of sorted)]. *)
Definition sweep_step (paragraphText : list char) (acc : Sweep)
    (h : Highlight) : Sweep :=
  let len := Z.of_nat (length paragraphText) in
  let start := clamp (h_start h) 0 len in
  let end_ := clamp (h_end h) 0 len in
  if (end_ <=? start)%Z then acc
  else
    let parts1 :=
      if (start >? cursor acc)%Z
      then parts acc ++
           [PText (slice paragraphText (cursor acc) start)
                  (KeyText (cursor acc) start)]
      else parts acc in
    {| parts := parts1 ++
                [PMark (slice paragraphText start end_)
                       (KeyMark start end_ (h_id h)) (h_id h) (h_status h)];
       cursor := end_ |}.

Definition sort_highlights (highlights : list Highlight) : list Highlight :=
  js_sort (λ a b, h_start a - h_start b)%Z highlights.

(** The array [parts] when the function reaches its [return]. *)
Definition render_parts (paragraphText : list char)
    (highlights : list Highlight) : list Part :=
  let sorted := sort_highlights highlights in
  let acc := foldl (sweep_step paragraphText) (mkSweep [] 0) sorted in
  if (cursor acc <? Z.of_nat (length paragraphText))%Z
  then parts acc ++
       [PText (slice_from paragraphText (cursor acc)) (KeyTail (cursor acc))]
  else parts acc.

(** A rendered part: a [<span>] for text, a [<button>] for a mark, which
    carries the CSS class chosen from the status and the id handed to
    [onClickHighlight]. *)
Inductive Element :=
| Span (key : PartKey) (value : list char)
| Button (key : PartKey) (className : string) (onClick : string)
         (value : list char).

Definition markClass (st : AnnotationStatus) : string :=
  match st with
  | Resolved => "bg-[rgba(34,197,94,0.22)] ring-1 ring-[rgba(34,197,94,0.25)]"
  | NeedsRemap => "bg-[rgba(244,63,94,0.22)] ring-1 ring-[rgba(244,63,94,0.25)]"
  | Open => "bg-[rgba(99,102,241,0.22)] ring-1 ring-[rgba(99,102,241,0.25)]"
  end.

Definition render_part (p : Part) : Element :=
  match p with
  | PText v k => Span k v
  | PMark v k i st => Button k (markClass st) i v
  end.

(** The function returns the paragraph string itself when there is no
    highlight, a fragment of elements otherwise. *)
Inductive Rendered :=
| RawText (paragraphText : list char)
| Fragment (children : list Element).

Definition renderHighlightedParagraph (paragraphText : list char)
    (highlights : list Highlight) : Rendered :=
  if decide (length highlights = 0) then RawText paragraphText
  else Fragment (render_part <$> render_parts paragraphText highlights).

Definition element_value (e : Element) : list char :=
  match e with Span _ v => v | Button _ _ _ v => v end.

(** The text a reader sees: the fragments' values, in order. *)
Definition rendered_text (r : Rendered) : list char :=
  match r with
  | RawText t => t
  | Fragment es => concat (element_value <$> es)
  end.

(** The half-open ranges of the marks, as their keys record them. *)
Definition mark_range (e : Element) : option (Z * Z) :=
  match e with
  | Button (KeyMark s e _) _ _ _ => Some (s, e)
  | _ => None
  end.

Definition mark_ranges (r : Rendered) : list (Z * Z) :=
  match r with
  | RawText _ => []
  | Fragment es => omap mark_range es
  end.
End Renderer.

Arguments Part : clear implicits.
Arguments Element : clear implicits.
Arguments Rendered : clear implicits.
Arguments Sweep : clear implicits.

Definition ten_digits : list ascii := list_ascii_of_string "0123456789".
Definition spanA : Highlight := mkHighlight "A" 0 5 Open.
Definition spanB : Highlight := mkHighlight "B" 3 8 Open.


(** ** Activity log and transient UI state *)

Inductive ActivityEvent :=
| ANNOTATION_CREATED (annotationId quote_ : string)
    (category_ : AnnotationCategory) (severity_ : Severity)
| ANNOTATION_RESOLVED (annotationId quote_ : string)
| ANNOTATION_REOPENED (annotationId quote_ : string)
| ASSIGNEE_CHANGED (annotationId quote_ : string) (toUserId : option string)
| VERSION_SWITCHED (toVersionId : string)
| ANNOTATIONS_CARRIED_OVER (fromVersionId toVersionId : string) (count : nat)
| ANNOTATION_REMAPPED (annotationId quote_ : string).

(** [{ id, at, type, meta }]: the type and its meta are one constructor. *)
Record ActivityItem := mkActivity {
  ev_id : string;
  ev_at : string;
  ev : ActivityEvent }.

Record DOMRect := mkRect { r_top : Z; r_left : Z; r_width : Z; r_height : Z }.

Record SelectionDraft := mkDraft {
  dr_sectionId : string;
  paraIndex : Z;
  startLocal : Z;
  endLocal : Z;
  dr_quote : string;
  rect : DOMRect }.

Inductive Tab := Issues | Activity.
Inductive Mode := editor | viewer.

#[global] Instance Mode_eq_dec : EqDecision Mode.
Proof. solve_decision. Defined.

#[global] Instance Tab_eq_dec : EqDecision Tab.
Proof. solve_decision. Defined.

(** The [useState] cells of [ReviewClient] that the store handlers read or
    write. The filter, search and palette cells only select what is shown
    and are left out. *)
Record State := mkState {
  s_versionId : string;
  s_annotationsByVersion : gmap string (list Annotation);
  s_activity : list ActivityItem;
  s_activeTab : Tab;
  s_selectedAnnotationId : option string;
  s_selectionDraft : option SelectionDraft;
  s_showModal : bool;
  s_category : AnnotationCategory;
  s_severity : Severity;
  s_assigneeId : string;
  s_comment : string;
  s_remapTargetId : option string;
  s_mode : Mode }.

Definition setVersionId (v : string) (st : State) : State :=
  mkState v (s_annotationsByVersion st) (s_activity st) (s_activeTab st)
    (s_selectedAnnotationId st) (s_selectionDraft st) (s_showModal st)
    (s_category st) (s_severity st) (s_assigneeId st) (s_comment st)
    (s_remapTargetId st) (s_mode st).

Definition setAnnotationsByVersion
    (f : gmap string (list Annotation) → gmap string (list Annotation))
    (st : State) : State :=
  mkState (s_versionId st) (f (s_annotationsByVersion st)) (s_activity st)
    (s_activeTab st) (s_selectedAnnotationId st) (s_selectionDraft st)
    (s_showModal st) (s_category st) (s_severity st) (s_assigneeId st)
    (s_comment st) (s_remapTargetId st) (s_mode st).

Definition setActivity (f : list ActivityItem → list ActivityItem)
    (st : State) : State :=
  mkState (s_versionId st) (s_annotationsByVersion st) (f (s_activity st))
    (s_activeTab st) (s_selectedAnnotationId st) (s_selectionDraft st)
    (s_showModal st) (s_category st) (s_severity st) (s_assigneeId st)
    (s_comment st) (s_remapTargetId st) (s_mode st).

Definition setActiveTab (t : Tab) (st : State) : State :=
  mkState (s_versionId st) (s_annotationsByVersion st) (s_activity st) t
    (s_selectedAnnotationId st) (s_selectionDraft st) (s_showModal st)
    (s_category st) (s_severity st) (s_assigneeId st) (s_comment st)
    (s_remapTargetId st) (s_mode st).

Definition setSelectedAnnotationId (i : option string) (st : State) : State :=
  mkState (s_versionId st) (s_annotationsByVersion st) (s_activity st)
    (s_activeTab st) i (s_selectionDraft st) (s_showModal st)
    (s_category st) (s_severity st) (s_assigneeId st) (s_comment st)
    (s_remapTargetId st) (s_mode st).

Definition setSelectionDraft (d : option SelectionDraft) (st : State) : State :=
  mkState (s_versionId st) (s_annotationsByVersion st) (s_activity st)
    (s_activeTab st) (s_selectedAnnotationId st) d (s_showModal st)
    (s_category st) (s_severity st) (s_assigneeId st) (s_comment st)
    (s_remapTargetId st) (s_mode st).

Definition setShowModal (b : bool) (st : State) : State :=
  mkState (s_versionId st) (s_annotationsByVersion st) (s_activity st)
    (s_activeTab st) (s_selectedAnnotationId st) (s_selectionDraft st) b
    (s_category st) (s_severity st) (s_assigneeId st) (s_comment st)
    (s_remapTargetId st) (s_mode st).

Definition setCategory (c : AnnotationCategory) (st : State) : State :=
  mkState (s_versionId st) (s_annotationsByVersion st) (s_activity st)
    (s_activeTab st) (s_selectedAnnotationId st) (s_selectionDraft st)
    (s_showModal st) c (s_severity st) (s_assigneeId st) (s_comment st)
    (s_remapTargetId st) (s_mode st).

Definition setSeverity (v : Severity) (st : State) : State :=
  mkState (s_versionId st) (s_annotationsByVersion st) (s_activity st)
    (s_activeTab st) (s_selectedAnnotationId st) (s_selectionDraft st)
    (s_showModal st) (s_category st) v (s_assigneeId st) (s_comment st)
    (s_remapTargetId st) (s_mode st).

Definition setAssigneeId (u : string) (st : State) : State :=
  mkState (s_versionId st) (s_annotationsByVersion st) (s_activity st)
    (s_activeTab st) (s_selectedAnnotationId st) (s_selectionDraft st)
    (s_showModal st) (s_category st) (s_severity st) u (s_comment st)
    (s_remapTargetId st) (s_mode st).

Definition setComment (c : string) (st : State) : State :=
  mkState (s_versionId st) (s_annotationsByVersion st) (s_activity st)
    (s_activeTab st) (s_selectedAnnotationId st) (s_selectionDraft st)
    (s_showModal st) (s_category st) (s_severity st) (s_assigneeId st) c
    (s_remapTargetId st) (s_mode st).

Definition setRemapTargetId (i : option string) (st : State) : State :=
  mkState (s_versionId st) (s_annotationsByVersion st) (s_activity st)
    (s_activeTab st) (s_selectedAnnotationId st) (s_selectionDraft st)
    (s_showModal st) (s_category st) (s_severity st) (s_assigneeId st)
    (s_comment st) i (s_mode st).

Definition setMode (m : Mode) (st : State) : State :=
  mkState (s_versionId st) (s_annotationsByVersion st) (s_activity st)
    (s_activeTab st) (s_selectedAnnotationId st) (s_selectionDraft st)
    (s_showModal st) (s_category st) (s_severity st) (s_assigneeId st)
    (s_comment st) (s_remapTargetId st) m.

(** ** Readings of the outside world *)

(** What the k-th evaluation of [new Date().toISOString()],
    [crypto.randomUUID()] ([None] where the browser has none) and
    [Math.random().toString(16).slice(2)] returns. *)
Record Env := mkEnv {
  nowAt : nat → string;
  randomUUID : nat → option string;
  randomHex : nat → string }.

(** How many clock readings and id draws were made so far. *)
Record World := mkWorld { clock : nat; draws : nat }.

Definition M (A : Type) : Type := World → A * World.

#[global] Instance M_ret : MRet M := λ A a w, (a, w).
#[global] Instance M_bind : MBind M :=
  λ A B k m w, let '(a, w') := m w in k a w'.

(** [findIndex]: -1 when no element passes. *)
Fixpoint findIndex {A} (p : A → bool) (l : list A) : Z :=
  match l with
  | [] => (-1)%Z
  | a :: l' =>
      if p a then 0%Z
      else let i := findIndex p l' in if (i <? 0)%Z then (-1)%Z else (i + 1)%Z
  end.

(** Truthiness of a [string | null]: null and the empty string are falsy. *)
Definition truthy (o : option string) : bool :=
  match o with Some s => negb (bool_decide (s = "")) | None => false end.


(** ** The annotation store: handlers of [ReviewClient] *)

Section Store.
(** The world, the [doc] prop and [String.prototype.trim]. *)
Context (E : Env) (doc : Document) (trim : string → string).

Definition nowIso : M string :=
  λ w, (nowAt E (clock w), mkWorld (S (clock w)) (draws w)).

(** The id produced by the k-th draw:
    [crypto?.randomUUID?.() ?? `${prefix}_${Math.random()...}`]. *)
Definition genIdAt (prefix : string) (k : nat) : string :=
  match randomUUID E k with
  | Some u => u
  | None => prefix +:+ "_" +:+ randomHex E k
  end.

Definition genId (prefix : string) : M string :=
  λ w, (genIdAt prefix (draws w), mkWorld (clock w) (S (draws w))).

(** The store the component mounts with. *)
Definition initialState (initialVersionId : string) : M State :=
  evid ← genId "ev"; at_ ← nowIso;
  mret (mkState initialVersionId ∅
          [mkActivity evid at_ (VERSION_SWITCHED initialVersionId)]
          Issues None None false Clarification Medium "" "" None editor).

Definition isReadOnly (st : State) : bool := bool_decide (s_mode st = viewer).

(** [annotationsByVersion[v] ?? []] *)
Definition bucket (m : gmap string (list Annotation)) (v : string)
    : list Annotation :=
  default [] (m !! v).

Definition currentAnnotations (st : State) : list Annotation :=
  bucket (s_annotationsByVersion st) (s_versionId st).

Definition findById (i : string) (l : list Annotation) : option Annotation :=
  find (λ a, bool_decide (id a = i)) l.

Definition addActivity (item : ActivityItem) (st : State) : State :=
  setActivity (λ prev, item :: prev) st.

Definition clearSelectionUI (st : State) : State :=
  setShowModal false (setSelectionDraft None st).

(** [handleMouseUp]; [reading] is what [getSelectionDraft] returned. *)
Definition handleMouseUp (reading : option SelectionDraft) (st : State)
    : State :=
  if isReadOnly st then st else setSelectionDraft reading st.

Definition openCreateModal (st : State) : State :=
  if isReadOnly st then st
  else match s_selectionDraft st with
       | None => st
       | Some _ =>
           setShowModal true
             (setSeverity Medium
                (setCategory Clarification
                   (setAssigneeId ""
                      (setComment "" (setRemapTargetId None st)))))
       end.

Definition draftAnchor (draft : SelectionDraft) : AnnotationAnchor :=
  TextRange (dr_sectionId draft) (startLocal draft) (endLocal draft).

Definition createAnnotation (st : State) : M State :=
  if isReadOnly st then mret st
  else match s_selectionDraft st with
  | None => mret st
  | Some draft =>
      i ← genId "a";
      created ← nowIso;
      updated ← nowIso;
      let newAnn :=
        {| id := i; docId := d_id doc; versionId := s_versionId st;
           quote := dr_quote draft; category := s_category st;
           severity := s_severity st; status := Open;
           assigneeId := if bool_decide (s_assigneeId st = "") then None
                         else Some (s_assigneeId st);
           comment := trim (s_comment st);
           anchor := draftAnchor draft;
           createdAt := created; updatedAt := updated |} in
      let st1 :=
        setAnnotationsByVersion
          (λ prev, <[s_versionId st := newAnn :: bucket prev (s_versionId st)]> prev)
          st in
      evid ← genId "ev";
      at_ ← nowIso;
      let st2 :=
        addActivity
          (mkActivity evid at_
             (ANNOTATION_CREATED i (dr_quote draft) (s_category st) (s_severity st)))
          st1 in
      mret (clearSelectionUI
              (setActiveTab Issues (setSelectedAnnotationId (Some i) st2)))
  end.

(** [{ ...a, status: nextStatus, updatedAt: nowIso() }] *)
Definition withStatus (nextStatus : AnnotationStatus) (now : string)
    (a : Annotation) : Annotation :=
  {| id := id a; docId := docId a; versionId := versionId a;
     quote := quote a; category := category a; severity := severity a;
     status := nextStatus; assigneeId := assigneeId a; comment := comment a;
     anchor := anchor a; createdAt := createdAt a; updatedAt := now |}.

Definition toggleResolved (i : string) (st : State) : M State :=
  if isReadOnly st then mret st
  else match findById i (currentAnnotations st) with
  | None => mret st
  | Some ann =>
      if decide (status ann = NeedsRemap) then mret st
      else
        let nextStatus :=
          if decide (status ann = Resolved) then Open else Resolved in
        next ← mapM (λ a, if bool_decide (id a = i)
                          then now ← nowIso; mret (withStatus nextStatus now a)
                          else mret a)
                    (currentAnnotations st);
        let st1 :=
          setAnnotationsByVersion (λ prev, <[s_versionId st := next]> prev) st in
        evid ← genId "ev";
        at_ ← nowIso;
        mret (addActivity
                (mkActivity evid at_
                   (if decide (nextStatus = Resolved)
                    then ANNOTATION_RESOLVED i (quote ann)
                    else ANNOTATION_REOPENED i (quote ann)))
                st1)
  end.

(** [{ ...a, assigneeId: toUserId, updatedAt: nowIso() }] *)
Definition withAssignee (toUserId : option string) (now : string)
    (a : Annotation) : Annotation :=
  {| id := id a; docId := docId a; versionId := versionId a;
     quote := quote a; category := category a; severity := severity a;
     status := status a; assigneeId := toUserId; comment := comment a;
     anchor := anchor a; createdAt := createdAt a; updatedAt := now |}.

Definition changeAssignee (i : string) (toUserId : option string)
    (st : State) : M State :=
  if isReadOnly st then mret st
  else match findById i (currentAnnotations st) with
  | None => mret st
  | Some ann =>
      next ← mapM (λ a, if bool_decide (id a = i)
                        then now ← nowIso; mret (withAssignee toUserId now a)
                        else mret a)
                  (currentAnnotations st);
      let st1 :=
        setAnnotationsByVersion (λ prev, <[s_versionId st := next]> prev) st in
      evid ← genId "ev";
      at_ ← nowIso;
      mret (addActivity
              (mkActivity evid at_ (ASSIGNEE_CHANGED i (quote ann) toUserId))
              st1)
  end.

Definition handleClickHighlight (i : string) (st : State) : State :=
  setActiveTab Issues (setSelectedAnnotationId (Some i) st).

Definition startRemap (i : string) (st : State) : State :=
  if isReadOnly st then st
  else setActiveTab Issues (setRemapTargetId (Some i) st).

Definition cancelRemap (st : State) : State := setRemapTargetId None st.

(** [{ ...a, status: "Open", quote: draft.quote, anchor: {...}, updatedAt }] *)
Definition remapped (draft : SelectionDraft) (now : string) (a : Annotation)
    : Annotation :=
  {| id := id a; docId := docId a; versionId := versionId a;
     quote := dr_quote draft; category := category a; severity := severity a;
     status := Open; assigneeId := assigneeId a; comment := comment a;
     anchor := draftAnchor draft; createdAt := createdAt a;
     updatedAt := now |}.

Definition remapIssue (st : State) : M State :=
  if isReadOnly st then mret st
  else if negb (truthy (s_remapTargetId st)) then mret st
  else match s_remapTargetId st, s_selectionDraft st with
  | Some target, Some draft =>
      match findById target (currentAnnotations st) with
      | None => mret st
      | Some ann =>
          next ← mapM (λ a, if bool_decide (id a ≠ target) then mret a
                            else now ← nowIso; mret (remapped draft now a))
                      (currentAnnotations st);
          let st1 :=
            setAnnotationsByVersion (λ prev, <[s_versionId st := next]> prev) st in
          evid ← genId "ev";
          at_ ← nowIso;
          let st2 :=
            addActivity
              (mkActivity evid at_ (ANNOTATION_REMAPPED target (quote ann)))
              st1 in
          mret (clearSelectionUI
                  (setRemapTargetId None
                     (setSelectedAnnotationId (Some target) st2)))
      end
  | _, _ => mret st
  end.

(** [doc.versions.slice().sort((a, b) => b.versionNumber - a.versionNumber)] *)
Definition sortedVersions : list DocumentVersion :=
  js_sort (λ a b, versionNumber b - versionNumber a)%Z (versions doc).

Definition currentVersionIndex (st : State) : Z :=
  findIndex (λ v, bool_decide (v_id v = s_versionId st)) sortedVersions.

(** [versions[currentVersionIndex + 1]?.id ?? null], null when the current
    version is not one of the document's. *)
Definition previousVersionId (st : State) : option string :=
  if (currentVersionIndex st <? 0)%Z then None
  else v_id <$> sortedVersions !! Z.to_nat (currentVersionIndex st + 1).

(** The copy made of one annotation by carry-over. *)
Definition carryOne (toVersion : string) (a : Annotation) : M Annotation :=
  i ← genId "a";
  created ← nowIso;
  updated ← nowIso;
  mret {| id := i; docId := docId a; versionId := toVersion;
          quote := quote a; category := category a; severity := severity a;
          status := NeedsRemap; assigneeId := assigneeId a;
          comment := comment a; anchor := Unanchored UserNeedsRemap;
          createdAt := created; updatedAt := updated |}.

Definition toCarry (prevAnns : list Annotation) : list Annotation :=
  filter (λ a, status a ≠ Resolved) prevAnns.

Definition carryOverFromPrevious (st : State) : M State :=
  if isReadOnly st then mret st
  else if negb (truthy (previousVersionId st)) then mret st
  else match previousVersionId st with
  | None => mret st
  | Some prevId =>
      let prevAnns := bucket (s_annotationsByVersion st) prevId in
      if decide (length (toCarry prevAnns) = 0) then mret st
      else
        carried ← mapM (carryOne (s_versionId st)) (toCarry prevAnns);
        let st1 :=
          setAnnotationsByVersion
            (λ prev, <[s_versionId st := carried ++ bucket prev (s_versionId st)]> prev)
            st in
        evid ← genId "ev";
        at_ ← nowIso;
        mret (addActivity
                (mkActivity evid at_
                   (ANNOTATIONS_CARRIED_OVER prevId (s_versionId st)
                      (length carried)))
                st1)
  end.

(** The [onChange] of the version selector. *)
Definition switchVersion (next : string) (st : State) : M State :=
  let st1 :=
    setRemapTargetId None
      (setShowModal false
         (setSelectionDraft None
            (setSelectedAnnotationId None (setVersionId next st)))) in
  evid ← genId "ev";
  at_ ← nowIso;
  mret (addActivity (mkActivity evid at_ (VERSION_SWITCHED next)) st1).

(** The [onChange] of the role selector. *)
Definition switchMode (m : Mode) (st : State) : State :=
  setSelectionDraft None (setRemapTargetId None (setShowModal false (setMode m st))).
End Store.

(** ** JSON values and the shape of the exported payload *)

(** What [JSON.parse] returns. A number is a rational: every finite double
    is one. An object is its list of properties; [JSON.parse] never yields
    the same key twice. *)
#[local] Set Warnings "-register-all".
Inductive Json :=
| JNull
| JBool (b : bool)
| JNum (n : Q)
| JStr (s : string)
| JArr (items : list Json)
| JObj (props : list (string * Json)).

Fixpoint assoc (k : string) (props : list (string * Json)) : option Json :=
  match props with
  | [] => None
  | (k', v) :: rest => if bool_decide (k' = k) then Some v else assoc k rest
  end.

Inductive Thrown := SyntaxError | TypeError.

(** [j.k]: reading a property of [null] throws; a missing property, and any
    of the properties read here on an array, string, number or boolean, is
    [undefined] ([None]). *)
Definition Exn (A : Type) : Type := (Thrown + A)%type.

#[global] Instance Exn_ret : MRet Exn := λ A a, inr a.
#[global] Instance Exn_bind : MBind Exn :=
  λ A B k m, match m with inl t => inl t | inr a => k a end.

Definition getProp (j : Json) (k : string) : Exn (option Json) :=
  match j with
  | JNull => inl TypeError
  | JObj props => inr (assoc k props)
  | _ => inr None
  end.

(** [v === s] for a string literal [s] *)
Definition is_string (s : string) (v : option Json) : bool :=
  match v with Some (JStr s') => bool_decide (s' = s) | _ => false end.

(** [!v] is false *)
Definition js_truthy (v : option Json) : bool :=
  match v with
  | None | Some JNull => false
  | Some (JBool b) => b
  | Some (JNum n) => negb (Qeq_bool n 0)
  | Some (JStr s) => negb (bool_decide (s = ""))
  | Some (JArr _) | Some (JObj _) => true
  end.

Module Encode.
Definition severity_ (s : Severity) : Json :=
  JStr match s with Low => "Low" | Medium => "Medium" | High => "High" end.

Definition status_ (s : AnnotationStatus) : Json :=
  JStr match s with
       | Open => "Open" | Resolved => "Resolved" | NeedsRemap => "NeedsRemap"
       end.

Definition category_ (c : AnnotationCategory) : Json :=
  JStr match c with
       | MissingInfo => "MissingInfo" | Formatting => "Formatting"
       | Compliance => "Compliance" | LegalRisk => "LegalRisk"
       | Clarification => "Clarification"
       end.

Definition nullable (o : option string) : Json :=
  match o with Some s => JStr s | None => JNull end.

Definition anchor_ (a : AnnotationAnchor) : Json :=
  match a with
  | TextRange s b e =>
      JObj [("kind", JStr "TextRange"); ("sectionId", JStr s);
            ("start", JNum (inject_Z b)); ("end", JNum (inject_Z e))]
  | Unanchored r =>
      JObj [("kind", JStr "Unanchored");
            ("reason", JStr match r with
                            | NotFoundInVersion => "NotFoundInVersion"
                            | UserNeedsRemap => "UserNeedsRemap"
                            end)]
  end.

Definition annotation (a : Annotation) : Json :=
  JObj [("id", JStr (id a)); ("docId", JStr (docId a));
        ("versionId", JStr (versionId a)); ("quote", JStr (quote a));
        ("category", category_ (category a));
        ("severity", severity_ (severity a));
        ("status", status_ (status a));
        ("assigneeId", nullable (assigneeId a));
        ("comment", JStr (comment a)); ("anchor", anchor_ (anchor a));
        ("createdAt", JStr (createdAt a)); ("updatedAt", JStr (updatedAt a))].

Definition event (e : ActivityEvent) : string * Json :=
  match e with
  | ANNOTATION_CREATED i q c s =>
      ("ANNOTATION_CREATED",
       JObj [("annotationId", JStr i); ("quote", JStr q);
             ("category", category_ c); ("severity", severity_ s)])
  | ANNOTATION_RESOLVED i q =>
      ("ANNOTATION_RESOLVED", JObj [("annotationId", JStr i); ("quote", JStr q)])
  | ANNOTATION_REOPENED i q =>
      ("ANNOTATION_REOPENED", JObj [("annotationId", JStr i); ("quote", JStr q)])
  | ASSIGNEE_CHANGED i q u =>
      ("ASSIGNEE_CHANGED",
       JObj [("annotationId", JStr i); ("quote", JStr q);
             ("toUserId", nullable u)])
  | VERSION_SWITCHED v =>
      ("VERSION_SWITCHED", JObj [("toVersionId", JStr v)])
  | ANNOTATIONS_CARRIED_OVER f t n =>
      ("ANNOTATIONS_CARRIED_OVER",
       JObj [("fromVersionId", JStr f); ("toVersionId", JStr t);
             ("count", JNum (inject_Z (Z.of_nat n)))])
  | ANNOTATION_REMAPPED i q =>
      ("ANNOTATION_REMAPPED", JObj [("annotationId", JStr i); ("quote", JStr q)])
  end.

Definition activityItem (a : ActivityItem) : Json :=
  JObj [("id", JStr (ev_id a)); ("at", JStr (ev_at a));
        ("type", JStr (event (ev a)).1); ("meta", (event (ev a)).2)].

Definition activity (l : list ActivityItem) : Json := JArr (activityItem <$> l).

Definition bucketEntry (kv : string * list Annotation) : string * Json :=
  (kv.1, JArr (annotation <$> kv.2)).

Definition annotationsByVersion (m : gmap string (list Annotation)) : Json :=
  JObj (bucketEntry <$> map_to_list m).
End Encode.

(** ** Export and import *)

Definition SCHEMA : string := "review-mini-v1".

(** What [exportJson] hands to the browser for download. *)
Record Download := mkDownload { filename : string; content : string }.

(** The cells as they are at run time. The casts
    [as Record<string, Annotation[]>] and [as ActivityItem[]] of
    [importJsonFile] are erased when the page runs, so after an import the
    cells [annotationsByVersion] and [activity] hold whatever the file had:
    here these two are JavaScript values, and the other cells are those of
    [State]. *)
Record Cells := mkCells {
  v_versionId : string;
  v_annotationsByVersion : Json;
  v_activity : Json;
  v_activeTab : Tab;
  v_selectedAnnotationId : option string;
  v_selectionDraft : option SelectionDraft;
  v_showModal : bool;
  v_category : AnnotationCategory;
  v_severity : Severity;
  v_assigneeId : string;
  v_comment : string;
  v_remapTargetId : option string;
  v_mode : Mode }.

(** A store of the declared types, as the values [JSON.stringify] sees. *)
Definition cellsOf (st : State) : Cells :=
  {| v_versionId := s_versionId st;
     v_annotationsByVersion :=
       Encode.annotationsByVersion (s_annotationsByVersion st);
     v_activity := Encode.activity (s_activity st);
     v_activeTab := s_activeTab st;
     v_selectedAnnotationId := s_selectedAnnotationId st;
     v_selectionDraft := s_selectionDraft st;
     v_showModal := s_showModal st;
     v_category := s_category st;
     v_severity := s_severity st;
     v_assigneeId := s_assigneeId st;
     v_comment := s_comment st;
     v_remapTargetId := s_remapTargetId st;
     v_mode := s_mode st |}.

Section ExportImport.
(** [JSON.parse] ([None]: it throws [SyntaxError]) and [JSON.stringify]. *)
Context (E : Env) (doc : Document).
Context (JSON_parse : string → option Json) (JSON_stringify : Json → string).

Definition exportPayload (st : State) : M Json :=
  exportedAt ← nowIso E;
  mret (JObj [("schema", JStr SCHEMA);
              ("exportedAt", JStr exportedAt);
              ("docId", JStr (d_id doc));
              ("versionId", JStr (s_versionId st));
              ("annotationsByVersion",
               Encode.annotationsByVersion (s_annotationsByVersion st));
              ("activity", Encode.activity (s_activity st))]).

Definition exportJson (st : State) : M Download :=
  payload ← exportPayload st;
  mret {| filename := "review-export-" +:+ d_id doc +:+ "-" +:+
                      s_versionId st +:+ ".json";
          content := JSON_stringify payload |}.

(** The statements of [importJsonFile] after [JSON.parse], up to the
    first exception. The setters are called with the payload's values as
    they are; [clearSelectionUI] is its two setter calls. *)
Definition importParsed (parsed : Json) (c : Cells) : Exn Cells :=
  schema ← getProp parsed "schema";
  if negb (is_string SCHEMA schema) then mret c
  else
    abv ← getProp parsed "annotationsByVersion";
    act ← getProp parsed "activity";
    if negb (js_truthy abv) || negb (js_truthy act) then mret c
    else
      match abv, act with
      | Some abv, Some act =>
          vid ← getProp parsed "versionId";
          mret {| v_versionId :=
                    match vid with Some (JStr v) => v | _ => v_versionId c end;
                  v_annotationsByVersion := abv;
                  v_activity := act;
                  v_activeTab := v_activeTab c;
                  v_selectedAnnotationId := None;
                  v_selectionDraft := None;
                  v_showModal := false;
                  v_category := v_category c;
                  v_severity := v_severity c;
                  v_assigneeId := v_assigneeId c;
                  v_comment := v_comment c;
                  v_remapTargetId := None;
                  v_mode := v_mode c |}
      | _, _ => mret c (* not reached: [undefined] is not truthy *)
      end.

(** [try { ... } catch { return }] around the whole body. *)
Definition importJsonFile (text : string) (c : Cells) : Cells :=
  match JSON_parse text with
  | None => c
  | Some parsed =>
      match importParsed parsed c with
      | inl _ => c
      | inr c' => c'
      end
  end.
End ExportImport.

(** ** A session: the events that drive the store *)

(** The handlers the page wires to its buttons, selectors, keys and palette
    commands, each with what the user supplies. [ShowTab], [SelectIssue]
    and [SetMode] are also what the mount effect does with the query
    string; [SelectIssue] is what the J and K keys end in; [ClearSelection]
    is the Cancel buttons and the backdrop of the form; [SetMode] is the
    palette's two mode commands, which call [setMode] alone. Reading a
    file ([importJsonFile]) is not one of them: it is modelled apart,
    above, on the JavaScript values it stores. *)
Inductive Action :=
| MouseUp (reading : option SelectionDraft)
| OpenCreateModal
| PickCategory (c : AnnotationCategory)
| PickSeverity (s : Severity)
| PickAssignee (u : string)
| TypeComment (c : string)
| CreateAnnotation
| ToggleResolved (i : string)
| ChangeAssignee (i : string) (toUserId : option string)
| ClickHighlight (i : string)
| SelectIssue (i : option string)
| ShowTab (t : Tab)
| StartRemap (i : string)
| CancelRemap
| RemapIssue
| SwitchVersion (next : string)
| SwitchMode (m : Mode)
| CarryOverFromPrevious
| CloseOverlays
| ClearSelection
| SetMode (m : Mode).

Section Session.
Context (E : Env) (doc : Document) (trim : string → string).

Definition step (a : Action) (st : State) : M State :=
  match a with
  | MouseUp reading => mret (handleMouseUp reading st)
  | OpenCreateModal => mret (openCreateModal st)
  | PickCategory c => mret (setCategory c st)
  | PickSeverity s => mret (setSeverity s st)
  | PickAssignee u => mret (setAssigneeId u st)
  | TypeComment c => mret (setComment c st)
  | CreateAnnotation => createAnnotation E doc trim st
  | ToggleResolved i => toggleResolved E i st
  | ChangeAssignee i u => changeAssignee E i u st
  | ClickHighlight i => mret (handleClickHighlight i st)
  | SelectIssue i => mret (setSelectedAnnotationId i st)
  | ShowTab t => mret (setActiveTab t st)
  | StartRemap i => mret (startRemap i st)
  | CancelRemap => mret (cancelRemap st)
  | RemapIssue => remapIssue E st
  | SwitchVersion next => switchVersion E next st
  | SwitchMode m => mret (switchMode m st)
  | CarryOverFromPrevious => carryOverFromPrevious E doc st
  | CloseOverlays =>
      mret (clearSelectionUI (setRemapTargetId None (setShowModal false st)))
  | ClearSelection => mret (clearSelectionUI st)
  | SetMode m => mret (setMode m st)
  end.

Fixpoint run (actions : list Action) (st : State) : M State :=
  match actions with
  | [] => mret st
  | a :: rest => st' ← step a st; run rest st'
  end.

(** A whole session: mount the component, then handle the events. *)
Definition session (initialVersionId : string) (actions : list Action)
    : M State :=
  st ← initialState E initialVersionId; run actions st.
End Session.

(** ** The command palette's export *)

(** [paletteActions] is built under [useMemo] with the dependencies
    [activeTab, mode, selectedAnnotationId, isReadOnly]. A render in which
    these four are what they were keeps the array of the render before,
    and with it the [exportJson] of that render, which reads the
    [versionId], [annotationsByVersion] and [activity] of that render. *)
Definition Deps : Type := Tab * Mode * option string * bool.

Definition paletteDeps (st : State) : Deps :=
  (s_activeTab st, s_mode st, s_selectedAnnotationId st, isReadOnly st).

(** The memoised array: the dependencies it was built for and the render
    whose functions it holds. *)
Record Palette := mkPalette { builtFor : Deps; heldRender : State }.

Definition buildPalette (st : State) : Palette :=
  mkPalette (paletteDeps st) st.

(** [useMemo] in a render after the first *)
Definition useMemo (p : Palette) (st : State) : Palette :=
  if bool_decide (builtFor p = paletteDeps st) then p else buildPalette st.

(** The component between two events: its store and the array it holds. *)
Record Page := mkPage { pg_store : State; paletteActions : Palette }.

Section Rendering.
Context (E : Env) (doc : Document) (trim : string → string).
Context (JSON_stringify : Json → string).

(** An event and the render that follows it. *)
Definition stepPage (a : Action) (pg : Page) : M Page :=
  st' ← step E doc trim a (pg_store pg);
  mret (mkPage st' (useMemo (paletteActions pg) st')).

Fixpoint runPage (actions : list Action) (pg : Page) : M Page :=
  match actions with
  | [] => mret pg
  | a :: rest => pg' ← stepPage a pg; runPage rest pg'
  end.

Definition sessionPage (initialVersionId : string) (actions : list Action)
    : M Page :=
  st ← initialState E initialVersionId;
  runPage actions (mkPage st (buildPalette st)).

(** The toolbar's Export button has [onClick={exportJson}]: the function
    of the current render. *)
Definition toolbarExport (pg : Page) : M Download :=
  exportJson E doc JSON_stringify (pg_store pg).

(** The palette's Export JSON runs the [exportJson] the array holds. *)
Definition paletteExport (pg : Page) : M Download :=
  exportJson E doc JSON_stringify (heldRender (paletteActions pg)).
End Rendering.

(** The invariant of the data model, on one annotation and on a store. *)
Definition anchor_matches_status (a : Annotation) : Prop :=
  status a = NeedsRemap ↔ isUnanchoredAnchor (anchor a) = true.

Definition store_invariant (st : State) : Prop :=
  ∀ v l, s_annotationsByVersion st !! v = Some l →
         Forall anchor_matches_status l.

(** A small document and world to run the handlers on. *)
Module Demo.
(** The k-th reading is a run of k+1 letters: no two readings agree. *)
Fixpoint tally (c : ascii) (k : nat) : string :=
  match k with
  | O => String c EmptyString
  | S k' => String c (tally c k')
  end.

Definition env : Env :=
  {| nowAt := tally "t";
     randomUUID := λ k, Some (tally "u" k);
     randomHex := λ _, "" |}.

Definition doc : Document :=
  mkDocument "d1" "Employment Contract"
    [mkVersion "v1" "d1" 1 "2024-01-01" "Employment Contract v1";
     mkVersion "v2" "d1" 2 "2024-01-12" "Employment Contract v2"].

Definition draft : SelectionDraft :=
  mkDraft "s2" 0 10 19 "services." (mkRect 0 0 40 12).

Definition w0 : World := mkWorld 0 0.

Definition trim (s : string) : string := s.

(** On [v1]: create three annotations and resolve the second. *)
Definition script_v1 : list Action :=
  [MouseUp (Some draft); OpenCreateModal; CreateAnnotation;
   MouseUp (Some draft); OpenCreateModal; PickSeverity High; CreateAnnotation;
   MouseUp (Some draft); OpenCreateModal; PickCategory LegalRisk;
   PickAssignee "u2"; TypeComment "check"; CreateAnnotation;
   ToggleResolved "uuuu"].

Definition v1_store : State :=
  Eval vm_compute in (session env doc trim "v1" script_v1 w0).1.
Definition v1_world : World :=
  Eval vm_compute in (session env doc trim "v1" script_v1 w0).2.

(** The first annotation created, still Open. *)
Definition first_annotation : Annotation :=
  {| id := "uu"; docId := "d1"; versionId := "v1"; quote := "services.";
     category := Clarification; severity := Medium; status := Open;
     assigneeId := None; comment := ""; anchor := TextRange "s2" 10 19;
     createdAt := "tt"; updatedAt := "ttt" |}.

(** Then move to [v2] ... *)
Definition v2_store : State :=
  Eval vm_compute in (switchVersion env "v2" v1_store v1_world).1.
Definition v2_world : World :=
  Eval vm_compute in (switchVersion env "v2" v1_store v1_world).2.

(** ... carry over ... *)
Definition carried_store : State :=
  Eval vm_compute in (carryOverFromPrevious env doc v2_store v2_world).1.
Definition carried_world : World :=
  Eval vm_compute in (carryOverFromPrevious env doc v2_store v2_world).2.

(** The copy of the first annotation on [v2]. *)
Definition carried_annotation : Annotation :=
  {| id := "uuuuuuuuuuu"; docId := "d1"; versionId := "v2";
     quote := "services."; category := Clarification; severity := Medium;
     status := NeedsRemap; assigneeId := None; comment := "";
     anchor := Unanchored UserNeedsRemap;
     createdAt := "tttttttttttttttt"; updatedAt := "ttttttttttttttttt" |}.

(** ... and start remapping that copy with a new selection. *)
Definition draft2 : SelectionDraft :=
  mkDraft "s1" 1 4 21 "the Contractor" (mkRect 10 10 90 12).

Definition remap_store : State :=
  Eval vm_compute in
    handleMouseUp (Some draft2) (startRemap "uuuuuuuuuuu" carried_store).

(** The page after the session on [v1]. *)
Definition v1_page : Page :=
  Eval vm_compute in (sessionPage env doc trim "v1" script_v1 w0).1.


End Demo.

(** ** The selection extractor *)

(** What [getSelectionDraft] reads from the page: nodes by identity, and
    for each node what the DOM answers to [nodeType], [parentElement],
    [closest("[data-para='true']")], [dataset.sectionId] and
    [dataset.paraIndex]; [contains a b] is [a.contains(b)]. *)
Definition DomNode := nat.

Record Dom := mkDom {
  nodeType : DomNode → Z;
  parentElement : DomNode → option DomNode;
  closestPara : DomNode → option DomNode;
  contains : DomNode → DomNode → bool;
  dataset_sectionId : DomNode → option string;
  dataset_paraIndex : DomNode → option string }.

Record DomRange := mkRange {
  commonAncestorContainer : DomNode;
  startContainer : DomNode;
  endContainer : DomNode;
  startOffset : Z;
  endOffset : Z;
  boundingClientRect : DOMRect }.

(** A [Selection]; [rangeAt0] is [getRangeAt(0)], read only when
    [rangeCount] is not 0; [selectionText] is [toString()]. *)
Record DomSelection := mkSelection {
  rangeCount : nat;
  isCollapsed : bool;
  rangeAt0 : DomRange;
  selectionText : string }.

Section SelectionExtractor.
(** [String.prototype.trim], and [Number(s)] when [Number.isFinite] holds of
    it ([None] otherwise); the page, and what [window.getSelection()]
    returns. *)
Context (trim : string → string) (finiteNumber : string → option Z).
Context (dom : Dom) (windowSelection : option DomSelection).

(** [n.nodeType === 1 ? n : n.parentElement] *)
Definition elementOf (n : DomNode) : option DomNode :=
  if (nodeType dom n =? 1)%Z then Some n else parentElement dom n.

Definition getSelectionDraft (viewerRoot : DomNode) : option SelectionDraft :=
  match windowSelection with
  | None => None
  | Some sel =>
    if bool_decide (rangeCount sel = 0) then None
    else if isCollapsed sel then None
    else
      let range := rangeAt0 sel in
      let rect := boundingClientRect range in
      if (r_width rect =? 0)%Z && (r_height rect =? 0)%Z then None
      else
        match elementOf (commonAncestorContainer range) with
        | None => None
        | Some commonEl =>
          if negb (contains dom viewerRoot commonEl) then None
          else
            let quote := trim (selectionText sel) in
            if bool_decide (quote = "") then None
            else
              let startPara := elementOf (startContainer range) ≫= closestPara dom in
              let endPara := elementOf (endContainer range) ≫= closestPara dom in
              match startPara, endPara with
              | Some sp, Some ep =>
                if negb (bool_decide (sp = ep)) then None
                else
                  if negb (truthy (dataset_sectionId dom sp))
                     || negb (truthy (dataset_paraIndex dom sp)) then None
                  else
                    match dataset_sectionId dom sp, dataset_paraIndex dom sp with
                    | Some sectionId, Some paraIndexStr =>
                      match finiteNumber paraIndexStr with
                      | None => None
                      | Some paraIndex =>
                        let startLocal := startOffset range in
                        let endLocal := endOffset range in
                        if (startLocal =? endLocal)%Z then None
                        else
                          Some (mkDraft sectionId paraIndex
                                  (Z.min startLocal endLocal)
                                  (Z.max startLocal endLocal) quote rect)
                      end
                    | _, _ => None
                    end
              | _, _ => None
              end
        end
  end.

End SelectionExtractor.

(** ** What the side panel and the viewer derive from the store *)

(** [String.prototype.includes] *)
Fixpoint includes (hay needle : string) : bool :=
  String.prefix needle hay
  || match hay with
     | EmptyString => false
     | String _ rest => includes rest needle
     end.

(** The filter cells; [None] is the option "All". *)
Record Filters := mkFilters {
  statusFilter : option AnnotationStatus;
  severityFilter : option Severity;
  categoryFilter : option AnnotationCategory;
  query : string }.

Section Derived.
Context (trim toLowerCase : string → string).

(** The callback of [currentAnnotations.filter] in [filteredAnnotations],
    with [q] the trimmed, lower-cased query. *)
Definition passesFilters (f : Filters) (q : string) (a : Annotation) : bool :=
  if match statusFilter f with
     | Some s => negb (bool_decide (status a = s))
     | None => false
     end then false
  else if match severityFilter f with
          | Some s => negb (bool_decide (severity a = s))
          | None => false
          end then false
  else if match categoryFilter f with
          | Some c => negb (bool_decide (category a = c))
          | None => false
          end then false
  else if bool_decide (q = "") then true
  else includes (toLowerCase (quote a +:+ " " +:+ comment a)) q.

Definition filteredAnnotations (f : Filters) (st : State) : list Annotation :=
  let q := toLowerCase (trim (query f)) in
  filter (λ a, passesFilters f q a = true) (currentAnnotations st).

Definition selectedAnnotation (st : State) : option Annotation :=
  if negb (truthy (s_selectedAnnotationId st)) then None
  else s_selectedAnnotationId st ≫= λ i, findById i (currentAnnotations st).


(** [moveIssueSelection(delta)]; reading [.id] of a missing element would
    throw, which the last branch stands for. *)
Definition moveIssueSelection (f : Filters) (delta : Z) (st : State)
    : option State :=
  if negb (bool_decide (s_activeTab st = Issues)) then Some st
  else
    let shown := filteredAnnotations f st in
    if bool_decide (length shown = 0) then Some st
    else
      let currentIndex :=
        Z.max 0 (findIndex
                   (λ a, bool_decide (Some (id a) = s_selectedAnnotationId st))
                   shown) in
      let nextIndex :=
        clamp (currentIndex + delta) 0 (Z.of_nat (length shown) - 1) in
      match shown !! Z.to_nat nextIndex with
      | Some a => Some (setSelectedAnnotationId (Some (id a)) st)
      | None => None
      end.
End Derived.

(** The highlights handed to the renderer for every paragraph of the
    section [sectionId]: the annotations of the current version whose
    anchor is a TextRange in that section. *)
Definition highlightOf (sectionId : string) (ann : Annotation)
    : option Highlight :=
  match anchor ann with
  | TextRange s b e =>
      if bool_decide (s = sectionId)
      then Some (mkHighlight (id ann) b e (status ann))
      else None
  | Unanchored _ => None
  end.

Definition paragraphHighlights (sectionId : string) (st : State)
    : list Highlight :=
  omap (highlightOf sectionId) (currentAnnotations st).

(** The React keys of the parts, in order. *)
Definition part_key {char : Type} (p : Part char) : PartKey :=
  match p with PText _ k => k | PMark _ k _ _ => k end.

(** The ids and statuses of the marks, in order. *)
Definition part_mark {char : Type} (p : Part char)
    : option (string * AnnotationStatus) :=
  match p with PMark _ _ i st => Some (i, st) | PText _ _ => None end.

(** The highlights whose range is not empty once clamped to a text of
    length [len]: the ones the sweep does not skip. *)
Definition kept (len : Z) (h : Highlight) : Prop :=
  (clamp (h_start h) 0 len < clamp (h_end h) 0 len)%Z.

#[global] Instance kept_dec len h : Decision (kept len h).
Proof. unfold kept. apply _. Defined.

(** ** The activity tab *)

(** [groups.get(day) ?? []; arr.push(ev); groups.set(day, arr)] on a [Map],
    which keeps its keys in the order they were first set. *)
Fixpoint group_push (day : string) (item : ActivityItem)
    (groups : list (string * list ActivityItem))
    : list (string * list ActivityItem) :=
  match groups with
  | [] => [(day, [item])]
  | (d, items) :: rest =>
      if bool_decide (d = day) then (d, items ++ [item]) :: rest
      else (d, items) :: group_push day item rest
  end.

(** [activityGrouped]; [formatDay] prints the day of a timestamp in the
    browser's locale. *)
Definition activityGrouped (formatDay : string → string)
    (activity : list ActivityItem) : list (string * list ActivityItem) :=
  foldl (λ groups item, group_push (formatDay (ev_at item)) item groups)
        [] activity.

(** ** The state mirrored in the URL *)

(** [URLSearchParams]: the pairs in order; [get] reads the first pair of a
    name, [delete] drops every pair of it, [set] writes the first pair of it
    and drops the others, or appends a pair. *)
Definition SearchParams := list (string * string).

Definition params_get (k : string) (ps : SearchParams) : option string :=
  snd <$> find (λ kv, bool_decide (kv.1 = k)) ps.

Definition params_delete (k : string) (ps : SearchParams) : SearchParams :=
  filter (λ kv, kv.1 ≠ k) ps.

Fixpoint params_set (k v : string) (ps : SearchParams) : SearchParams :=
  match ps with
  | [] => [(k, v)]
  | (k', v') :: rest =>
      if bool_decide (k' = k) then (k, v) :: params_delete k rest
      else (k', v') :: params_set k v rest
  end.

Record Location := mkLocation { pathname : string; search : SearchParams }.

(** A property of the argument of [updateUrl]: left out, [null], or a
    string. *)
Inductive UrlField := Omitted | Null | Str (s : string).

Definition toTabKey (t : Tab) : string :=
  match t with Activity => "activity" | Issues => "issues" end.

Definition fromTabKey (t : string) : Tab :=
  if bool_decide (t = "activity") then Activity else Issues.

Definition modeName (m : Mode) : string :=
  match m with editor => "editor" | viewer => "viewer" end.

(** One of the three blocks of [updateUrl]. *)
Definition updateParam (k : string) (f : UrlField) (ps : SearchParams)
    : SearchParams :=
  match f with
  | Null => params_delete k ps
  | Str s => if bool_decide (s = "") then ps else params_set k s ps
  | Omitted => ps
  end.

Definition updateUrl (issue tab mode : UrlField) (loc : Location) : Location :=
  mkLocation (pathname loc)
    (updateParam "mode" mode
       (updateParam "tab" tab (updateParam "issue" issue (search loc)))).

(** The three effects that follow [activeTab], [selectedAnnotationId] and
    [mode], once they have all run. *)
Definition syncUrl (st : State) (loc : Location) : Location :=
  updateUrl Omitted Omitted (Str (modeName (s_mode st)))
    (updateUrl (match s_selectedAnnotationId st with
                | Some i => Str i
                | None => Null
                end) Omitted Omitted
       (updateUrl Omitted (Str (toTabKey (s_activeTab st))) Omitted loc)).

(** The effect that runs once on mount and reads the query string. *)
Definition readUrl (loc : Location) (st : State) : State :=
  let issue := params_get "issue" (search loc) in
  let tab := params_get "tab" (search loc) in
  let m := params_get "mode" (search loc) in
  let st1 :=
    match tab with
    | Some t => if bool_decide (t = "issues") || bool_decide (t = "activity")
                then setActiveTab (fromTabKey t) st else st
    | None => st
    end in
  let st2 :=
    if truthy issue then setSelectedAnnotationId issue st1 else st1 in
  match m with
  | Some s => if bool_decide (s = "editor") then setMode editor st2
              else if bool_decide (s = "viewer") then setMode viewer st2
              else st2
  | None => st2
  end.

(** The link [copyShareLink] writes to the clipboard. *)
Definition copyShareLink (st : State) (loc : Location) : Location :=
  let ps1 := params_set "mode" (modeName (s_mode st)) (search loc) in
  let ps2 := params_set "tab" (toTabKey (s_activeTab st)) ps1 in
  mkLocation (pathname loc)
    (if truthy (s_selectedAnnotationId st)
     then match s_selectedAnnotationId st with
          | Some i => params_set "issue" i ps2
          | None => ps2
          end
     else params_delete "issue" ps2).

(** ** The review page *)

Record DocSection := mkSection {
  sec_id : string;
  sec_title : string;
  paragraphs : list string }.

Record DocContent := mkContent {
  c_versionId : string;
  sections : list DocSection }.

(** What [ReviewPage] renders. *)
Inductive ReviewPageResult :=
| DocumentNotFound
| NoVersionsAvailable
| ContentUnavailable
| Review (doc : Document) (initialVersionId : string) (content : DocContent)
         (contentsByVersionId : gmap string (option DocContent)).

Section ReviewPage.
(** The seeded documents of [mockData] and the content store of
    [docContent]. *)
Context (seededDocuments : list Document).
Context (store : gmap string (gmap string DocContent)).

Definition getDocumentById (i : string) : option Document :=
  find (λ d, bool_decide (d_id d = i)) seededDocuments.

(** [store[docId]?.[versionId] ?? null] *)
Definition getDocContent (docId versionId : string) : option DocContent :=
  store !! docId ≫= λ byVersion, byVersion !! versionId.

(** [latest?.id ?? doc.versions[0]?.id] *)
Definition latestVersionId (doc : Document) : option string :=
  match sortedVersions doc !! 0 with
  | Some latest => Some (v_id latest)
  | None => v_id <$> versions doc !! 0
  end.

Definition ReviewPage (i : string) : ReviewPageResult :=
  match getDocumentById i with
  | None => DocumentNotFound
  | Some doc =>
    if negb (truthy (latestVersionId doc)) then NoVersionsAvailable
    else match latestVersionId doc with
    | None => NoVersionsAvailable
    | Some initialVersionId =>
      let contentsByVersionId :=
        foldl (λ m v, <[v_id v := getDocContent (d_id doc) (v_id v)]> m)
              ∅ (versions doc) in
      match contentsByVersionId !! initialVersionId with
      | Some (Some initialContent) =>
          Review doc initialVersionId initialContent contentsByVersionId
      | _ => ContentUnavailable
      end
    end
  end.
End ReviewPage.

(** ** The documents list *)

(** A seeded document as the list reads it: the fields of the [Document]
    type beside its id, title and versions. Tags and status are the
    strings they are at run time. *)
Record ListedDocument := mkListed {
  l_doc : Document;
  l_tags : list string;
  l_status : string;
  l_updatedAt : string;
  l_issueCount : Z }.

(** [DocsQuery]; [None] is a property left undefined. *)
Record DocsQuery := mkQuery {
  q_q : option string;
  q_tag : option string;
  q_status : option string;
  q_sort : option string }.

Section Listing.
(** [String.prototype.trim], [toLowerCase] and [localeCompare], and
    [new Date(s).getTime()], which is [None] when it is NaN. *)
Context (trim toLowerCase : string → string).
Context (localeCompare : string → string → Z) (getTime : string → option Z).

Definition normalize (s : string) : string := toLowerCase (trim s).

Definition matchesQuery (d : ListedDocument) (q : option string) : bool :=
  if negb (truthy q) then true
  else match q with
       | None => true
       | Some q' =>
           let nq := normalize q' in
           let hay :=
             normalize (d_title (l_doc d) +:+ " "
                        +:+ String.concat " " (l_tags d) +:+ " "
                        +:+ l_status d) in
           includes hay nq
       end.

Definition matchesTag (d : ListedDocument) (tag : option string) : bool :=
  match tag with
  | None => true
  | Some t =>
      if negb (truthy tag) || bool_decide (t = "All") then true
      else bool_decide (t ∈ l_tags d)
  end.

Definition matchesStatus (d : ListedDocument) (status : option string) : bool :=
  match status with
  | None => true
  | Some s =>
      if negb (truthy status) || bool_decide (s = "All") then true
      else bool_decide (l_status d = s)
  end.

(** The comparator of the default sort; a NaN result counts as 0 in
    [Array.prototype.sort]. *)
Definition byUpdatedDesc (a b : ListedDocument) : Z :=
  match getTime (l_updatedAt b), getTime (l_updatedAt a) with
  | Some tb, Some ta => tb - ta
  | _, _ => 0
  end.

Definition sortDocs (docs : list ListedDocument) (sort : option string)
    : list ListedDocument :=
  match sort with
  | Some s =>
      if bool_decide (s = "issues_desc")
      then js_sort (λ a b, l_issueCount b - l_issueCount a)%Z docs
      else if bool_decide (s = "title_asc")
      then js_sort (λ a b, localeCompare (d_title (l_doc a))
                                         (d_title (l_doc b))) docs
      else js_sort byUpdatedDesc docs
  | None => js_sort byUpdatedDesc docs
  end.

(** What the promise of [getDocuments] resolves to. *)
Definition getDocuments (seeded : list ListedDocument) (query : DocsQuery)
    : list ListedDocument :=
  let filtered :=
    filter (λ d, matchesStatus d (q_status query) = true)
      (filter (λ d, matchesTag d (q_tag query) = true)
         (filter (λ d, matchesQuery d (q_q query) = true) seeded)) in
  sortDocs filtered (q_sort query).

(** The query [DocsPage] builds from the search parameters of the request:
    each is a string, an array of strings, or absent. *)
Definition stringParam (v : option (string + list string)) : option string :=
  match v with Some (inl s) => Some s | _ => None end.

Definition docsQuery (sp : string → option (string + list string))
    : DocsQuery :=
  let q := stringParam (sp "q") in
  let tag := stringParam (sp "tag") in
  let status := stringParam (sp "status") in
  let sort := match stringParam (sp "sort") with
              | Some s => s
              | None => "updated_desc"
              end in
  mkQuery (match q with
           | Some s => if bool_decide (trim s = "") then None
                       else Some (trim s)
           | None => None
           end)
          (Some (default "All" tag))
          (Some (default "All" status))
          (Some sort).

(** The documents [DocsPage] lists. *)
Definition DocsPage (seeded : list ListedDocument)
    (sp : string → option (string + list string)) : list ListedDocument :=
  getDocuments seeded (docsQuery sp).

(** The toolbar's [setParam] and [applySearch]: the parameters of the URL
    they push. *)
Definition setParam (key value : string) (sp : SearchParams) : SearchParams :=
  params_delete "page"
    (if bool_decide (value = "") || bool_decide (value = "All")
     then params_delete key sp
     else params_set key value sp).

Definition applySearch (q : string) (sp : SearchParams) : SearchParams :=
  let trimmed := trim q in
  params_delete "page"
    (if bool_decide (trimmed = "") then params_delete "q" sp
     else params_set "q" trimmed sp).
End Listing.

(** ** A page, a selection and a list to run the rest on *)

Module Sample.
(** The viewer root is node 0; node 1 is a paragraph of section [s2]; node
    2 is the text node inside it. *)
Definition dom : Dom :=
  {| nodeType := λ n, if decide (n = 2) then 3%Z else 1%Z;
     parentElement := λ n, match n with 2 => Some 1 | 1 => Some 0 | _ => None end;
     closestPara := λ n, if decide (n = 1) then Some 1 else None;
     contains := λ a b, bool_decide (a = 0 ∨ a = b);
     dataset_sectionId := λ n, if decide (n = 1) then Some "s2" else None;
     dataset_paraIndex := λ n, if decide (n = 1) then Some "0" else None |}.

(** A selection dragged backwards over "services." *)
Definition selection : DomSelection :=
  {| rangeCount := 1; isCollapsed := false;
     rangeAt0 := mkRange 2 2 2 19 10 (mkRect 0 0 40 12);
     selectionText := "services." |}.

Definition finiteNumber (s : string) : option Z :=
  if bool_decide (s = "0") then Some 0%Z else None.

Definition script : list Action :=
  [MouseUp (getSelectionDraft Demo.trim finiteNumber dom (Some selection) 0);
   OpenCreateModal; CreateAnnotation].

Definition viewer_store : State :=
  Eval vm_compute in switchMode viewer Demo.v1_store.

Definition location : Location :=
  mkLocation "/docs/d1/review" [("q", "x"); ("tab", "activity")].

Definition vendor : Document :=
  mkDocument "d2" "Vendor Onboarding Checklist"
    [mkVersion "v3" "d2" 1 "2024-01-02" "Vendor Onboarding v1";
     mkVersion "v4" "d2" 2 "2024-01-10" "Vendor Onboarding v2"].

Definition documents : list Document := [Demo.doc; vendor].

Definition content_v1 : DocContent :=
  mkContent "v1" [mkSection "s1" "Parties" ["This agreement is made."];
                  mkSection "s2" "Services" ["The Contractor provides services."]].

Definition content_v2 : DocContent :=
  mkContent "v2" [mkSection "s1" "Parties" ["This agreement is made today."];
                  mkSection "s2" "Services" ["The Contractor provides services."]].

Definition store : gmap string (gmap string DocContent) :=
  {[ "d1" := <["v2" := content_v2]> {[ "v1" := content_v1 ]} ]}.

Definition contents : gmap string (option DocContent) :=
  <["v2" := Some content_v2]> {[ "v1" := Some content_v1 ]}.

Definition listed : list ListedDocument :=
  [mkListed Demo.doc ["Legal"; "HR"; "Compliance"] "HasIssues" "day-1" 6;
   mkListed vendor ["Operations"; "Compliance"] "NeedsReview" "day-3" 0].

Definition localeCompare (a b : string) : Z :=
  match String.compare a b with Lt => (-1)%Z | Eq => 0%Z | Gt => 1%Z end.

Definition getTime (s : string) : option Z := Some (Z.of_nat (String.length s)).

Definition byIssues : DocsQuery :=
  mkQuery None (Some "All") (Some "All") (Some "issues_desc").

Definition params : SearchParams := [("tag", "HR"); ("page", "2"); ("q", "x")].
End Sample.

(** ** More vocabulary *)

(** Every element is at most the ones after it, by the key [f]. *)
Fixpoint nondecreasing_by {A} (f : A → Z) (l : list A) : Prop :=
  match l with
  | [] => True
  | a :: rest => Forall (λ b, (f a ≤ f b)%Z) rest ∧ nondecreasing_by f rest
  end.



(** What the sweep keeps true of the keys pushed so far, with [l] the
    highlights still to come. *)
Definition keys_tidy {char : Type} (t : list char) (acc : Sweep char)
    (l : list Highlight) : Prop :=
  NoDup (part_key <$> parts acc) ∧
  ∀ k, k ∈ part_key <$> parts acc →
       match k with
       | KeyText c s =>
           (s ≤ cursor acc)%Z ∧
           Forall (λ h, (s ≤ clamp (h_start h) 0 (Z.of_nat (length t)))%Z) l
       | KeyMark s e i => i ∉ h_id <$> l
       | KeyTail _ => False
       end.


(** What an event may put in the place of an annotation [a] of a bucket:
    [a] itself, or one of the three in-place updates of the handlers. *)
Inductive updated_to (st : State) (a : Annotation) : Annotation → Prop :=
| Same : updated_to st a a
| Restatused s now : s ≠ NeedsRemap → updated_to st a (withStatus s now a)
| Reassigned u now : updated_to st a (withAssignee u now a)
| Redrawn draft now :
    s_selectionDraft st = Some draft → updated_to st a (remapped draft now a).

(** What an event may add in front of the current bucket: the annotation
    built by [createAnnotation] from the draft and the form, or the copy
    [carryOverFromPrevious] makes of an annotation of the previous version
    that is not Resolved. *)
Inductive added_by (doc : Document) (trim : string → string) (st : State)
    : Annotation → Prop :=
| Created draft i created updated :
    s_selectionDraft st = Some draft →
    added_by doc trim st
      {| id := i; docId := d_id doc; versionId := s_versionId st;
         quote := dr_quote draft; category := s_category st;
         severity := s_severity st; status := Open;
         assigneeId := if bool_decide (s_assigneeId st = "") then None
                       else Some (s_assigneeId st);
         comment := trim (s_comment st); anchor := draftAnchor draft;
         createdAt := created; updatedAt := updated |}
| CarriedOver prevId a i created updated :
    previousVersionId doc st = Some prevId →
    a ∈ bucket (s_annotationsByVersion st) prevId →
    status a ≠ Resolved →
    added_by doc trim st
      {| id := i; docId := docId a; versionId := s_versionId st;
         quote := quote a; category := category a; severity := severity a;
         status := NeedsRemap; assigneeId := assigneeId a;
         comment := comment a; anchor := Unanchored UserNeedsRemap;
         createdAt := created; updatedAt := updated |}.

(** The activity record that belongs to an event. *)
Definition logs (action : Action) (e : ActivityEvent) : Prop :=
  match action, e with
  | CreateAnnotation, ANNOTATION_CREATED _ _ _ _ => True
  | ToggleResolved i, ANNOTATION_RESOLVED j _ => i = j
  | ToggleResolved i, ANNOTATION_REOPENED j _ => i = j
  | ChangeAssignee i u, ASSIGNEE_CHANGED j _ u' => i = j ∧ u = u'
  | RemapIssue, ANNOTATION_REMAPPED _ _ => True
  | SwitchVersion v, VERSION_SWITCHED v' => v = v'
  | CarryOverFromPrevious, ANNOTATIONS_CARRIED_OVER _ _ _ => True
  | _, _ => False
  end.

(** The fields no handler rewrites. *)
Definition same_identity (a a' : Annotation) : Prop :=
  id a' = id a ∧ docId a' = docId a ∧ versionId a' = versionId a ∧
  category a' = category a ∧ severity a' = severity a ∧
  comment a' = comment a ∧ createdAt a' = createdAt a.

(** Every annotation of a bucket belongs to that bucket's version and to
    the document under review. *)
Definition filed_correctly (doc : Document) (st : State) : Prop :=
  ∀ v l a, s_annotationsByVersion st !! v = Some l → a ∈ l →
           versionId a = v ∧ docId a = d_id doc.

(** A TextRange anchor is a non-empty range. *)
Definition proper_anchor (a : Annotation) : Prop :=
  match anchor a with
  | TextRange _ b e => (b < e)%Z
  | Unanchored _ => True
  end.

(** The drafts of an event come from the selection extractor. *)
Definition reads_selection (trim : string → string)
    (action : Action) : Prop :=
  match action with
  | MouseUp reading =>
      ∃ finiteNumber dom windowSelection viewerRoot,
        reading = getSelectionDraft trim finiteNumber dom windowSelection
                    viewerRoot
  | _ => True
  end.

(** An event that writes neither a bucket nor the log nor the version: it
    may only change the mode (the role selector, or [setMode] alone), and
    the draft (cleared, or read by a mouse-up in editor mode). *)
Definition quiet (action : Action) (st st' : State) : Prop :=
  s_annotationsByVersion st' = s_annotationsByVersion st ∧
  s_activity st' = s_activity st ∧
  s_versionId st' = s_versionId st ∧
  (s_mode st' = s_mode st
   ∨ ∃ m, action = SwitchMode m ∨ action = SetMode m) ∧
  (s_selectionDraft st' = s_selectionDraft st
   ∨ s_selectionDraft st' = None
   ∨ (action = MouseUp (s_selectionDraft st') ∧ isReadOnly st = false)).

(** Membership in a list given by its elements. *)
Ltac in_list :=
  vm_compute;
  repeat first [apply list_elem_of_here | apply list_elem_of_further].

(** ** Vocabulary of the statements *)


Section Vocabulary.
Context (E : Env).
Implicit Types (a : Annotation) (l : list Annotation)
  (p : Annotation → bool) (g : string → Annotation → Annotation)
  (m : gmap string (list Annotation)).

(** The list an update loop [list.map((a) => p(a) ? {...a, .., updatedAt:
    nowIso()} : a)] builds when the clock has been read [k] times. *)
Fixpoint stamped p g (k : nat) l : list Annotation :=
  match l with
  | [] => []
  | a :: l' =>
      if p a then g (nowAt E k) a :: stamped p g (S k) l'
      else a :: stamped p g k l'
  end.

(** The copy of the j-th carried annotation, made when the clock had been
    read [k] times and [d] ids had been drawn before the loop. *)
Definition carriedCopy (toVersion : string) (k d j : nat) a : Annotation :=
  {| id := genIdAt E "a" (d + j); docId := docId a; versionId := toVersion;
     quote := quote a; category := category a; severity := severity a;
     status := NeedsRemap; assigneeId := assigneeId a; comment := comment a;
     anchor := Unanchored UserNeedsRemap;
     createdAt := nowAt E (k + 2 * j);
     updatedAt := nowAt E (k + 2 * j + 1) |}.

(** A bucket is sound when its annotations satisfy the invariant of the
    data model, carry distinct ids, and were all generated among the
    first [d] draws. *)
Definition bucket_ok (d : nat) l : Prop :=
  Forall anchor_matches_status l ∧
  NoDup (id <$> l) ∧
  Forall (λ a, ∃ k, k < d ∧ id a = genIdAt E "a" k) l.

Definition buckets_ok (d : nat) m : Prop :=
  ∀ v l, m !! v = Some l → bucket_ok d l.
End Vocabulary.

(** Ids of annotations come from [genId("a")]. The generator never repeats
    when two draws never give the same id; an annotation is generated by a
    world when its id is one of the draws made so far. *)
Definition never_repeats (E : Env) : Prop :=
  ∀ j k, genIdAt E "a" j = genIdAt E "a" k → j = k.

Definition generated (E : Env) (w : World) (a : Annotation) : Prop :=
  ∃ k, k < draws w ∧ id a = genIdAt E "a" k.

(** How an annotation found in a bucket after an event relates to the
    bucket before it. *)
Inductive written_by (action : Action) (old : list Annotation)
    (a' : Annotation) : Prop :=
| Kept : a' ∈ old → written_by action old a'
| Opened :
    action = CreateAnnotation ∨ action = RemapIssue →
    status a' = Open → isTextRangeAnchor (anchor a') = true →
    written_by action old a'
| Carried :
    action = CarryOverFromPrevious →
    status a' = NeedsRemap → anchor a' = Unanchored UserNeedsRemap →
    written_by action old a'
| Touched a :
    (∃ i, action = ToggleResolved i) ∨ (∃ i u, action = ChangeAssignee i u) →
    a ∈ old → id a' = id a → anchor a' = anchor a →
    (status a' = NeedsRemap ↔ status a = NeedsRemap) →
    written_by action old a'.


Ltac run_M :=
  unfold mbind, M_bind, mret, M_ret, genId, nowIso; cbn [fst snd].

(** Read a cell of a store written by the setters. *)
Ltac read_cells :=
  cbn [addActivity clearSelectionUI setActivity setAnnotationsByVersion
       setVersionId setActiveTab setSelectedAnnotationId setSelectionDraft
       setShowModal setRemapTargetId
       s_versionId s_annotationsByVersion s_activity s_activeTab
       s_selectedAnnotationId s_selectionDraft s_showModal s_category
       s_severity s_assigneeId s_comment s_remapTargetId s_mode].

(** * Properties *)

(** ** Sanity checks of the model *)

Example render_two_disjoint :
  renderHighlightedParagraph ten_digits
    [mkHighlight "B" 6 8 Resolved; mkHighlight "A" (-4) 2 Open]
  = Fragment
      [Button (KeyMark 0 2 "A") (markClass Open) "A" (list_ascii_of_string "01");
       Span (KeyText 2 6) (list_ascii_of_string "2345");
       Button (KeyMark 6 8 "B") (markClass Resolved) "B" (list_ascii_of_string "67");
       Span (KeyTail 8) (list_ascii_of_string "89")].
Proof. vm_compute. reflexivity. Qed.

Example mapM_threads_world :
  mapM (λ n : nat, (λ w, (n + clock w, mkWorld (S (clock w)) (draws w))) : M nat)
    [10; 20; 30] (mkWorld 1 0) = ([11; 22; 33], mkWorld 4 0).
Proof. reflexivity. Qed.


(** ** The highlight renderer *)

Section RendererFacts.
Context {char : Type}.
Implicit Types (t : list char) (acc : Sweep char) (h : Highlight).







End RendererFacts.

(** C1. At the paragraph "0123456789" with the overlapping spans [0,5) and
    [3,8) the fragments of the renderer concatenate to "012343456789": the
    characters at indices 3 and 4 appear twice, so the rendered text is not
    the paragraph. The sweep sets the cursor to the end of each span and
    slices every mark from the span's own start, also when that start lies
    before the cursor. *)
Theorem C1_overlap_duplicates_text :
  rendered_text (renderHighlightedParagraph ten_digits [spanA; spanB])
    = list_ascii_of_string "012343456789"
  ∧ rendered_text (renderHighlightedParagraph ten_digits [spanA; spanB])
    ≠ ten_digits.
Proof. split; [vm_compute; reflexivity | vm_compute; discriminate]. Qed.

(** C2. At the paragraph "0123456789" with the spans A = [0,5) and
    B = [3,8) the renderer returns a mark for [0,5), a mark for [3,8) with
    the value "34567", and the plain remainder "89": the second mark begins
    at 3, before the end 5 of the first, and the indices 3 and 4 lie in both
    marks. *)
Theorem C2_overlap_marks_share_indices :
  renderHighlightedParagraph ten_digits [spanA; spanB]
    = Fragment
        [Button (KeyMark 0 5 "A") (markClass Open) "A" (list_ascii_of_string "01234");
         Button (KeyMark 3 8 "B") (markClass Open) "B" (list_ascii_of_string "34567");
         Span (KeyTail 8) (list_ascii_of_string "89")]
  ∧ mark_ranges (renderHighlightedParagraph ten_digits [spanA; spanB])
    = [(0, 5)%Z; (3, 8)%Z].
Proof. split; vm_compute; reflexivity. Qed.

(** ** The store *)

Section StoreFacts.
Context (E : Env).
Implicit Types (a ann : Annotation) (l : list Annotation) (w : World)
  (st : State) (p : Annotation → bool)
  (g : string → Annotation → Annotation).

Lemma mapM_stamped p g (f : Annotation → M Annotation) l w :
  (∀ a w', f a w' = if p a
                    then (g (nowAt E (clock w')) a,
                          mkWorld (S (clock w')) (draws w'))
                    else (a, w')) →
  mapM f l w = (stamped E p g (clock w) l,
                mkWorld (clock w + length (filter (λ a, p a = true) l)) (draws w)).
Proof.
  intros Hf. revert w. induction l as [|a l IH]; intros w.
  { simpl. unfold mret, M_ret. destruct w; simpl. by rewrite Nat.add_0_r. }
  cbn [mapM stamped]. unfold mbind, M_bind at 1. rewrite Hf.
  destruct (p a) eqn:Hp.
  - unfold mbind, M_bind. rewrite IH. simpl.
    rewrite filter_cons_True by done. simpl. unfold mret, M_ret.
    do 2 f_equal. lia.
  - unfold mbind, M_bind. rewrite IH. simpl.
    rewrite filter_cons_False by (by rewrite Hp). done.
Qed.

Lemma stamped_Forall2 p g k l :
  Forall2 (λ a a', if p a
                   then ∃ j, k ≤ j < k + length (filter (λ a, p a = true) l)
                             ∧ a' = g (nowAt E j) a
                   else a' = a)
          l (stamped E p g k l).
Proof.
  revert k. induction l as [|a l IH]; intros k; simpl; [constructor|].
  destruct (p a) eqn:Hp.
  - rewrite filter_cons_True by done. simpl. constructor.
    + rewrite Hp. exists k. split; [lia|done].
    + eapply Forall2_impl; [apply IH|]. intros x y. simpl.
      destruct (p x); [|done]. intros (j & Hj & ->). exists j. split; [lia|done].
  - rewrite filter_cons_False by (by rewrite Hp). constructor.
    + by rewrite Hp.
    + apply IH.
Qed.

Lemma findById_Some i l ann :
  findById i l = Some ann → ann ∈ l ∧ id ann = i.
Proof.
  unfold findById. intros H. split.
  - apply list_elem_of_In. eapply find_some, H.
  - apply find_some in H as [_ H]. by apply bool_decide_eq_true in H.
Qed.

Lemma findById_stamped i p g k l ann :
  (∀ now a, id (g now a) = id a) →
  findById i l = Some ann →
  ∃ ann', findById i (stamped E p g k l) = Some ann' ∧
          if p ann
          then ∃ j, k ≤ j < k + length (filter (λ a, p a = true) l)
                    ∧ ann' = g (nowAt E j) ann
          else ann' = ann.
Proof.
  intros Hid. revert k. induction l as [|a l IH]; intros k; [done|].
  unfold findById. simpl. destruct (decide (id a = i)) as [Heq|Hne].
  - rewrite bool_decide_eq_true_2 by done. intros [= <-].
    destruct (p a) eqn:Hp; simpl.
    + rewrite Hid, bool_decide_eq_true_2 by done. eexists; split; [done|].
      rewrite filter_cons_True by done. simpl. exists k. split; [lia|done].
    + rewrite bool_decide_eq_true_2 by done. by eexists.
  - rewrite bool_decide_eq_false_2 by done. intros Hfind.
    destruct (p a) eqn:Hp; simpl.
    + rewrite Hid, bool_decide_eq_false_2 by done.
      rewrite filter_cons_True by done. simpl.
      destruct (IH (S k) Hfind) as (ann' & Hf & Hann'). exists ann'.
      split; [done|]. destruct (p ann); [|done].
      destruct Hann' as (j & Hj & ->). exists j. split; [lia|done].
    + rewrite bool_decide_eq_false_2 by done.
      rewrite filter_cons_False by (by rewrite Hp).
      apply (IH k Hfind).
Qed.
End StoreFacts.

Section ToggleAndRemap.
Context (E : Env).
Implicit Types (a ann : Annotation) (l : list Annotation) (w : World)
  (st : State).

Lemma bucket_insert_eq (m : gmap string (list Annotation)) v l :
  bucket (<[v:=l]> m) v = l.
Proof. unfold bucket. by rewrite lookup_insert_eq. Qed.

Lemma toggle_loop i next l w :
  mapM (λ a, if bool_decide (id a = i)
             then now ← nowIso E; mret (withStatus next now a)
             else mret a) l w
  = (stamped E (λ a, bool_decide (id a = i)) (withStatus next) (clock w) l,
     mkWorld (clock w + length (filter (λ a, bool_decide (id a = i) = true) l))
             (draws w)).
Proof.
  apply mapM_stamped. intros a w'. by destruct (bool_decide (id a = i)).
Qed.

Lemma currentAnnotations_updated item st l :
  currentAnnotations
    (addActivity item
       (setAnnotationsByVersion (λ prev, <[s_versionId st := l]> prev) st))
  = l.
Proof. unfold currentAnnotations. simpl. apply bucket_insert_eq. Qed.

(** What [toggleResolved] returns once its three guards are passed. *)
Lemma toggleResolved_run i st w ann :
  isReadOnly st = false →
  findById i (currentAnnotations st) = Some ann →
  status ann ≠ NeedsRemap →
  let next := if decide (status ann = Resolved) then Open else Resolved in
  let l' := stamped E (λ a, bool_decide (id a = i)) (withStatus next)
              (clock w) (currentAnnotations st) in
  let n := length (filter (λ a, bool_decide (id a = i) = true)
                     (currentAnnotations st)) in
  toggleResolved E i st w
  = (addActivity
       (mkActivity (genIdAt E "ev" (draws w)) (nowAt E (clock w + n))
          (if decide (next = Resolved) then ANNOTATION_RESOLVED i (quote ann)
           else ANNOTATION_REOPENED i (quote ann)))
       (setAnnotationsByVersion (λ prev, <[s_versionId st := l']> prev) st),
     mkWorld (S (clock w + n)) (S (draws w))).
Proof.
  intros Hro Hfind Hst. unfold toggleResolved. rewrite Hro, Hfind.
  rewrite decide_False by done.
  unfold mbind at 1. unfold M_bind at 1. rewrite toggle_loop. by run_M.
Qed.

(** C3. For an id found in the current version's bucket: when the
    annotation's status is NeedsRemap, [toggleResolved] returns the store
    (and the world) as they were, so no status changes and no activity
    entry is added; when it is Open (resp. Resolved), in editor mode, the
    annotation found for the id afterwards has the status Resolved (resp.
    Open), an [updatedAt] read from the clock during the call, and every
    other field as before; every annotation of the bucket with that id is
    rewritten in this way, the rest of the bucket and the other buckets
    are as before, and one resolved (resp. reopened) entry for that id is
    put in front of the activity log. *)
Theorem C3_toggleResolved_contract i st w ann :
  findById i (currentAnnotations st) = Some ann →
  let st' := (toggleResolved E i st w).1 in
  let w' := (toggleResolved E i st w).2 in
  (status ann = NeedsRemap → st' = st ∧ w' = w) ∧
  (isReadOnly st = false →
   ∀ old new,
      (old = Open ∧ new = Resolved) ∨ (old = Resolved ∧ new = Open) →
      status ann = old →
      (∃ k, clock w ≤ k < clock w' ∧
            findById i (currentAnnotations st')
            = Some {| id := id ann; docId := docId ann;
                      versionId := versionId ann; quote := quote ann;
                      category := category ann; severity := severity ann;
                      status := new; assigneeId := assigneeId ann;
                      comment := comment ann; anchor := anchor ann;
                      createdAt := createdAt ann; updatedAt := nowAt E k |}) ∧
      Forall2 (λ a a', if decide (id a = i)
                       then ∃ k, clock w ≤ k < clock w' ∧
                                 a' = {| id := id a; docId := docId a;
                                         versionId := versionId a; quote := quote a;
                                         category := category a; severity := severity a;
                                         status := new; assigneeId := assigneeId a;
                                         comment := comment a; anchor := anchor a;
                                         createdAt := createdAt a; updatedAt := nowAt E k |}
                       else a' = a)
              (currentAnnotations st) (currentAnnotations st') ∧
      (∀ v, v ≠ s_versionId st →
            s_annotationsByVersion st' !! v = s_annotationsByVersion st !! v) ∧
      s_versionId st' = s_versionId st ∧
      ∃ evid at_,
        s_activity st'
        = mkActivity evid at_
            (match new with
             | Resolved => ANNOTATION_RESOLVED i (quote ann)
             | _ => ANNOTATION_REOPENED i (quote ann)
             end) :: s_activity st).
Proof.
  intros Hfind. split.
  - intros Hst. unfold toggleResolved. rewrite Hfind.
    destruct (isReadOnly st); [done|]. by rewrite decide_True.
  - intros Hro old new Hcase Hold.
    assert (status ann ≠ NeedsRemap) as Hst
      by (destruct Hcase as [[-> _]|[-> _]]; congruence).
    assert ((if decide (status ann = Resolved) then Open else Resolved) = new)
      as Hnext.
    { destruct Hcase as [[-> ->]|[-> ->]]; rewrite Hold; by case_decide. }
    rewrite (toggleResolved_run i st w ann Hro Hfind Hst). cbv zeta.
    rewrite Hnext. cbn [fst snd]. rewrite currentAnnotations_updated.
    cbn [clock].
    set (p := λ a, bool_decide (id a = i)).
    set (n := length (filter _ _)).
    split; [|split; [|split; [|split]]].
    + destruct (findById_stamped E i p (withStatus new) (clock w)
                  (currentAnnotations st) ann) as (ann' & Hf & Hann');
        [done | done |].
      apply findById_Some in Hfind as [_ Hid]. unfold p in Hann'.
      rewrite bool_decide_eq_true_2 in Hann' by done.
      destruct Hann' as (j & Hj & ->). exists j. split; [fold p n in Hj; lia|done].
    + eapply Forall2_impl; [apply stamped_Forall2|]. intros a a'. cbn beta.
      unfold p. case_bool_decide.
      * rewrite decide_True by done. intros (j & Hj & ->). exists j.
        split; [fold p n in Hj; lia|done].
      * by rewrite decide_False.
    + intros v Hv. read_cells. by rewrite lookup_insert_ne.
    + done.
    + read_cells. eexists _, _. f_equal. f_equal.
      by destruct Hcase as [[_ ->]|[_ ->]].
Qed.

Lemma remap_loop target draft l w :
  mapM (λ a, if bool_decide (id a ≠ target) then mret a
             else now ← nowIso E; mret (remapped draft now a)) l w
  = (stamped E (λ a, bool_decide (id a = target)) (remapped draft) (clock w) l,
     mkWorld (clock w + length (filter (λ a, bool_decide (id a = target) = true) l))
             (draws w)).
Proof.
  apply mapM_stamped. intros a w'.
  destruct (decide (id a = target)).
  - by rewrite bool_decide_eq_false_2, bool_decide_eq_true_2 by auto.
  - by rewrite bool_decide_eq_true_2, bool_decide_eq_false_2 by auto.
Qed.

(** What [remapIssue] returns once its four guards are passed. *)
Lemma remapIssue_run target draft st w ann :
  isReadOnly st = false →
  s_remapTargetId st = Some target → target ≠ "" →
  s_selectionDraft st = Some draft →
  findById target (currentAnnotations st) = Some ann →
  let l' := stamped E (λ a, bool_decide (id a = target)) (remapped draft)
              (clock w) (currentAnnotations st) in
  let n := length (filter (λ a, bool_decide (id a = target) = true)
                     (currentAnnotations st)) in
  remapIssue E st w
  = (clearSelectionUI
       (setRemapTargetId None
          (setSelectedAnnotationId (Some target)
             (addActivity
                (mkActivity (genIdAt E "ev" (draws w)) (nowAt E (clock w + n))
                   (ANNOTATION_REMAPPED target (quote ann)))
                (setAnnotationsByVersion
                   (λ prev, <[s_versionId st := l']> prev) st)))),
     mkWorld (S (clock w + n)) (S (draws w))).
Proof.
  intros Hro Htarget Hne Hdraft Hfind. unfold remapIssue.
  rewrite Hro, Htarget, Hdraft, Hfind. unfold truthy.
  rewrite bool_decide_eq_false_2 by done. cbn [negb].
  unfold mbind at 1. unfold M_bind at 1. rewrite remap_loop. by run_M.
Qed.

(** C7. In editor mode, with the remap target set to an id found in the
    current version's bucket and a selection draft present, [remapIssue]
    leaves that annotation, whatever its status was, with status Open,
    the draft's quote, the anchor TextRange(draft.sectionId,
    draft.startLocal, draft.endLocal), [updatedAt] read from the clock
    during the call, and [createdAt] and all its other fields as before;
    the rest of the bucket and the other buckets are unchanged, and one
    remapped entry for that id is put in front of the activity log. *)
Theorem C7_remap_contract target draft st w ann :
  isReadOnly st = false →
  s_remapTargetId st = Some target → target ≠ "" →
  s_selectionDraft st = Some draft →
  findById target (currentAnnotations st) = Some ann →
  let st' := (remapIssue E st w).1 in
  let w' := (remapIssue E st w).2 in
  (∃ a', findById target (currentAnnotations st') = Some a' ∧
         status a' = Open ∧
         quote a' = dr_quote draft ∧
         anchor a' = TextRange (dr_sectionId draft) (startLocal draft)
                       (endLocal draft) ∧
         (∃ k, clock w ≤ k < clock w' ∧ updatedAt a' = nowAt E k) ∧
         createdAt a' = createdAt ann ∧
         id a' = id ann ∧ docId a' = docId ann ∧
         versionId a' = versionId ann ∧ category a' = category ann ∧
         severity a' = severity ann ∧ assigneeId a' = assigneeId ann ∧
         comment a' = comment ann) ∧
  Forall2 (λ a a', if decide (id a = target)
                   then ∃ k, clock w ≤ k < clock w' ∧
                             a' = remapped draft (nowAt E k) a
                   else a' = a)
          (currentAnnotations st) (currentAnnotations st') ∧
  (∀ v, v ≠ s_versionId st →
        s_annotationsByVersion st' !! v = s_annotationsByVersion st !! v) ∧
  s_versionId st' = s_versionId st ∧
  ∃ evid at_,
    s_activity st'
    = mkActivity evid at_ (ANNOTATION_REMAPPED target (quote ann))
      :: s_activity st.
Proof.
  intros Hro Htarget Hne Hdraft Hfind.
  rewrite (remapIssue_run target draft st w ann Hro Htarget Hne Hdraft Hfind).
  cbv zeta. cbn [fst snd clock].
  set (p := λ a, bool_decide (id a = target)).
  set (n := length (filter _ _)).
  set (l' := stamped E p (remapped draft) (clock w) (currentAnnotations st)).
  assert (∀ item, currentAnnotations
            (clearSelectionUI
               (setRemapTargetId None
                  (setSelectedAnnotationId (Some target)
                     (addActivity item
                        (setAnnotationsByVersion
                           (λ prev, <[s_versionId st := l']> prev) st)))))
          = l') as Hcur.
  { intros item. unfold currentAnnotations. read_cells. apply bucket_insert_eq. }
  rewrite Hcur. split; [|split; [|split; [|split]]].
  - destruct (findById_stamped E target p (remapped draft) (clock w)
                (currentAnnotations st) ann) as (ann' & Hf & Hann');
      [done | done |].
    apply findById_Some in Hfind as [_ Hid]. unfold p in Hann'.
    rewrite bool_decide_eq_true_2 in Hann' by done.
    destruct Hann' as (j & Hj & ->). eexists. split; [exact Hf|].
    repeat split; try done. exists j. split; [fold p n in Hj; lia|done].
  - eapply Forall2_impl; [apply stamped_Forall2|]. intros a a'. cbn beta.
    unfold p. case_bool_decide.
    + rewrite decide_True by done. intros (j & Hj & ->). exists j.
      split; [fold p n in Hj; lia|done].
    + by rewrite decide_False.
  - intros v Hv. read_cells. by rewrite lookup_insert_ne.
  - done.
  - read_cells. by eexists _, _.
Qed.
End ToggleAndRemap.

Section CarryOver.
Context (E : Env) (doc : Document).
Implicit Types (a c : Annotation) (l : list Annotation) (w : World)
  (st : State).

Lemma carry_loop toVersion l w :
  mapM (carryOne E toVersion) l w
  = (imap (carriedCopy E toVersion (clock w) (draws w)) l,
     mkWorld (clock w + 2 * length l) (draws w + length l)).
Proof.
  revert w. induction l as [|a l IH]; intros w.
  { simpl. unfold mret, M_ret. destruct w; simpl.
    by rewrite !Nat.add_0_r. }
  cbn [mapM imap]. unfold mbind at 1. unfold M_bind at 1.
  unfold carryOne at 1. run_M. rewrite IH. cbn [clock draws length].
  f_equal.
  - f_equal.
    + unfold carriedCopy. by rewrite !Nat.add_0_r, Nat.add_1_r.
    + apply imap_ext. intros j x _. unfold carriedCopy, compose.
      f_equal; f_equal; lia.
  - f_equal; lia.
Qed.

(** What [carryOverFromPrevious] returns once its guards are passed. *)
Lemma carryOver_run st w prevId :
  isReadOnly st = false →
  previousVersionId doc st = Some prevId → prevId ≠ "" →
  let source := filter (λ a, status a ≠ Resolved)
                  (bucket (s_annotationsByVersion st) prevId) in
  source ≠ [] →
  let carried := imap (carriedCopy E (s_versionId st) (clock w) (draws w)) source in
  carryOverFromPrevious E doc st w
  = (addActivity
       (mkActivity (genIdAt E "ev" (draws w + length source))
          (nowAt E (clock w + 2 * length source))
          (ANNOTATIONS_CARRIED_OVER prevId (s_versionId st) (length carried)))
       (setAnnotationsByVersion
          (λ prev, <[s_versionId st := carried ++ bucket prev (s_versionId st)]> prev)
          st),
     mkWorld (S (clock w + 2 * length source)) (S (draws w + length source))).
Proof.
  intros Hro Hprev Hne source Hsrc carried. unfold carryOverFromPrevious.
  rewrite Hro, Hprev. unfold truthy.
  rewrite bool_decide_eq_false_2 by done. cbn [negb].
  fold (toCarry (bucket (s_annotationsByVersion st) prevId)).
  unfold toCarry. fold source.
  rewrite decide_False by (by destruct source).
  unfold mbind at 1. unfold M_bind at 1. rewrite carry_loop. by run_M.
Qed.

Lemma carryOver_noop st w :
  isReadOnly st = true
  ∨ truthy (previousVersionId doc st) = false
  ∨ (∃ prevId, previousVersionId doc st = Some prevId ∧
               filter (λ a, status a ≠ Resolved)
                 (bucket (s_annotationsByVersion st) prevId) = []) →
  carryOverFromPrevious E doc st w = (st, w).
Proof.
  unfold carryOverFromPrevious. intros [Hro|[Hprev|(prevId & Hprev & Hnone)]].
  - by rewrite Hro.
  - rewrite Hprev. by destruct (isReadOnly st).
  - rewrite Hprev. unfold toCarry. rewrite Hnone.
    by destruct (isReadOnly st), (truthy (Some prevId)).
Qed.
End CarryOver.

Section Versions.
Context (doc : Document).

Lemma sort_insert_perm {A} (cmp : A → A → Z) x (l : list A) :
  sort_insert cmp x l ≡ₚ x :: l.
Proof.
  induction l as [|y l IH]; simpl; [done|].
  destruct (cmp x y <=? 0)%Z; [done|]. rewrite IH. apply Permutation_swap.
Qed.

Lemma js_sort_perm {A} (cmp : A → A → Z) (l : list A) : js_sort cmp l ≡ₚ l.
Proof.
  induction l as [|x l IH]; simpl; [done|].
  unfold js_sort in *. simpl. by rewrite sort_insert_perm, IH.
Qed.

Lemma findIndex_ge {A} (p : A → bool) (l : list A) : (-1 ≤ findIndex p l)%Z.
Proof.
  induction l as [|x l IH]; simpl; [lia|].
  destruct (p x); [lia|]. destruct (Z.ltb_spec (findIndex p l) 0); lia.
Qed.

Lemma findIndex_found {A} (p : A → bool) (l : list A) :
  (0 ≤ findIndex p l)%Z →
  ∃ x, l !! Z.to_nat (findIndex p l) = Some x ∧ p x = true.
Proof.
  induction l as [|x l IH]; simpl; [lia|].
  destruct (p x) eqn:Hp; [by exists x|].
  destruct (Z.ltb_spec (findIndex p l) 0) as [|Hge]; [lia|]. intros _.
  destruct (IH Hge) as (y & Hy & Hpy). exists y. split; [|done].
  by replace (Z.to_nat (findIndex p l + 1)) with (S (Z.to_nat (findIndex p l)))
    by lia.
Qed.

(** In a document whose versions have distinct ids, the previous version
    is another version than the current one. *)
Lemma previous_ne_current st prevId :
  NoDup (v_id <$> versions doc) →
  previousVersionId doc st = Some prevId →
  prevId ≠ s_versionId st.
Proof.
  intros Hnd. unfold previousVersionId.
  destruct (Z.ltb_spec (currentVersionIndex doc st) 0) as [|Hge]; [done|].
  intros Hprev Heq. unfold currentVersionIndex in *.
  destruct (findIndex_found _ _ Hge) as (cur & Hcur & Hid).
  apply bool_decide_eq_true in Hid.
  apply fmap_Some in Hprev as (prev & Hprev & ->).
  assert (NoDup (v_id <$> sortedVersions doc)) as Hnd'.
  { unfold sortedVersions. by rewrite js_sort_perm. }
  set (i := findIndex _ _) in *.
  assert (Z.to_nat (i + 1) = Z.to_nat i); [|lia].
  eapply (NoDup_lookup _ _ _ (v_id prev) Hnd').
  - by rewrite list_lookup_fmap, Hprev.
  - by rewrite list_lookup_fmap, Hcur, Heq, <- Hid.
Qed.
End Versions.

Lemma filter_complement_length {A} (P : A → Prop) `{∀ x, Decision (P x)}
    (l : list A) :
  length (filter P l) + length (filter (λ x, ¬ P x) l) = length l.
Proof.
  induction l as [|x l IH]; [done|].
  destruct (decide (P x)).
  - rewrite filter_cons_True, (filter_cons_False (λ x, ¬ P x)) by auto.
    simpl. lia.
  - rewrite filter_cons_False, (filter_cons_True (λ x, ¬ P x)) by auto.
    simpl. lia.
Qed.

Section CarryOverContract.
Context (E : Env) (doc : Document).
Implicit Types (a c : Annotation) (l : list Annotation) (w : World)
  (st : State).

Lemma currentAnnotations_carried item st l :
  currentAnnotations
    (addActivity item
       (setAnnotationsByVersion
          (λ prev, <[s_versionId st := l ++ bucket prev (s_versionId st)]> prev)
          st))
  = l ++ currentAnnotations st.
Proof. unfold currentAnnotations. read_cells. apply bucket_insert_eq. Qed.

Lemma carried_lookup toVersion k d l j c :
  imap (carriedCopy E toVersion k d) l !! j = Some c →
  ∃ a, l !! j = Some a ∧ c = carriedCopy E toVersion k d j a.
Proof.
  rewrite list_lookup_imap. intros (a & Ha & ->)%fmap_Some. by exists a.
Qed.

(** C5. Carry-over returns the store and the world as they were when
    there is no previous version id or the source bucket holds no
    annotation that is not Resolved. Otherwise, in editor mode, it builds
    one annotation for each annotation of the source bucket that is not
    Resolved, in the same order: with the id of a fresh draw of the
    generator (different from every id in the store and from the other
    new ids as long as the generator never repeats), the source's
    category, severity, quote, comment and assignee, status NeedsRemap and
    anchor Unanchored(UserNeedsRemap); it puts that batch in front of the
    current version's bucket, leaves the other buckets alone, and puts
    one carried-over record, whose count is the number of annotations
    carried, in front of the activity log. *)
Theorem C5_carryOver_contract st w :
  let st' := (carryOverFromPrevious E doc st w).1 in
  let w' := (carryOverFromPrevious E doc st w).2 in
  (truthy (previousVersionId doc st) = false
   ∨ (∃ prevId, previousVersionId doc st = Some prevId ∧
                filter (λ a, status a ≠ Resolved)
                  (bucket (s_annotationsByVersion st) prevId) = []) →
   st' = st ∧ w' = w) ∧
  (∀ prevId,
      isReadOnly st = false →
      previousVersionId doc st = Some prevId → prevId ≠ "" →
      let source := filter (λ a, status a ≠ Resolved)
                      (bucket (s_annotationsByVersion st) prevId) in
      source ≠ [] →
      ∃ carried,
        s_annotationsByVersion st'
        = <[s_versionId st := carried ++ currentAnnotations st]>
            (s_annotationsByVersion st) ∧
        Forall2 (λ a c,
                   category c = category a ∧ severity c = severity a ∧
                   quote c = quote a ∧ comment c = comment a ∧
                   assigneeId c = assigneeId a ∧
                   status c = NeedsRemap ∧
                   anchor c = Unanchored UserNeedsRemap ∧
                   versionId c = s_versionId st ∧ docId c = docId a)
                source carried ∧
        (∀ j c, carried !! j = Some c →
                id c = genIdAt E "a" (draws w + j) ∧ draws w + j < draws w') ∧
        (never_repeats E →
         (∀ v l a, s_annotationsByVersion st !! v = Some l → a ∈ l →
                   generated E w a) →
         NoDup (id <$> carried) ∧
         ∀ c v l a, c ∈ carried →
                    s_annotationsByVersion st !! v = Some l → a ∈ l →
                    id c ≠ id a) ∧
        ∃ evid at_,
          s_activity st'
          = mkActivity evid at_
              (ANNOTATIONS_CARRIED_OVER prevId (s_versionId st) (length source))
            :: s_activity st).
Proof.
  intros st' w'. split.
  - intros Hnone. subst st' w'. rewrite carryOver_noop; [done|]. by right.
  - intros prevId Hro Hprev Hne source Hsrc. subst st' w'.
    rewrite (carryOver_run E doc st w prevId Hro Hprev Hne Hsrc).
    fold source. cbn [fst snd draws].
    set (carried := imap _ source). exists carried.
    split; [done|]. split; [|split; [|split]].
    + apply Forall2_lookup. intros j. subst carried.
      rewrite list_lookup_imap. destruct (source !! j); by constructor.
    + intros j c Hc. pose proof (lookup_lt_Some _ _ _ Hc) as Hlt.
      apply carried_lookup in Hc as (a & Ha & ->). split; [done|].
      subst carried. rewrite length_imap in Hlt. lia.
    + intros Hinj Hgen. split.
      * apply NoDup_alt. intros i j x.
        rewrite !list_lookup_fmap.
        intros (c1 & Hc1 & ->)%fmap_Some (c2 & Hc2 & Heq)%fmap_Some.
        apply carried_lookup in Hc1 as (a1 & _ & ->).
        apply carried_lookup in Hc2 as (a2 & _ & ->).
        simpl in Heq. apply Hinj in Heq. lia.
      * intros c v l a (j & Hc)%list_elem_of_lookup Hv Ha Heq.
        apply carried_lookup in Hc as (a0 & _ & ->).
        destruct (Hgen v l a Hv Ha) as (k & Hk & Hid).
        simpl in Heq. rewrite Hid in Heq. apply Hinj in Heq. lia.
    + read_cells. subst carried. rewrite length_imap. by eexists _, _.
Qed.

(** C6. In a document whose versions have distinct ids, carry-over leaves
    the bucket of the previous (source) version exactly as it was: the
    same list of the same annotations. In particular, in editor mode,
    from a source bucket of three annotations of which two are Open and
    one is Resolved, the current version's bucket becomes two new
    NeedsRemap annotations followed by what it held, and the source
    bucket is unchanged. *)
Theorem C6_carryOver_is_a_copy st w prevId :
  NoDup (v_id <$> versions doc) →
  previousVersionId doc st = Some prevId →
  let st' := (carryOverFromPrevious E doc st w).1 in
  s_annotationsByVersion st' !! prevId = s_annotationsByVersion st !! prevId ∧
  (isReadOnly st = false → prevId ≠ "" →
   length (bucket (s_annotationsByVersion st) prevId) = 3 →
   length (filter (λ a, status a = Open)
             (bucket (s_annotationsByVersion st) prevId)) = 2 →
   length (filter (λ a, status a = Resolved)
             (bucket (s_annotationsByVersion st) prevId)) = 1 →
   ∃ c1 c2,
     currentAnnotations st' = [c1; c2] ++ currentAnnotations st ∧
     status c1 = NeedsRemap ∧ status c2 = NeedsRemap ∧
     bucket (s_annotationsByVersion st') prevId
     = bucket (s_annotationsByVersion st) prevId).
Proof.
  intros Hnd Hprev st'.
  pose proof (previous_ne_current doc st prevId Hnd Hprev) as Hother.
  assert (s_annotationsByVersion st' !! prevId
          = s_annotationsByVersion st !! prevId) as Hframe.
  { subst st'.
    destruct (decide (isReadOnly st = false)) as [Hro|Hro];
      [|rewrite carryOver_noop; [done|left; by destruct (isReadOnly st)]].
    destruct (decide (prevId = "")) as [->|Hne];
      [rewrite carryOver_noop; [done|right; left; by rewrite Hprev]|].
    destruct (decide (filter (λ a, status a ≠ Resolved)
                        (bucket (s_annotationsByVersion st) prevId) = []))
      as [Hnil|Hsrc];
      [rewrite carryOver_noop; [done|right; right; by exists prevId]|].
    rewrite (carryOver_run E doc st w prevId Hro Hprev Hne Hsrc).
    cbn [fst]. read_cells. by rewrite lookup_insert_ne. }
  split; [done|]. intros Hro Hne Hlen Hopen Hres.
  assert (bucket (s_annotationsByVersion st') prevId
          = bucket (s_annotationsByVersion st) prevId) as ->
    by (unfold bucket; by rewrite Hframe).
  clear Hframe.
  set (src := bucket (s_annotationsByVersion st) prevId) in *.
  pose proof (filter_complement_length (λ a, status a = Resolved) src) as Hsplit.
  assert (length (filter (λ a, status a ≠ Resolved) src) = 2) as Hcarry by lia.
  assert (filter (λ a, status a ≠ Resolved) src ≠ []) as Hsrc
    by (intros Hnil; by rewrite Hnil in Hcarry).
  subst st'. rewrite (carryOver_run E doc st w prevId Hro Hprev Hne Hsrc).
  fold src. cbn [fst]. rewrite currentAnnotations_carried.
  destruct (filter (λ a, status a ≠ Resolved) src) as [|a1 [|a2 [|a3 rest]]];
    try done.
  cbn [imap]. by eexists _, _.
Qed.

(** C10. In editor mode, when carry-over copies annotations, the j-th
    copy (the j-th annotation of the current version's bucket after the
    call) has [createdAt] and [updatedAt] equal to two readings of the
    clock made during the call, the readings number 2j and 2j+1 counted
    from the start of the call, whatever timestamps its source carries. *)
Theorem C10_carried_timestamps st w prevId :
  isReadOnly st = false →
  previousVersionId doc st = Some prevId → prevId ≠ "" →
  let st' := (carryOverFromPrevious E doc st w).1 in
  let w' := (carryOverFromPrevious E doc st w).2 in
  let source := filter (λ a, status a ≠ Resolved)
                  (bucket (s_annotationsByVersion st) prevId) in
  ∀ j a, source !! j = Some a →
    ∃ c, currentAnnotations st' !! j = Some c ∧
         status c = NeedsRemap ∧ quote c = quote a ∧
         createdAt c = nowAt E (clock w + 2 * j) ∧
         updatedAt c = nowAt E (clock w + 2 * j + 1) ∧
         clock w ≤ clock w + 2 * j ∧ clock w + 2 * j + 1 < clock w'.
Proof.
  intros Hro Hprev Hne st' w' source j a Ha.
  assert (source ≠ []) as Hsrc by (intros Hnil; by rewrite Hnil in Ha).
  subst st' w'. rewrite (carryOver_run E doc st w prevId Hro Hprev Hne Hsrc).
  fold source. cbn [fst snd clock]. rewrite currentAnnotations_carried.
  pose proof (lookup_lt_Some _ _ _ Ha) as Hlt.
  exists (carriedCopy E (s_versionId st) (clock w) (draws w) j a).
  split; [|repeat split; simpl; lia].
  rewrite lookup_app_l by (rewrite length_imap; lia).
  by rewrite list_lookup_imap, Ha.
Qed.
End CarryOverContract.

(** ** The invariant along a session *)

Section Invariant.
Context (E : Env) (doc : Document) (trim : string → string).
Implicit Types (a ann : Annotation) (l : list Annotation) (w : World)
  (st : State) (m : gmap string (list Annotation))
  (p : Annotation → bool) (g : string → Annotation → Annotation).

Lemma bucket_ok_nil d : bucket_ok E d [].
Proof. repeat split; constructor. Qed.

Lemma bucket_ok_mono d d' l : d ≤ d' → bucket_ok E d l → bucket_ok E d' l.
Proof.
  intros Hd (Hinv & Hnd & Hgen). repeat split; [done|done|].
  eapply Forall_impl; [exact Hgen|]. intros a (k & Hk & Hid). exists k.
  split; [lia|done].
Qed.

Lemma buckets_ok_mono d d' m : d ≤ d' → buckets_ok E d m → buckets_ok E d' m.
Proof. intros Hd Hm v l Hv. eapply bucket_ok_mono; [done|]. by eapply Hm. Qed.

Lemma buckets_ok_bucket d m v : buckets_ok E d m → bucket_ok E d (bucket m v).
Proof.
  intros Hm. unfold bucket. destruct (m !! v) eqn:Hv; simpl.
  - by eapply Hm.
  - apply bucket_ok_nil.
Qed.

Lemma buckets_ok_insert d d' m v l :
  d ≤ d' → buckets_ok E d m → bucket_ok E d' l → buckets_ok E d' (<[v:=l]> m).
Proof.
  intros Hd Hm Hl v' l'. rewrite lookup_insert. case_decide.
  - by intros [= <-].
  - intros Hv'. eapply bucket_ok_mono; [done|]. by eapply Hm.
Qed.

Lemma stamped_ids p g k l :
  (∀ now a, id (g now a) = id a) → id <$> stamped E p g k l = id <$> l.
Proof.
  intros Hid. revert k. induction l as [|a l IH]; intros k; [done|].
  simpl. destruct (p a); simpl; by rewrite ?Hid, IH.
Qed.

Lemma stamped_Forall (Q : Annotation → Prop) p g k l :
  (∀ now a, a ∈ l → p a = true → Q a → Q (g now a)) →
  Forall Q l → Forall Q (stamped E p g k l).
Proof.
  revert k. induction l as [|a l IH]; intros k Hg Hl; [constructor|].
  apply Forall_cons in Hl as [Ha Hl]. simpl.
  assert (Forall Q (stamped E p g k l) ∧ Forall Q (stamped E p g (S k) l))
    as [??].
  { split; apply IH; try done; intros; apply Hg; try done; by right. }
  destruct (p a) eqn:Hp; constructor; try done. apply Hg; [by left|done|done].
Qed.

Lemma findById_unique i l ann a :
  NoDup (id <$> l) → findById i l = Some ann → a ∈ l → id a = i → a = ann.
Proof.
  induction l as [|x l IH]; [done|].
  unfold findById. simpl. intros [Hnotin Hnd]%NoDup_cons.
  destruct (decide (id x = i)) as [Hx|Hx].
  - rewrite bool_decide_eq_true_2 by done. intros [= <-].
    intros [->|Hin]%elem_of_cons Hid; [done|]. exfalso. apply Hnotin.
    rewrite Hx, <- Hid. by apply list_elem_of_fmap_2.
  - rewrite bool_decide_eq_false_2 by done.
    intros Hfind [->|Hin]%elem_of_cons Hid; [done|]. by apply IH.
Qed.

(** An in-place update that keeps ids and, on the annotations it touches,
    the invariant, keeps a bucket sound. *)
Lemma bucket_ok_stamped d p g k l :
  (∀ now a, id (g now a) = id a) →
  (∀ now a, a ∈ l → p a = true → anchor_matches_status a →
            anchor_matches_status (g now a)) →
  bucket_ok E d l → bucket_ok E d (stamped E p g k l).
Proof.
  intros Hid Hinv (Hl & Hnd & Hgen). repeat split.
  - by apply stamped_Forall.
  - by rewrite stamped_ids.
  - apply stamped_Forall; [|done]. intros now a _ _. by rewrite Hid.
Qed.

Lemma elem_of_stamped p g k l a' :
  a' ∈ stamped E p g k l →
  a' ∈ l ∨ ∃ a now, a ∈ l ∧ p a = true ∧ a' = g now a.
Proof.
  revert k. induction l as [|a l IH]; intros k; simpl; [by left|].
  destruct (p a) eqn:Hp.
  - intros [->|Hin]%elem_of_cons.
    + right. exists a, (nowAt E k). split; [by left|done].
    + destruct (IH _ Hin) as [?|(a0 & now & ? & ? & ?)]; [left; by right|].
      right. exists a0, now. split; [by right|done].
  - intros [->|Hin]%elem_of_cons; [left; by left|].
    destruct (IH _ Hin) as [?|(a0 & now & ? & ? & ?)]; [left; by right|].
    right. exists a0, now. split; [by right|done].
Qed.

Lemma bucket_insert (m : gmap string (list Annotation)) v v' l :
  bucket (<[v:=l]> m) v' = if decide (v = v') then l else bucket m v'.
Proof.
  unfold bucket. rewrite lookup_insert. by case_decide.
Qed.

Lemma createAnnotation_run st w draft :
  isReadOnly st = false →
  s_selectionDraft st = Some draft →
  let newAnn :=
    {| id := genIdAt E "a" (draws w); docId := d_id doc;
       versionId := s_versionId st; quote := dr_quote draft;
       category := s_category st; severity := s_severity st; status := Open;
       assigneeId := if bool_decide (s_assigneeId st = "") then None
                     else Some (s_assigneeId st);
       comment := trim (s_comment st); anchor := draftAnchor draft;
       createdAt := nowAt E (clock w); updatedAt := nowAt E (S (clock w)) |} in
  createAnnotation E doc trim st w
  = (clearSelectionUI
       (setActiveTab Issues
          (setSelectedAnnotationId (Some (genIdAt E "a" (draws w)))
             (addActivity
                (mkActivity (genIdAt E "ev" (S (draws w)))
                   (nowAt E (S (S (clock w))))
                   (ANNOTATION_CREATED (genIdAt E "a" (draws w))
                      (dr_quote draft) (s_category st) (s_severity st)))
                (setAnnotationsByVersion
                   (λ prev, <[s_versionId st :=
                                newAnn :: bucket prev (s_versionId st)]> prev)
                   st)))),
     mkWorld (S (S (S (clock w)))) (S (S (draws w)))).
Proof.
  intros Hro Hdraft. unfold createAnnotation. rewrite Hro, Hdraft. by run_M.
Qed.

Lemma assign_loop i toUserId l w :
  mapM (λ a, if bool_decide (id a = i)
             then now ← nowIso E; mret (withAssignee toUserId now a)
             else mret a) l w
  = (stamped E (λ a, bool_decide (id a = i)) (withAssignee toUserId) (clock w) l,
     mkWorld (clock w + length (filter (λ a, bool_decide (id a = i) = true) l))
             (draws w)).
Proof.
  apply mapM_stamped. intros a w'. by destruct (bool_decide (id a = i)).
Qed.

Lemma changeAssignee_run i toUserId st w ann :
  isReadOnly st = false →
  findById i (currentAnnotations st) = Some ann →
  let l' := stamped E (λ a, bool_decide (id a = i)) (withAssignee toUserId)
              (clock w) (currentAnnotations st) in
  let n := length (filter (λ a, bool_decide (id a = i) = true)
                     (currentAnnotations st)) in
  changeAssignee E i toUserId st w
  = (addActivity
       (mkActivity (genIdAt E "ev" (draws w)) (nowAt E (clock w + n))
          (ASSIGNEE_CHANGED i (quote ann) toUserId))
       (setAnnotationsByVersion (λ prev, <[s_versionId st := l']> prev) st),
     mkWorld (S (clock w + n)) (S (draws w))).
Proof.
  intros Hro Hfind. unfold changeAssignee. rewrite Hro, Hfind.
  unfold mbind at 1. unfold M_bind at 1. rewrite assign_loop. by run_M.
Qed.
End Invariant.

Section InvariantSteps.
Context (E : Env) (doc : Document) (trim : string → string).
Context (Hfresh : never_repeats E).
Implicit Types (a ann : Annotation) (l : list Annotation) (w : World)
  (st : State).

#[local] Abbreviation ok st w :=
  (buckets_ok E (draws w) (s_annotationsByVersion st)).

Lemma createAnnotation_ok st w :
  ok st w →
  ok (createAnnotation E doc trim st w).1 (createAnnotation E doc trim st w).2.
Proof.
  intros Hok. destruct (isReadOnly st) eqn:Hro;
    [unfold createAnnotation; by rewrite Hro|].
  destruct (s_selectionDraft st) as [draft|] eqn:Hdraft;
    [|unfold createAnnotation; by rewrite Hro, Hdraft].
  rewrite (createAnnotation_run E doc trim st w draft Hro Hdraft).
  cbn [fst snd draws]. read_cells.
  destruct (buckets_ok_bucket E _ _ (s_versionId st) Hok) as (Hinv & Hnd & Hgen).
  eapply buckets_ok_insert; [|exact Hok|]; [lia|]. repeat split.
  - constructor; [|done]. by split.
  - cbn [fmap list_fmap id]. apply NoDup_cons. split; [|done].
    intros (a & Hida & Ha)%list_elem_of_fmap.
    rewrite Forall_forall in Hgen. destruct (Hgen a Ha) as (k & Hk & Hid).
    rewrite Hid in Hida. apply Hfresh in Hida. lia.
  - constructor; [exists (draws w); split; [lia|done]|].
    eapply Forall_impl; [exact Hgen|]. intros a (k & Hk & Hid).
    exists k. split; [lia|done].
Qed.

Lemma toggleResolved_ok i st w :
  ok st w → ok (toggleResolved E i st w).1 (toggleResolved E i st w).2.
Proof.
  intros Hok. destruct (isReadOnly st) eqn:Hro;
    [unfold toggleResolved; by rewrite Hro|].
  destruct (findById i (currentAnnotations st)) as [ann|] eqn:Hfind;
    [|unfold toggleResolved; by rewrite Hro, Hfind].
  destruct (decide (status ann = NeedsRemap)) as [Hst|Hst];
    [unfold toggleResolved; by rewrite Hro, Hfind, decide_True|].
  rewrite (toggleResolved_run E i st w ann Hro Hfind Hst).
  cbn [fst snd draws]. read_cells.
  pose proof (buckets_ok_bucket E _ _ (s_versionId st) Hok) as Hb.
  eapply buckets_ok_insert; [|exact Hok|]; [lia|].
  eapply bucket_ok_mono; [|apply bucket_ok_stamped; [done| |exact Hb]]; [lia|].
  intros now a Ha Hp Hinv. apply bool_decide_eq_true in Hp.
  destruct Hb as (_ & Hnd & _).
  assert (a = ann) as -> by (by eapply findById_unique).
  unfold anchor_matches_status in *. cbn [status anchor withStatus].
  split.
  - intros Hnext. by destruct (decide (status ann = Resolved)).
  - intros Hun. by apply Hinv in Hun.
Qed.

Lemma changeAssignee_ok i u st w :
  ok st w → ok (changeAssignee E i u st w).1 (changeAssignee E i u st w).2.
Proof.
  intros Hok. destruct (isReadOnly st) eqn:Hro;
    [unfold changeAssignee; by rewrite Hro|].
  destruct (findById i (currentAnnotations st)) as [ann|] eqn:Hfind;
    [|unfold changeAssignee; by rewrite Hro, Hfind].
  rewrite (changeAssignee_run E i u st w ann Hro Hfind).
  cbn [fst snd draws]. read_cells.
  pose proof (buckets_ok_bucket E _ _ (s_versionId st) Hok) as Hb.
  eapply buckets_ok_insert; [|exact Hok|]; [lia|].
  eapply bucket_ok_mono; [|apply bucket_ok_stamped; [done| |exact Hb]]; [lia|].
  by intros now a _ _ Hinv.
Qed.

Lemma remapIssue_ok st w :
  ok st w → ok (remapIssue E st w).1 (remapIssue E st w).2.
Proof.
  intros Hok. destruct (isReadOnly st) eqn:Hro;
    [unfold remapIssue; by rewrite Hro|].
  destruct (s_remapTargetId st) as [target|] eqn:Htarget;
    [|unfold remapIssue; by rewrite Hro, Htarget].
  destruct (decide (target = "")) as [->|Hne];
    [unfold remapIssue; by rewrite Hro, Htarget|].
  destruct (s_selectionDraft st) as [draft|] eqn:Hdraft;
    [|unfold remapIssue; rewrite Hro, Htarget, Hdraft;
      by destruct (negb (truthy (Some target)))].
  destruct (findById target (currentAnnotations st)) as [ann|] eqn:Hfind;
    [|unfold remapIssue; rewrite Hro, Htarget, Hdraft, Hfind;
      by destruct (negb (truthy (Some target)))].
  rewrite (remapIssue_run E target draft st w ann Hro Htarget Hne Hdraft Hfind).
  cbn [fst snd draws]. read_cells.
  pose proof (buckets_ok_bucket E _ _ (s_versionId st) Hok) as Hb.
  eapply buckets_ok_insert; [|exact Hok|]; [lia|].
  eapply bucket_ok_mono; [|apply bucket_ok_stamped; [done| |exact Hb]]; [lia|].
  intros now a _ _ _. by split.
Qed.

Lemma carryOverFromPrevious_ok st w :
  ok st w →
  ok (carryOverFromPrevious E doc st w).1 (carryOverFromPrevious E doc st w).2.
Proof.
  intros Hok. destruct (isReadOnly st) eqn:Hro;
    [rewrite carryOver_noop; [done|by left]|].
  destruct (previousVersionId doc st) as [prevId|] eqn:Hprev;
    [|rewrite carryOver_noop; [done|right; left; by rewrite Hprev]].
  destruct (decide (prevId = "")) as [->|Hne];
    [rewrite carryOver_noop; [done|right; left; by rewrite Hprev]|].
  destruct (decide (filter (λ a, status a ≠ Resolved)
                      (bucket (s_annotationsByVersion st) prevId) = []))
    as [Hnil|Hsrc];
    [rewrite carryOver_noop; [done|right; right; by exists prevId]|].
  rewrite (carryOver_run E doc st w prevId Hro Hprev Hne Hsrc).
  cbn [fst snd draws]. read_cells.
  set (source := filter _ _) in *.
  destruct (buckets_ok_bucket E _ _ (s_versionId st) Hok) as (Hinv & Hnd & Hgen).
  rewrite Forall_forall in Hgen.
  eapply buckets_ok_insert; [|exact Hok|]; [lia|]. repeat split.
  - apply Forall_app. split; [|done]. apply Forall_forall.
    intros c (j & Hc)%list_elem_of_lookup.
    apply carried_lookup in Hc as (a & _ & ->). by split.
  - rewrite fmap_app. apply NoDup_app. split; [|split; [|done]].
    + apply NoDup_alt. intros i j x. rewrite !list_lookup_fmap.
      intros (c1 & Hc1 & ->)%fmap_Some (c2 & Hc2 & Heq)%fmap_Some.
      apply carried_lookup in Hc1 as (a1 & _ & ->).
      apply carried_lookup in Hc2 as (a2 & _ & ->).
      simpl in Heq. apply Hfresh in Heq. lia.
    + intros x (c & -> & (j & Hc)%list_elem_of_lookup)%list_elem_of_fmap
             (a & Hida & Ha)%list_elem_of_fmap.
      apply carried_lookup in Hc as (a0 & _ & ->).
      destruct (Hgen a Ha) as (k & Hk & Hid). simpl in Hida.
      rewrite Hid in Hida. apply Hfresh in Hida. lia.
  - apply Forall_app. split.
    + apply Forall_forall. intros c (j & Hc)%list_elem_of_lookup.
      pose proof (lookup_lt_Some _ _ _ Hc) as Hlt.
      rewrite length_imap in Hlt.
      apply carried_lookup in Hc as (a & _ & ->).
      exists (draws w + j). split; [lia|done].
    + apply Forall_forall. intros a Ha.
      destruct (Hgen a Ha) as (k & Hk & Hid). exists k. split; [lia|done].
Qed.

Lemma step_ok action st w :
  ok st w → ok (step E doc trim action st w).1 (step E doc trim action st w).2.
Proof.
  intros Hok. destruct action; cbn [step];
    try (unfold mret, M_ret; cbn [fst snd]; done).
  - unfold mret, M_ret, handleMouseUp. cbn [fst snd].
    by destruct (isReadOnly st).
  - unfold mret, M_ret, openCreateModal. cbn [fst snd].
    by destruct (isReadOnly st), (s_selectionDraft st).
  - by apply createAnnotation_ok.
  - by apply toggleResolved_ok.
  - by apply changeAssignee_ok.
  - unfold mret, M_ret, startRemap. cbn [fst snd].
    by destruct (isReadOnly st).
  - by apply remapIssue_ok.
  - unfold switchVersion. run_M. cbn [fst snd draws]. read_cells.
    eapply buckets_ok_mono; [|exact Hok]. lia.
  - by apply carryOverFromPrevious_ok.
Qed.

Lemma step_writes action st w :
  buckets_ok E (draws w) (s_annotationsByVersion st) →
  ∀ v a', a' ∈ bucket (s_annotationsByVersion (step E doc trim action st w).1) v →
          written_by action (bucket (s_annotationsByVersion st) v) a'.
Proof.
  intros Hok v a'.
  destruct action; cbn [step];
    try (unfold mret, M_ret; cbn [fst snd]; by constructor 1).
  - unfold mret, M_ret, handleMouseUp. cbn [fst snd].
    destruct (isReadOnly st); by constructor 1.
  - unfold mret, M_ret, openCreateModal. cbn [fst snd].
    destruct (isReadOnly st), (s_selectionDraft st); by constructor 1.
  - (* create *)
    destruct (isReadOnly st) eqn:Hro;
      [unfold createAnnotation; rewrite Hro; by constructor 1|].
    destruct (s_selectionDraft st) as [draft|] eqn:Hdraft;
      [|unfold createAnnotation; rewrite Hro, Hdraft; by constructor 1].
    rewrite (createAnnotation_run E doc trim st w draft Hro Hdraft).
    cbn [fst]. read_cells. rewrite bucket_insert. case_decide as Hv.
    + subst v. intros [->|Hin]%elem_of_cons; [|by constructor 1].
      constructor 2; [by left|done|done].
    + by constructor 1.
  - (* toggle *)
    destruct (isReadOnly st) eqn:Hro;
      [unfold toggleResolved; rewrite Hro; by constructor 1|].
    destruct (findById i (currentAnnotations st)) as [ann|] eqn:Hfind;
      [|unfold toggleResolved; rewrite Hro, Hfind; by constructor 1].
    destruct (decide (status ann = NeedsRemap)) as [Hst|Hst];
      [unfold toggleResolved; rewrite Hro, Hfind, decide_True by done;
       by constructor 1|].
    rewrite (toggleResolved_run E i st w ann Hro Hfind Hst).
    cbn [fst]. read_cells. rewrite bucket_insert. case_decide as Hv;
      [|by constructor 1].
    subst v. fold (currentAnnotations st).
    intros [Hin|(a & now & Hin & Hp & ->)]%elem_of_stamped; [by constructor 1|].
    apply bool_decide_eq_true in Hp.
    destruct (buckets_ok_bucket E _ _ (s_versionId st) Hok) as (_ & Hnd & _).
    assert (a = ann) as -> by (by eapply findById_unique).
    apply (Touched _ _ _ ann); [left; by eexists|done|done|done|].
    cbn [status withStatus]. split; [|done].
    by destruct (decide (status ann = Resolved)).
  - (* assign *)
    destruct (isReadOnly st) eqn:Hro;
      [unfold changeAssignee; rewrite Hro; by constructor 1|].
    destruct (findById i (currentAnnotations st)) as [ann|] eqn:Hfind;
      [|unfold changeAssignee; rewrite Hro, Hfind; by constructor 1].
    rewrite (changeAssignee_run E i toUserId st w ann Hro Hfind).
    cbn [fst]. read_cells. rewrite bucket_insert. case_decide as Hv;
      [|by constructor 1].
    subst v. fold (currentAnnotations st).
    intros [Hin|(a & now & Hin & Hp & ->)]%elem_of_stamped; [by constructor 1|].
    apply (Touched _ _ _ a); [right; by eexists _, _|done|done|done|done].
  - unfold mret, M_ret, startRemap. cbn [fst snd].
    destruct (isReadOnly st); by constructor 1.
  - (* remap *)
    destruct (isReadOnly st) eqn:Hro;
      [unfold remapIssue; rewrite Hro; by constructor 1|].
    destruct (s_remapTargetId st) as [target|] eqn:Htarget;
      [|unfold remapIssue; rewrite Hro, Htarget; by constructor 1].
    destruct (decide (target = "")) as [->|Hne];
      [unfold remapIssue; rewrite Hro, Htarget; by constructor 1|].
    destruct (s_selectionDraft st) as [draft|] eqn:Hdraft;
      [|unfold remapIssue; rewrite Hro, Htarget, Hdraft;
        destruct (negb (truthy (Some target))); by constructor 1].
    destruct (findById target (currentAnnotations st)) as [ann|] eqn:Hfind;
      [|unfold remapIssue; rewrite Hro, Htarget, Hdraft, Hfind;
        destruct (negb (truthy (Some target))); by constructor 1].
    rewrite (remapIssue_run E target draft st w ann Hro Htarget Hne Hdraft Hfind).
    cbn [fst]. read_cells. rewrite bucket_insert. case_decide as Hv;
      [|by constructor 1].
    subst v. fold (currentAnnotations st).
    intros [Hin|(a & now & Hin & Hp & ->)]%elem_of_stamped; [by constructor 1|].
    constructor 2; [by right|done|done].
  - (* carry over *)
    destruct (isReadOnly st) eqn:Hro;
      [rewrite carryOver_noop by (by left); by constructor 1|].
    destruct (previousVersionId doc st) as [prevId|] eqn:Hprev;
      [|rewrite carryOver_noop by (right; left; by rewrite Hprev);
        by constructor 1].
    destruct (decide (prevId = "")) as [->|Hne];
      [rewrite carryOver_noop by (right; left; by rewrite Hprev);
       by constructor 1|].
    destruct (decide (filter (λ a, status a ≠ Resolved)
                        (bucket (s_annotationsByVersion st) prevId) = []))
      as [Hnil|Hsrc];
      [rewrite carryOver_noop by (right; right; by exists prevId);
       by constructor 1|].
    rewrite (carryOver_run E doc st w prevId Hro Hprev Hne Hsrc).
    cbn [fst]. read_cells. rewrite bucket_insert. case_decide as Hv;
      [|by constructor 1].
    subst v. intros [(j & Hc)%list_elem_of_lookup|Hin]%elem_of_app;
      [|by constructor 1].
    apply carried_lookup in Hc as (a & _ & ->). by constructor 3.
Qed.
Lemma run_ok actions st w :
  ok st w → ok (run E doc trim actions st w).1 (run E doc trim actions st w).2.
Proof.
  revert st w. induction actions as [|action rest IH]; intros st w Hok.
  { done. }
  cbn [run]. unfold mbind, M_bind.
  pose proof (step_ok action st w Hok) as Hstep.
  destruct (step E doc trim action st w) as [st1 w1]. by apply IH.
Qed.
End InvariantSteps.

(** C4. As long as the id generator never repeats, every store reached
    from the store the component mounts with (no bucket at all), through
    any sequence of events (selecting text, filling the form, creating,
    toggling resolved, changing the assignee, starting, cancelling and
    confirming a remap, switching version or mode, carrying over),
    satisfies the invariant: every annotation of every bucket has status
    NeedsRemap exactly when its anchor is Unanchored. And whatever event
    comes next, each annotation of each bucket after it is either one the
    bucket already held; or written by create or remap, with status Open
    and a TextRange anchor; or written by carry-over, with status
    NeedsRemap and the anchor Unanchored(UserNeedsRemap); or an annotation
    of the bucket touched by toggleResolved or changeAssignee, with the
    same id and anchor and a status that is NeedsRemap exactly when it
    was. *)
Theorem C4_invariant_along_sessions (E : Env) (doc : Document)
    (trim : string → string) (initialVersionId : string)
    (actions : list Action) (w0 : World) :
  never_repeats E →
  let reached := session E doc trim initialVersionId actions w0 in
  store_invariant reached.1 ∧
  ∀ action v a',
    a' ∈ bucket (s_annotationsByVersion
                   (step E doc trim action reached.1 reached.2).1) v →
    written_by action (bucket (s_annotationsByVersion reached.1) v) a'.
Proof.
  intros Hfresh reached. subst reached. unfold session, mbind, M_bind.
  destruct (initialState E initialVersionId w0) as [st1 w1] eqn:Hinit.
  assert (buckets_ok E (draws w1) (s_annotationsByVersion st1)) as Hok.
  { unfold initialState in Hinit. revert Hinit. run_M. intros [= <- <-].
    intros v l. cbn [s_annotationsByVersion]. by rewrite lookup_empty. }
  pose proof (run_ok E doc trim Hfresh actions st1 w1 Hok) as Hrun.
  split.
  - intros v l Hv. by destruct (Hrun v l Hv).
  - intros action. by apply step_writes.
Qed.

(** ** Export and import *)

Section ImportContract.
Context (JSON_parse : string → option Json).
Implicit Types (c : Cells) (parsed : Json).




Lemma importParsed_replaces props c a l :
  assoc "schema" props = Some (JStr SCHEMA) →
  assoc "annotationsByVersion" props = Some a →
  assoc "activity" props = Some l →
  js_truthy (Some a) = true → js_truthy (Some l) = true →
  importParsed (JObj props) c
  = inr {| v_versionId := match assoc "versionId" props with
                          | Some (JStr v) => v
                          | _ => v_versionId c
                          end;
           v_annotationsByVersion := a;
           v_activity := l;
           v_activeTab := v_activeTab c;
           v_selectedAnnotationId := None;
           v_selectionDraft := None;
           v_showModal := false;
           v_category := v_category c;
           v_severity := v_severity c;
           v_assigneeId := v_assigneeId c;
           v_comment := v_comment c;
           v_remapTargetId := None;
           v_mode := v_mode c |}.
Proof.
  intros Hschema Habv Hact Ha Hl.
  unfold importParsed. cbn [getProp mbind Exn_bind mret Exn_ret].
  rewrite Hschema, Habv, Hact.
  unfold is_string. rewrite bool_decide_eq_true_2 by done. cbn [negb].
  by rewrite Ha, Hl.
Qed.

End ImportContract.

Section RoundTrip.
Context (E : Env) (doc : Document).
Implicit Types (st : State) (w : World) (c : Cells).

(** Importing the payload built from [st] into any store gives the two
    cells and the version of [st]. *)
Lemma import_of_export st w c0 :
  ∃ c', importParsed (exportPayload E doc st w).1 c0 = inr c' ∧
        v_annotationsByVersion c' = v_annotationsByVersion (cellsOf st) ∧
        v_activity c' = v_activity (cellsOf st) ∧
        v_versionId c' = s_versionId st.
Proof.
  unfold exportPayload. run_M.
  erewrite importParsed_replaces; [by eexists| done..].
Qed.
End RoundTrip.

Section PaletteFacts.
Context (E : Env) (doc : Document) (trim : string → string).
Implicit Types (st : State) (w : World) (pg : Page).

(** Resolving, reopening, assigning and carrying over write the buckets
    and the log only: none of the palette's dependencies. *)
Lemma store_writes_keep_paletteDeps action st w :
  match action with
  | ToggleResolved _ | ChangeAssignee _ _ | CarryOverFromPrevious => True
  | _ => False
  end →
  paletteDeps (step E doc trim action st w).1 = paletteDeps st.
Proof.
  destruct action; try done; intros _; cbn [step].
  - unfold toggleResolved. destruct (isReadOnly st); [done|].
    destruct (findById _ _) as [ann|]; [|done].
    destruct (decide (status ann = NeedsRemap)); [done|].
    cbv zeta. run_M. by destruct (mapM (M:=M) _ _ w).
  - unfold changeAssignee. destruct (isReadOnly st); [done|].
    destruct (findById _ _) as [ann|]; [|done].
    run_M. by destruct (mapM (M:=M) _ _ w).
  - unfold carryOverFromPrevious. destruct (isReadOnly st); [done|].
    destruct (negb _); [done|].
    destruct (previousVersionId doc st) as [prevId|]; [|done].
    destruct (decide _); [done|].
    cbv zeta. run_M. by destruct (mapM (M:=M) _ _ w).
Qed.

(** After such an event the array is the one of the render before. *)
Lemma store_writes_keep_the_palette action pg w :
  match action with
  | ToggleResolved _ | ChangeAssignee _ _ | CarryOverFromPrevious => True
  | _ => False
  end →
  paletteActions pg = buildPalette (pg_store pg) →
  heldRender (paletteActions (stepPage E doc trim action pg w).1)
  = pg_store pg.
Proof.
  intros Haction Hfresh. unfold stepPage, mbind, M_bind.
  pose proof (store_writes_keep_paletteDeps action (pg_store pg) w Haction)
    as Hdeps.
  destruct (step E doc trim action (pg_store pg) w) as [st' w'].
  cbn [fst snd mret M_ret paletteActions] in *.
  unfold useMemo. rewrite Hfresh. cbn [builtFor buildPalette].
  by rewrite bool_decide_eq_true_2.
Qed.
End PaletteFacts.

(** C9. The export is reached from two places. The toolbar's button runs
    the [exportJson] of the current render: the payload carries the
    schema "review-mini-v1", the document id and the current version id,
    and importing what it writes, into any store, gives the buckets, the
    activity log and the version of the store at export time, also
    through the file for any [JSON.stringify] and [JSON.parse] such that
    parsing the text written for the payload gives the payload back. The
    palette's Export JSON runs the [exportJson] held by the memoised
    array: after a resolve or reopen, an assignment or a carry-over on a
    page whose array is up to date, it is the [exportJson] of the store
    before that event. In the session that creates three annotations on
    "v1" and then resolves the second, the last event changes none of the
    array's dependencies, so the array still holds the render before it;
    the store at export time has the annotation "uuuu" Resolved and a
    resolved record at the head of its log, the render held by the
    palette has it Open and no such record, and importing what the
    palette writes gives buckets and an activity log that are those of
    the held render and are not those of the store at export time. *)
Theorem C9_palette_export_is_stale :
  (∀ E doc st w c0,
     getProp (exportPayload E doc st w).1 "schema"
     = inr (Some (JStr "review-mini-v1")) ∧
     getProp (exportPayload E doc st w).1 "docId"
     = inr (Some (JStr (d_id doc))) ∧
     getProp (exportPayload E doc st w).1 "versionId"
     = inr (Some (JStr (s_versionId st))) ∧
     ∃ c', importParsed (exportPayload E doc st w).1 c0 = inr c' ∧
           v_annotationsByVersion c' = v_annotationsByVersion (cellsOf st) ∧
           v_activity c' = v_activity (cellsOf st) ∧
           v_versionId c' = s_versionId st ∧
           ∀ JSON_parse JSON_stringify pg,
             pg_store pg = st →
             JSON_parse (JSON_stringify (exportPayload E doc st w).1)
             = Some (exportPayload E doc st w).1 →
             importJsonFile JSON_parse
               (content (toolbarExport E doc JSON_stringify pg w).1) c0
             = c') ∧
  (∀ E doc trim JSON_stringify action pg w,
     match action with
     | ToggleResolved _ | ChangeAssignee _ _ | CarryOverFromPrevious => True
     | _ => False
     end →
     paletteActions pg = buildPalette (pg_store pg) →
     paletteExport E doc JSON_stringify (stepPage E doc trim action pg w).1
     = exportJson E doc JSON_stringify (pg_store pg)) ∧
  let pg := (sessionPage Demo.env Demo.doc Demo.trim "v1" Demo.script_v1
               Demo.w0).1 in
  let w := (sessionPage Demo.env Demo.doc Demo.trim "v1" Demo.script_v1
              Demo.w0).2 in
  let now := pg_store pg in
  let held := heldRender (paletteActions pg) in
  let payload := (exportPayload Demo.env Demo.doc held w).1 in
  now = (session Demo.env Demo.doc Demo.trim "v1" Demo.script_v1 Demo.w0).1 ∧
  held = (session Demo.env Demo.doc Demo.trim "v1"
            (removelast Demo.script_v1) Demo.w0).1 ∧
  last Demo.script_v1 = Some (ToggleResolved "uuuu") ∧
  paletteDeps held = paletteDeps now ∧
  status <$> findById "uuuu" (currentAnnotations now) = Some Resolved ∧
  status <$> findById "uuuu" (currentAnnotations held) = Some Open ∧
  length (s_activity now) = S (length (s_activity held)) ∧
  ∀ c0, ∃ c',
    importParsed payload c0 = inr c' ∧
    v_annotationsByVersion c' = v_annotationsByVersion (cellsOf held) ∧
    v_activity c' = v_activity (cellsOf held) ∧
    v_annotationsByVersion c' ≠ v_annotationsByVersion (cellsOf now) ∧
    v_activity c' ≠ v_activity (cellsOf now) ∧
    ∀ JSON_parse JSON_stringify,
      JSON_parse (JSON_stringify payload) = Some payload →
      importJsonFile JSON_parse
        (content (paletteExport Demo.env Demo.doc JSON_stringify pg w).1) c0
      = c'.
Proof.
  split.
  { intros E doc st w c0.
    destruct (import_of_export E doc st w c0) as (c' & Himp & Ha & Hl & Hv).
    repeat (split; [done|]). exists c'. repeat (split; [done|]).
    intros JSON_parse JSON_stringify pg Hpg Hlaw.
    unfold toolbarExport, importJsonFile. rewrite Hpg.
    assert (content (exportJson E doc JSON_stringify st w).1
            = JSON_stringify (exportPayload E doc st w).1) as -> by done.
    by rewrite Hlaw, Himp. }
  split.
  { intros E doc trim JSON_stringify action pg w Haction Hfresh.
    unfold paletteExport.
    by rewrite (store_writes_keep_the_palette E doc trim action pg w). }
  set (run := sessionPage Demo.env Demo.doc Demo.trim "v1" Demo.script_v1
                Demo.w0).
  assert (run = (Demo.v1_page, Demo.v1_world)) as -> by (vm_compute; reflexivity).
  cbv zeta. cbn [fst snd].
  repeat (split; [vm_compute; reflexivity|]).
  intros c0.
  destruct (import_of_export Demo.env Demo.doc
              (heldRender (paletteActions Demo.v1_page)) Demo.v1_world c0)
    as (c' & Himp & Ha & Hl & Hv).
  exists c'. repeat (split; [done|]). split; [|split].
  - rewrite Ha. vm_compute. discriminate.
  - rewrite Hl. vm_compute. discriminate.
  - intros JSON_parse JSON_stringify Hlaw.
    unfold paletteExport, importJsonFile.
    assert (content (exportJson Demo.env Demo.doc JSON_stringify
                       (heldRender (paletteActions Demo.v1_page))
                       Demo.v1_world).1
            = JSON_stringify
                (exportPayload Demo.env Demo.doc
                   (heldRender (paletteActions Demo.v1_page))
                   Demo.v1_world).1) as -> by done.
    by rewrite Hlaw, Himp.
Qed.

(** ** The contracts on a sample session *)

Lemma tally_length c k : String.length (Demo.tally c k) = S k.
Proof. induction k as [|k IH]; simpl; [done|]. by rewrite IH. Qed.

Lemma demo_never_repeats : never_repeats Demo.env.
Proof.
  intros j k Heq. unfold genIdAt in Heq. simpl in Heq.
  apply (f_equal String.length) in Heq. rewrite !tally_length in Heq. lia.
Qed.

Lemma C3_toggleResolved_witness :
  isReadOnly Demo.v1_store = false ∧
  findById "uu" (currentAnnotations Demo.v1_store) = Some Demo.first_annotation ∧
  (∃ k a', findById "uu"
             (currentAnnotations
                (toggleResolved Demo.env "uu" Demo.v1_store Demo.v1_world).1)
           = Some a' ∧
           status a' = Resolved ∧ updatedAt a' = nowAt Demo.env k ∧
           quote a' = "services." ∧ createdAt a' = "tt").
Proof.
  assert (isReadOnly Demo.v1_store = false) as Hro by reflexivity.
  assert (findById "uu" (currentAnnotations Demo.v1_store)
          = Some Demo.first_annotation) as Hfind by (vm_compute; reflexivity).
  split; [exact Hro|]. split; [exact Hfind|].
  destruct (C3_toggleResolved_contract Demo.env "uu" Demo.v1_store
              Demo.v1_world Demo.first_annotation Hfind) as [_ Hflip].
  destruct (Hflip Hro Open Resolved (or_introl (conj eq_refl eq_refl)) eq_refl)
    as [(k & _ & Hk) _].
  exists k. eexists. split; [exact Hk|]. repeat split.
Defined.

Lemma C4_invariant_witness :
  never_repeats Demo.env ∧
  store_invariant
    (session Demo.env Demo.doc Demo.trim "v1"
       (Demo.script_v1 ++ [SwitchVersion "v2"; CarryOverFromPrevious;
                            StartRemap "uuuuuuuuuuu";
                            MouseUp (Some Demo.draft2); RemapIssue])
       Demo.w0).1.
Proof.
  split; [exact demo_never_repeats|].
  exact (proj1 (C4_invariant_along_sessions Demo.env Demo.doc Demo.trim "v1" _
                  Demo.w0 demo_never_repeats)).
Defined.

Lemma C5_carryOver_witness :
  isReadOnly Demo.v2_store = false ∧
  previousVersionId Demo.doc Demo.v2_store = Some "v1" ∧
  "v1" ≠ "" ∧
  filter (λ a, status a ≠ Resolved)
    (bucket (s_annotationsByVersion Demo.v2_store) "v1") ≠ [] ∧
  (∃ carried,
      s_annotationsByVersion
        (carryOverFromPrevious Demo.env Demo.doc Demo.v2_store Demo.v2_world).1
      = <[s_versionId Demo.v2_store :=
            carried ++ currentAnnotations Demo.v2_store]>
          (s_annotationsByVersion Demo.v2_store) ∧
      length carried = 2).
Proof.
  assert (isReadOnly Demo.v2_store = false) as Hro by reflexivity.
  assert (previousVersionId Demo.doc Demo.v2_store = Some "v1") as Hprev
    by (vm_compute; reflexivity).
  assert ("v1" ≠ "") as Hne by discriminate.
  assert (filter (λ a, status a ≠ Resolved)
            (bucket (s_annotationsByVersion Demo.v2_store) "v1") ≠ []) as Hsrc
    by (vm_compute; discriminate).
  repeat (split; [assumption|]).
  destruct (C5_carryOver_contract Demo.env Demo.doc Demo.v2_store Demo.v2_world)
    as [_ Hcarry].
  destruct (Hcarry "v1" Hro Hprev Hne Hsrc) as (carried & Habv & Hall & _).
  exists carried. split; [exact Habv|].
  apply Forall2_length in Hall. rewrite <- Hall. vm_compute. reflexivity.
Defined.

Lemma C6_carryOver_witness :
  NoDup (v_id <$> versions Demo.doc) ∧
  previousVersionId Demo.doc Demo.v2_store = Some "v1" ∧
  s_annotationsByVersion
    (carryOverFromPrevious Demo.env Demo.doc Demo.v2_store Demo.v2_world).1
    !! "v1"
  = s_annotationsByVersion Demo.v2_store !! "v1" ∧
  (∃ c1 c2,
      currentAnnotations
        (carryOverFromPrevious Demo.env Demo.doc Demo.v2_store Demo.v2_world).1
      = [c1; c2] ++ currentAnnotations Demo.v2_store ∧
      status c1 = NeedsRemap ∧ status c2 = NeedsRemap).
Proof.
  assert (NoDup (v_id <$> versions Demo.doc)) as Hnd
    by (apply (bool_decide_unpack _); vm_compute; exact I).
  assert (previousVersionId Demo.doc Demo.v2_store = Some "v1") as Hprev
    by (vm_compute; reflexivity).
  split; [exact Hnd|]. split; [exact Hprev|].
  destruct (C6_carryOver_is_a_copy Demo.env Demo.doc Demo.v2_store
              Demo.v2_world "v1" Hnd Hprev) as [Hframe Hscenario].
  split; [exact Hframe|].
  destruct Hscenario as (c1 & c2 & Hcur & Hs1 & Hs2 & _);
    [reflexivity | discriminate | vm_compute; reflexivity
     | vm_compute; reflexivity | vm_compute; reflexivity |].
  exists c1, c2. repeat split; assumption.
Defined.

Lemma C7_remap_witness :
  isReadOnly Demo.remap_store = false ∧
  s_remapTargetId Demo.remap_store = Some "uuuuuuuuuuu" ∧
  "uuuuuuuuuuu" ≠ "" ∧
  s_selectionDraft Demo.remap_store = Some Demo.draft2 ∧
  findById "uuuuuuuuuuu" (currentAnnotations Demo.remap_store)
  = Some Demo.carried_annotation ∧
  (∃ a', findById "uuuuuuuuuuu"
           (currentAnnotations
              (remapIssue Demo.env Demo.remap_store Demo.carried_world).1)
         = Some a' ∧
         status a' = Open ∧ quote a' = "the Contractor" ∧
         anchor a' = TextRange "s1" 4 21 ∧
         createdAt a' = createdAt Demo.carried_annotation).
Proof.
  assert (isReadOnly Demo.remap_store = false) as Hro by reflexivity.
  assert (s_remapTargetId Demo.remap_store = Some "uuuuuuuuuuu") as Htarget
    by reflexivity.
  assert ("uuuuuuuuuuu" ≠ "") as Hne by discriminate.
  assert (s_selectionDraft Demo.remap_store = Some Demo.draft2) as Hdraft
    by reflexivity.
  assert (findById "uuuuuuuuuuu" (currentAnnotations Demo.remap_store)
          = Some Demo.carried_annotation) as Hfind
    by (vm_compute; reflexivity).
  repeat (split; [assumption|]).
  destruct (C7_remap_contract Demo.env "uuuuuuuuuuu" Demo.draft2
              Demo.remap_store Demo.carried_world Demo.carried_annotation
              Hro Htarget Hne Hdraft Hfind)
    as [(a' & Ha' & Hst & Hq & Han & _ & Hcreated & _) _].
  exists a'. repeat split; assumption.
Defined.


Lemma C10_carried_timestamps_witness :
  isReadOnly Demo.v2_store = false ∧
  previousVersionId Demo.doc Demo.v2_store = Some "v1" ∧
  "v1" ≠ "" ∧
  filter (λ a, status a ≠ Resolved)
    (bucket (s_annotationsByVersion Demo.v2_store) "v1") !! 1
  = Some Demo.first_annotation ∧
  (∃ c, currentAnnotations
          (carryOverFromPrevious Demo.env Demo.doc Demo.v2_store Demo.v2_world).1
          !! 1 = Some c ∧
        createdAt c = nowAt Demo.env 15 ∧ updatedAt c = nowAt Demo.env 16 ∧
        createdAt c ≠ createdAt Demo.first_annotation).
Proof.
  assert (isReadOnly Demo.v2_store = false) as Hro by reflexivity.
  assert (previousVersionId Demo.doc Demo.v2_store = Some "v1") as Hprev
    by (vm_compute; reflexivity).
  assert ("v1" ≠ "") as Hne by discriminate.
  assert (filter (λ a, status a ≠ Resolved)
            (bucket (s_annotationsByVersion Demo.v2_store) "v1") !! 1
          = Some Demo.first_annotation) as Hsrc by (vm_compute; reflexivity).
  repeat (split; [assumption|]).
  destruct (C10_carried_timestamps Demo.env Demo.doc Demo.v2_store Demo.v2_world
              "v1" Hro Hprev Hne 1 Demo.first_annotation Hsrc)
    as (c & Hc & _ & _ & Hcreated & Hupdated & _).
  exists c. split; [exact Hc|]. split; [exact Hcreated|].
  split; [exact Hupdated|]. rewrite Hcreated. vm_compute. discriminate.
Defined.

(** * More of the code *)

(** ** The renderer: what holds with and without overlaps *)

Section SweepFacts.
Context {char : Type}.
Implicit Types (t : list char) (acc : Sweep char) (h : Highlight)
  (l : list Highlight).

Lemma sweep_step_skip t acc h :
  ¬ kept (Z.of_nat (length t)) h → sweep_step t acc h = acc.
Proof.
  unfold kept, sweep_step. intros Hskip.
  destruct (Z.leb_spec (clamp (h_end h) 0 (Z.of_nat (length t)))
              (clamp (h_start h) 0 (Z.of_nat (length t)))); [done|lia].
Qed.

Lemma sweep_step_keep t acc h :
  kept (Z.of_nat (length t)) h →
  let s := clamp (h_start h) 0 (Z.of_nat (length t)) in
  let e := clamp (h_end h) 0 (Z.of_nat (length t)) in
  sweep_step t acc h
  = mkSweep ((if (s >? cursor acc)%Z
              then parts acc ++ [PText (slice t (cursor acc) s)
                                       (KeyText (cursor acc) s)]
              else parts acc)
             ++ [PMark (slice t s e) (KeyMark s e (h_id h)) (h_id h)
                       (h_status h)]) e.
Proof.
  unfold kept, sweep_step. intros Hkeep.
  destruct (Z.leb_spec (clamp (h_end h) 0 (Z.of_nat (length t)))
              (clamp (h_start h) 0 (Z.of_nat (length t)))); [lia|done].
Qed.

Lemma sweep_marks t l acc :
  omap part_mark (parts (foldl (sweep_step t) acc l))
  = omap part_mark (parts acc)
    ++ ((λ h, (h_id h, h_status h)) <$> filter (kept (Z.of_nat (length t))) l).
Proof.
  revert acc. induction l as [|h l IH]; intros acc; cbn [foldl].
  { by rewrite filter_nil, app_nil_r. }
  rewrite IH. destruct (decide (kept (Z.of_nat (length t)) h)) as [Hk|Hk].
  - rewrite filter_cons_True by done. rewrite (sweep_step_keep t acc h Hk).
    cbn [parts]. rewrite omap_app. cbn [omap list_omap part_mark fmap list_fmap].
    rewrite <- app_assoc. f_equal.
    destruct (_ >? _)%Z; [|done]. rewrite omap_app. cbn. by rewrite app_nil_r.
  - rewrite filter_cons_False by done. by rewrite sweep_step_skip.
Qed.


End SweepFacts.

Section LengthFacts.
Context {char : Type}.
Implicit Types (t : list char) (acc : Sweep char) (h : Highlight)
  (l : list Highlight).




End LengthFacts.


Lemma mark_has_highlight {char : Type} (t : list char)
    (highlights : list Highlight) (p : Part char) i shown :
  p ∈ render_parts t highlights → part_mark p = Some (i, shown) →
  ∃ h, h ∈ highlights ∧ h_id h = i ∧ h_status h = shown.
Proof.
  intros Hp Hmark.
  assert (p ∈ parts (foldl (sweep_step t) (mkSweep [] 0)
                       (sort_highlights highlights))) as Hin.
  { unfold render_parts in Hp. cbv zeta in Hp.
    destruct (_ <? _)%Z; [|done].
    apply elem_of_app in Hp as [?|Hp]; [done|].
    apply list_elem_of_singleton in Hp as ->. done. }
  assert ((i, shown)
            ∈ omap part_mark
                (parts (foldl (sweep_step t) (mkSweep [] 0)
                          (sort_highlights highlights)))) as Hpair
    by (apply list_elem_of_omap; by exists p).
  rewrite sweep_marks in Hpair. cbn [parts omap list_omap app] in Hpair.
  apply list_elem_of_fmap in Hpair as (h & [= -> ->] & Hh).
  apply list_elem_of_filter in Hh as [_ Hh].
  unfold sort_highlights in Hh. rewrite js_sort_perm in Hh. by exists h.
Qed.


Section SortFacts.
Context {A : Type} (f : A → Z) (cmp : A → A → Z).
Context (Hcmp : ∀ a b, cmp a b = (f a - f b)%Z).

Lemma sort_insert_nondecreasing x (l : list A) :
  nondecreasing_by f l → nondecreasing_by f (sort_insert cmp x l).
Proof.
  induction l as [|y l IH]; cbn [sort_insert nondecreasing_by].
  { intros _. split; [constructor|done]. }
  intros [Hy Hl]. rewrite Hcmp.
  destruct (Z.leb_spec (f x - f y) 0) as [Hle|Hgt]; cbn [nondecreasing_by].
  - split; [|done]. constructor; [lia|].
    eapply Forall_impl; [exact Hy|]. intros b Hb. cbn in Hb. lia.
  - split; [|by apply IH].
    rewrite sort_insert_perm. constructor; [lia|done].
Qed.

Lemma js_sort_nondecreasing (l : list A) : nondecreasing_by f (js_sort cmp l).
Proof.
  induction l as [|x l IH]; [done|].
  unfold js_sort in *. cbn [foldr]. by apply sort_insert_nondecreasing.
Qed.
End SortFacts.

(** The same with a comparator that is the difference of the keys on the
    elements of the list only. *)
Lemma sort_insert_nondecreasing_on {A} (f : A → Z) (cmp : A → A → Z) x
    (l : list A) :
  (∀ b, b ∈ l → cmp x b = (f x - f b)%Z) →
  nondecreasing_by f l → nondecreasing_by f (sort_insert cmp x l).
Proof.
  induction l as [|y l IH]; cbn [sort_insert nondecreasing_by].
  { intros _ _. split; [constructor|done]. }
  intros Hcmp [Hy Hl]. rewrite Hcmp by apply list_elem_of_here.
  destruct (Z.leb_spec (f x - f y) 0) as [Hle|Hgt]; cbn [nondecreasing_by].
  - split; [|done]. constructor; [lia|].
    eapply Forall_impl; [exact Hy|]. intros b Hb. cbn in Hb. lia.
  - split.
    + rewrite sort_insert_perm. constructor; [lia|done].
    + apply IH; [|done]. intros b Hb. by apply Hcmp, list_elem_of_further.
Qed.

Lemma js_sort_nondecreasing_on {A} (f : A → Z) (cmp : A → A → Z)
    (l : list A) :
  (∀ a b, a ∈ l → b ∈ l → cmp a b = (f a - f b)%Z) →
  nondecreasing_by f (js_sort cmp l).
Proof.
  induction l as [|x l IH]; [done|]. intros Hcmp.
  unfold js_sort in *. cbn [foldr]. apply sort_insert_nondecreasing_on.
  - intros b Hb. apply Hcmp; [apply list_elem_of_here|].
    apply list_elem_of_further.
    by rewrite <- (js_sort_perm cmp l).
  - apply IH. intros a b Ha Hb.
    by apply Hcmp; apply list_elem_of_further.
Qed.

Section KeyFacts.
Context {char : Type}.
Implicit Types (t : list char) (acc : Sweep char) (h : Highlight)
  (l : list Highlight).

Lemma clamp_mono a b lo hi : (a ≤ b → clamp a lo hi ≤ clamp b lo hi)%Z.
Proof. unfold clamp. lia. Qed.

Lemma sweep_keys t l acc :
  nondecreasing_by h_start l →
  NoDup (h_id <$> l) →
  keys_tidy t acc l →
  keys_tidy t (foldl (sweep_step t) acc l) [].
Proof.
  revert acc. induction l as [|h l IH]; intros acc Hsorted Hnd Htidy;
    cbn [foldl]; [done|].
  destruct Hsorted as [Hh Hsorted]. cbn [fmap list_fmap] in Hnd.
  apply NoDup_cons in Hnd as [Hfresh Hnd].
  destruct Htidy as [Hkeys Hold].
  apply IH; [done|done|].
  destruct (decide (kept (Z.of_nat (length t)) h)) as [Hk|Hk].
  2:{ rewrite sweep_step_skip by done. split; [done|].
      intros k Hin. specialize (Hold k Hin). destruct k as [c s|s e i|c];
        [|by apply not_elem_of_cons in Hold as [_ ?]|done].
      destruct Hold as [? Hall]. apply Forall_cons in Hall as [_ ?]. done. }
  rewrite (sweep_step_keep t acc h Hk). unfold kept in Hk.
  set (s := clamp (h_start h) 0 (Z.of_nat (length t))) in *.
  set (e := clamp (h_end h) 0 (Z.of_nat (length t))) in *.
  assert (Forall (λ h', (s ≤ clamp (h_start h') 0 (Z.of_nat (length t)))%Z) l)
    as Hafter.
  { eapply Forall_impl; [exact Hh|]. intros h' Hle. by apply clamp_mono. }
  assert (∀ k, k ∈ part_key <$> parts acc →
               k ≠ KeyMark s e (h_id h) ∧
               ((s > cursor acc)%Z → k ≠ KeyText (cursor acc) s) ∧
               match k with
               | KeyText c s' =>
                   (s' ≤ e)%Z ∧
                   Forall (λ h', (s' ≤ clamp (h_start h') 0
                                          (Z.of_nat (length t)))%Z) l
               | KeyMark _ _ i => i ∉ h_id <$> l
               | KeyTail _ => False
               end) as Hold'.
  { intros k Hin. specialize (Hold k Hin). destruct k as [c s'|s' e' i|c];
      [|apply not_elem_of_cons in Hold as [Hi ?];
        split; [congruence|split; [done|done]]|done].
    destruct Hold as [Hcur Hall]. apply Forall_cons in Hall as [Hs' Hall].
    fold s in Hs'. split; [done|]. split; [intros ? [= -> ->]; lia|].
    split; [lia|done]. }
  unfold keys_tidy. cbn [cursor parts]. split.
  - rewrite fmap_app. cbn [fmap list_fmap part_key]. apply NoDup_app.
    split; [|split; [|apply NoDup_singleton]].
    + destruct (Z.gtb_spec s (cursor acc)) as [Hgt|Hngt]; [|done].
      rewrite fmap_app. cbn [fmap list_fmap part_key]. apply NoDup_app.
      split; [done|]. split; [|apply NoDup_singleton].
      intros k Hin ->%list_elem_of_singleton.
      destruct (Hold' _ Hin) as (_ & Hne & _). apply Hne; [lia|done].
    + intros k Hin ->%list_elem_of_singleton.
      destruct (Z.gtb_spec s (cursor acc)) as [Hgt|Hngt].
      * rewrite fmap_app in Hin. apply elem_of_app in Hin as [Hin|Hin].
        -- by destruct (Hold' _ Hin) as (Hne & _).
        -- cbn in Hin. by apply list_elem_of_singleton in Hin.
      * by destruct (Hold' _ Hin) as (Hne & _).
  - intros k. rewrite fmap_app. cbn [fmap list_fmap part_key].
    intros [Hin|Hin]%elem_of_app;
      [|apply list_elem_of_singleton in Hin as ->; exact Hfresh].
    destruct (Z.gtb_spec s (cursor acc)) as [Hgt|Hngt].
    + rewrite fmap_app in Hin. cbn [fmap list_fmap part_key] in Hin.
      apply elem_of_app in Hin as [Hin|Hin].
      * by destruct (Hold' _ Hin) as (_ & _ & ?).
      * apply list_elem_of_singleton in Hin as ->. split; [lia|done].
    + by destruct (Hold' _ Hin) as (_ & _ & ?).
Qed.
End KeyFacts.

(** X4. When the highlights carry distinct ids, the React keys of the parts the
    renderer builds for a paragraph are pairwise distinct, whatever the
    offsets are and however the spans overlap. *)
Theorem render_keys_are_distinct {char : Type}
    (t : list char) (highlights : list Highlight) :
  NoDup (h_id <$> highlights) →
  NoDup (part_key <$> render_parts t highlights).
Proof.
  intros Hnd. unfold render_parts. cbv zeta.
  destruct (sweep_keys t (sort_highlights highlights) (mkSweep [] 0))
    as [Hkeys Hold].
  - apply (js_sort_nondecreasing h_start). done.
  - unfold sort_highlights. by rewrite js_sort_perm.
  - split; [constructor|]. intros k Hin. cbn in Hin. by apply elem_of_nil in Hin.
  - destruct (_ <? _)%Z; [|done].
    rewrite fmap_app. cbn [fmap list_fmap part_key]. apply NoDup_app.
    split; [done|]. split; [|apply NoDup_singleton].
    intros k Hin ->%list_elem_of_singleton. by apply (Hold _ Hin).
Qed.

(** ** The store: what every event does to the buckets and the log *)

Section Shape.
Context (E : Env) (doc : Document) (trim : string → string).
Implicit Types (a : Annotation) (l : list Annotation) (w : World) (st : State)
  (p : Annotation → bool) (g : string → Annotation → Annotation).

Lemma Forall2_same st l : Forall2 (updated_to st) l l.
Proof. induction l; constructor; [constructor|done]. Qed.

Lemma stamped_updated st p g k l :
  (∀ now a, updated_to st a (g now a)) →
  Forall2 (updated_to st) l (stamped E p g k l).
Proof.
  intros Hg. revert k. induction l as [|a l IH]; intros k; cbn [stamped];
    [constructor|].
  destruct (p a); constructor; auto. constructor.
Qed.

(** The bucket of [v] after an event is a batch of added annotations,
    empty unless [v] is the current version, followed by the bucket before
    the event with each annotation kept or updated in place. *)
Lemma step_shape action st w v :
  ∃ added rest,
    bucket (s_annotationsByVersion (step E doc trim action st w).1) v
    = added ++ rest ∧
    Forall (added_by doc trim st) added ∧
    Forall2 (updated_to st) (bucket (s_annotationsByVersion st) v) rest ∧
    (v ≠ s_versionId st → added = []).
Proof.
  assert (∀ st', s_annotationsByVersion st' = s_annotationsByVersion st →
            ∃ added rest,
              bucket (s_annotationsByVersion st') v = added ++ rest ∧
              Forall (added_by doc trim st) added ∧
              Forall2 (updated_to st) (bucket (s_annotationsByVersion st) v) rest ∧
              (v ≠ s_versionId st → added = [])) as Hsame.
  { intros st' ->. exists [], (bucket (s_annotationsByVersion st) v).
    split; [done|]. split; [constructor|]. split; [apply Forall2_same|done]. }
  assert (∀ l',
            Forall2 (updated_to st) (currentAnnotations st) l' →
            ∃ added rest,
              bucket (<[s_versionId st := l']> (s_annotationsByVersion st)) v
              = added ++ rest ∧
              Forall (added_by doc trim st) added ∧
              Forall2 (updated_to st) (bucket (s_annotationsByVersion st) v) rest ∧
              (v ≠ s_versionId st → added = [])) as Hupd.
  { intros l' Hl'. rewrite bucket_insert. case_decide as Hv.
    - subst v. exists [], l'. split; [done|]. split; [constructor|]. done.
    - exists [], (bucket (s_annotationsByVersion st) v).
      split; [done|]. split; [constructor|]. split; [apply Forall2_same|done]. }
  destruct action; cbn [step];
    try (unfold mret, M_ret; cbn [fst snd]; by apply Hsame).
  - unfold mret, M_ret, handleMouseUp. cbn [fst snd].
    apply Hsame. by destruct (isReadOnly st).
  - unfold mret, M_ret, openCreateModal. cbn [fst snd].
    apply Hsame. by destruct (isReadOnly st), (s_selectionDraft st).
  - (* create *)
    destruct (isReadOnly st) eqn:Hro;
      [unfold createAnnotation; rewrite Hro; by apply Hsame|].
    destruct (s_selectionDraft st) as [draft|] eqn:Hdraft;
      [|unfold createAnnotation; rewrite Hro, Hdraft; by apply Hsame].
    rewrite (createAnnotation_run E doc trim st w draft Hro Hdraft).
    cbn [fst]. read_cells. rewrite bucket_insert. case_decide as Hv.
    + subst v. eexists [_], _. split; [done|]. split.
      * constructor; [|done]. by apply Created.
      * split; [apply Forall2_same|done].
    + exists [], (bucket (s_annotationsByVersion st) v).
      split; [done|]. split; [constructor|]. split; [apply Forall2_same|done].
  - (* toggle *)
    destruct (isReadOnly st) eqn:Hro;
      [unfold toggleResolved; rewrite Hro; by apply Hsame|].
    destruct (findById i (currentAnnotations st)) as [ann|] eqn:Hfind;
      [|unfold toggleResolved; rewrite Hro, Hfind; by apply Hsame].
    destruct (decide (status ann = NeedsRemap)) as [Hst|Hst];
      [unfold toggleResolved; rewrite Hro, Hfind, decide_True by done;
       by apply Hsame|].
    rewrite (toggleResolved_run E i st w ann Hro Hfind Hst).
    cbn [fst]. read_cells. apply Hupd.
    apply stamped_updated. intros now a. apply Restatused.
    by destruct (decide (status ann = Resolved)).
  - (* assign *)
    destruct (isReadOnly st) eqn:Hro;
      [unfold changeAssignee; rewrite Hro; by apply Hsame|].
    destruct (findById i (currentAnnotations st)) as [ann|] eqn:Hfind;
      [|unfold changeAssignee; rewrite Hro, Hfind; by apply Hsame].
    rewrite (changeAssignee_run E i toUserId st w ann Hro Hfind).
    cbn [fst]. read_cells. apply Hupd.
    apply stamped_updated. intros now a. apply Reassigned.
  - unfold mret, M_ret, startRemap. cbn [fst snd].
    apply Hsame. by destruct (isReadOnly st).
  - (* remap *)
    destruct (isReadOnly st) eqn:Hro;
      [unfold remapIssue; rewrite Hro; by apply Hsame|].
    destruct (s_remapTargetId st) as [target|] eqn:Htarget;
      [|unfold remapIssue; rewrite Hro, Htarget; by apply Hsame].
    destruct (decide (target = "")) as [->|Hne];
      [unfold remapIssue; rewrite Hro, Htarget; by apply Hsame|].
    destruct (s_selectionDraft st) as [draft|] eqn:Hdraft;
      [|unfold remapIssue; rewrite Hro, Htarget, Hdraft;
        destruct (negb (truthy (Some target))); by apply Hsame].
    destruct (findById target (currentAnnotations st)) as [ann|] eqn:Hfind;
      [|unfold remapIssue; rewrite Hro, Htarget, Hdraft, Hfind;
        destruct (negb (truthy (Some target))); by apply Hsame].
    rewrite (remapIssue_run E target draft st w ann Hro Htarget Hne Hdraft Hfind).
    cbn [fst]. read_cells. apply Hupd.
    apply stamped_updated. intros now a. by apply Redrawn.
  - (* carry over *)
    destruct (isReadOnly st) eqn:Hro;
      [rewrite carryOver_noop by (by left); by apply Hsame|].
    destruct (previousVersionId doc st) as [prevId|] eqn:Hprev;
      [|rewrite carryOver_noop by (right; left; by rewrite Hprev);
        by apply Hsame].
    destruct (decide (prevId = "")) as [->|Hne];
      [rewrite carryOver_noop by (right; left; by rewrite Hprev);
       by apply Hsame|].
    destruct (decide (filter (λ a, status a ≠ Resolved)
                        (bucket (s_annotationsByVersion st) prevId) = []))
      as [Hnil|Hsrc];
      [rewrite carryOver_noop by (right; right; by exists prevId);
       by apply Hsame|].
    rewrite (carryOver_run E doc st w prevId Hro Hprev Hne Hsrc).
    cbn [fst]. read_cells. rewrite bucket_insert. case_decide as Hv.
    + subst v. eexists _, _. split; [done|]. split.
      * apply Forall_forall. intros c (j & Hc)%list_elem_of_lookup.
        apply carried_lookup in Hc as (a & Ha & ->).
        apply list_elem_of_lookup_2, list_elem_of_filter in Ha as [Hst Ha].
        by eapply CarriedOver.
      * split; [apply Forall2_same|done].
    + exists [], (bucket (s_annotationsByVersion st) v).
      split; [done|]. split; [constructor|]. split; [apply Forall2_same|done].
Qed.
End Shape.

Section Cases.
Context (E : Env) (doc : Document) (trim : string → string).
Implicit Types (a : Annotation) (l : list Annotation) (w : World) (st : State).

(** Every event either leaves buckets, log and world alone, or is one of
    the six handlers past its guards, whose result is spelled out. *)
Lemma step_cases action st w :
  (∃ st', step E doc trim action st w = (st', w) ∧ quiet action st st')
  ∨ (∃ next, action = SwitchVersion next ∧
       step E doc trim action st w
       = (addActivity
            (mkActivity (genIdAt E "ev" (draws w)) (nowAt E (clock w))
               (VERSION_SWITCHED next))
            (setRemapTargetId None
               (setShowModal false
                  (setSelectionDraft None
                     (setSelectedAnnotationId None (setVersionId next st))))),
          mkWorld (S (clock w)) (S (draws w))))
  ∨ (∃ draft, action = CreateAnnotation ∧ isReadOnly st = false ∧
       s_selectionDraft st = Some draft ∧
       step E doc trim action st w
       = (clearSelectionUI
            (setActiveTab Issues
               (setSelectedAnnotationId (Some (genIdAt E "a" (draws w)))
                  (addActivity
                     (mkActivity (genIdAt E "ev" (S (draws w)))
                        (nowAt E (S (S (clock w))))
                        (ANNOTATION_CREATED (genIdAt E "a" (draws w))
                           (dr_quote draft) (s_category st) (s_severity st)))
                     (setAnnotationsByVersion
                        (λ prev,
                           <[s_versionId st :=
                               {| id := genIdAt E "a" (draws w);
                                  docId := d_id doc;
                                  versionId := s_versionId st;
                                  quote := dr_quote draft;
                                  category := s_category st;
                                  severity := s_severity st; status := Open;
                                  assigneeId :=
                                    if bool_decide (s_assigneeId st = "")
                                    then None else Some (s_assigneeId st);
                                  comment := trim (s_comment st);
                                  anchor := draftAnchor draft;
                                  createdAt := nowAt E (clock w);
                                  updatedAt := nowAt E (S (clock w)) |}
                               :: bucket prev (s_versionId st)]> prev)
                        st)))),
          mkWorld (S (S (S (clock w)))) (S (S (draws w)))))
  ∨ (∃ i ann, action = ToggleResolved i ∧ isReadOnly st = false ∧
       findById i (currentAnnotations st) = Some ann ∧
       status ann ≠ NeedsRemap ∧
       let next := if decide (status ann = Resolved) then Open else Resolved in
       let n := length (filter (λ a, bool_decide (id a = i) = true)
                          (currentAnnotations st)) in
       step E doc trim action st w
       = (addActivity
            (mkActivity (genIdAt E "ev" (draws w)) (nowAt E (clock w + n))
               (if decide (next = Resolved)
                then ANNOTATION_RESOLVED i (quote ann)
                else ANNOTATION_REOPENED i (quote ann)))
            (setAnnotationsByVersion
               (λ prev,
                  <[s_versionId st :=
                      stamped E (λ a, bool_decide (id a = i)) (withStatus next)
                        (clock w) (currentAnnotations st)]> prev) st),
          mkWorld (S (clock w + n)) (S (draws w))))
  ∨ (∃ i u ann, action = ChangeAssignee i u ∧ isReadOnly st = false ∧
       findById i (currentAnnotations st) = Some ann ∧
       let n := length (filter (λ a, bool_decide (id a = i) = true)
                          (currentAnnotations st)) in
       step E doc trim action st w
       = (addActivity
            (mkActivity (genIdAt E "ev" (draws w)) (nowAt E (clock w + n))
               (ASSIGNEE_CHANGED i (quote ann) u))
            (setAnnotationsByVersion
               (λ prev,
                  <[s_versionId st :=
                      stamped E (λ a, bool_decide (id a = i)) (withAssignee u)
                        (clock w) (currentAnnotations st)]> prev) st),
          mkWorld (S (clock w + n)) (S (draws w))))
  ∨ (∃ target draft ann, action = RemapIssue ∧ isReadOnly st = false ∧
       s_remapTargetId st = Some target ∧ target ≠ "" ∧
       s_selectionDraft st = Some draft ∧
       findById target (currentAnnotations st) = Some ann ∧
       let n := length (filter (λ a, bool_decide (id a = target) = true)
                          (currentAnnotations st)) in
       step E doc trim action st w
       = (clearSelectionUI
            (setRemapTargetId None
               (setSelectedAnnotationId (Some target)
                  (addActivity
                     (mkActivity (genIdAt E "ev" (draws w))
                        (nowAt E (clock w + n))
                        (ANNOTATION_REMAPPED target (quote ann)))
                     (setAnnotationsByVersion
                        (λ prev,
                           <[s_versionId st :=
                               stamped E (λ a, bool_decide (id a = target))
                                 (remapped draft) (clock w)
                                 (currentAnnotations st)]> prev) st)))),
          mkWorld (S (clock w + n)) (S (draws w))))
  ∨ (∃ prevId, action = CarryOverFromPrevious ∧ isReadOnly st = false ∧
       previousVersionId doc st = Some prevId ∧ prevId ≠ "" ∧
       let source := filter (λ a, status a ≠ Resolved)
                       (bucket (s_annotationsByVersion st) prevId) in
       source ≠ [] ∧
       step E doc trim action st w
       = (addActivity
            (mkActivity (genIdAt E "ev" (draws w + length source))
               (nowAt E (clock w + 2 * length source))
               (ANNOTATIONS_CARRIED_OVER prevId (s_versionId st)
                  (length (imap (carriedCopy E (s_versionId st) (clock w)
                                   (draws w)) source))))
            (setAnnotationsByVersion
               (λ prev,
                  <[s_versionId st :=
                      imap (carriedCopy E (s_versionId st) (clock w) (draws w))
                        source ++ bucket prev (s_versionId st)]> prev) st),
          mkWorld (S (clock w + 2 * length source))
                  (S (draws w + length source)))).
Proof.
  assert (∃ st', (st, w) = (st', w) ∧ quiet action st st') as Hnoop.
  { exists st. repeat split; by left. }
  destruct action; cbn [step].
  - (* mouse up *)
    left. unfold mret, M_ret, handleMouseUp.
    destruct (isReadOnly st) eqn:Hro; [done|].
    eexists. split; [done|]. repeat split; [by left|]. by right; right.
  - left. unfold mret, M_ret, openCreateModal.
    destruct (isReadOnly st); [done|]. destruct (s_selectionDraft st) eqn:Hd;
      [|done].
    eexists. split; [done|]. repeat split; by left.
  - left. eexists. split; [done|]. repeat split; by left.
  - left. eexists. split; [done|]. repeat split; by left.
  - left. eexists. split; [done|]. repeat split; by left.
  - left. eexists. split; [done|]. repeat split; by left.
  - (* create *)
    destruct (isReadOnly st) eqn:Hro;
      [left; unfold createAnnotation; by rewrite Hro|].
    destruct (s_selectionDraft st) as [draft|] eqn:Hdraft;
      [|left; unfold createAnnotation; by rewrite Hro, Hdraft].
    right; right; left. exists draft. repeat split; try done.
    by rewrite (createAnnotation_run E doc trim st w draft Hro Hdraft).
  - (* toggle *)
    destruct (isReadOnly st) eqn:Hro;
      [left; unfold toggleResolved; by rewrite Hro|].
    destruct (findById i (currentAnnotations st)) as [ann|] eqn:Hfind;
      [|left; unfold toggleResolved; by rewrite Hro, Hfind].
    destruct (decide (status ann = NeedsRemap)) as [Hst|Hst];
      [left; unfold toggleResolved; by rewrite Hro, Hfind, decide_True|].
    do 3 right; left. exists i, ann. repeat split; try done.
    by rewrite (toggleResolved_run E i st w ann Hro Hfind Hst).
  - (* assign *)
    destruct (isReadOnly st) eqn:Hro;
      [left; unfold changeAssignee; by rewrite Hro|].
    destruct (findById i (currentAnnotations st)) as [ann|] eqn:Hfind;
      [|left; unfold changeAssignee; by rewrite Hro, Hfind].
    do 4 right; left. exists i, toUserId, ann. repeat split; try done.
    by rewrite (changeAssignee_run E i toUserId st w ann Hro Hfind).
  - left. eexists. split; [done|]. repeat split; by left.
  - left. eexists. split; [done|]. repeat split; by left.
  - left. eexists. split; [done|]. repeat split; by left.
  - left. unfold mret, M_ret, startRemap.
    destruct (isReadOnly st); [done|].
    eexists. split; [done|]. repeat split; by left.
  - left. eexists. split; [done|]. repeat split; by left.
  - (* remap *)
    destruct (isReadOnly st) eqn:Hro;
      [left; unfold remapIssue; by rewrite Hro|].
    destruct (s_remapTargetId st) as [target|] eqn:Htarget;
      [|left; unfold remapIssue; by rewrite Hro, Htarget].
    destruct (decide (target = "")) as [->|Hne];
      [left; unfold remapIssue; by rewrite Hro, Htarget|].
    destruct (s_selectionDraft st) as [draft|] eqn:Hdraft;
      [|left; unfold remapIssue; rewrite Hro, Htarget, Hdraft;
        by destruct (negb (truthy (Some target)))].
    destruct (findById target (currentAnnotations st)) as [ann|] eqn:Hfind;
      [|left; unfold remapIssue; rewrite Hro, Htarget, Hdraft, Hfind;
        by destruct (negb (truthy (Some target)))].
    do 5 right; left. exists target, draft, ann. repeat split; try done.
    by rewrite (remapIssue_run E target draft st w ann Hro Htarget Hne Hdraft Hfind).
  - (* switch version *)
    right; left. by exists next.
  - (* switch mode *)
    left. eexists. split; [done|].
    repeat split; [right; eexists; by left|]. by right; left.
  - (* carry over *)
    destruct (isReadOnly st) eqn:Hro;
      [left; by rewrite carryOver_noop by (by left)|].
    destruct (previousVersionId doc st) as [prevId|] eqn:Hprev;
      [|left; by rewrite carryOver_noop by (right; left; by rewrite Hprev)].
    destruct (decide (prevId = "")) as [->|Hne];
      [left; by rewrite carryOver_noop by (right; left; by rewrite Hprev)|].
    destruct (decide (filter (λ a, status a ≠ Resolved)
                        (bucket (s_annotationsByVersion st) prevId) = []))
      as [Hnil|Hsrc];
      [left; by rewrite carryOver_noop by (right; right; by exists prevId)|].
    do 6 right. exists prevId. repeat split; try done.
    by rewrite (carryOver_run E doc st w prevId Hro Hprev Hne Hsrc).
  - (* close overlays *)
    left. eexists. split; [done|]. repeat split; [by left|]. by right; left.
  - (* clear selection *)
    left. eexists. split; [done|]. repeat split; [by left|]. by right; left.
  - (* set mode *)
    left. eexists. split; [done|].
    repeat split; [right; eexists; by right|]. by left.
Qed.
End Cases.

Section StoreInvariants.
Context (E : Env) (doc : Document) (trim : string → string).
Implicit Types (a : Annotation) (l : list Annotation) (w : World) (st : State).

Lemma updated_same_identity st a a' : updated_to st a a' → same_identity a a'.
Proof. by destruct 1. Qed.

Lemma same_identity_trans a b c :
  same_identity a b → same_identity b c → same_identity a c.
Proof. unfold same_identity. intuition congruence. Qed.

Lemma step_keeps action st w v a :
  a ∈ bucket (s_annotationsByVersion st) v →
  ∃ a', a' ∈ bucket (s_annotationsByVersion (step E doc trim action st w).1) v
        ∧ updated_to st a a'.
Proof.
  intros [j Hj]%list_elem_of_lookup.
  destruct (step_shape E doc trim action st w v)
    as (added & rest & -> & _ & Hupd & _).
  destruct (Forall2_lookup_l _ _ _ _ _ Hupd Hj) as (a' & Hj' & Hrel).
  exists a'. split; [|done].
  apply elem_of_app. right. by eapply list_elem_of_lookup_2.
Qed.

Lemma filed_buckets st :
  filed_correctly doc st ↔
  ∀ v a, a ∈ bucket (s_annotationsByVersion st) v →
         versionId a = v ∧ docId a = d_id doc.
Proof.
  unfold filed_correctly, bucket. split.
  - intros H v a. destruct (s_annotationsByVersion st !! v) as [l|] eqn:Hv;
      cbn [default]; [by apply H|by intros ?%elem_of_nil].
  - intros H v l a Hv Ha. apply H. by rewrite Hv.
Qed.

Lemma step_filed action st w :
  filed_correctly doc st →
  filed_correctly doc (step E doc trim action st w).1.
Proof.
  rewrite !filed_buckets. intros Hst v a'.
  destruct (step_shape E doc trim action st w v)
    as (added & rest & -> & Hadd & Hupd & Hcur).
  intros [Hin|Hin]%elem_of_app.
  - assert (v = s_versionId st) as ->.
    { destruct (decide (v = s_versionId st)) as [|Hne]; [done|].
      rewrite (Hcur Hne) in Hin. by apply elem_of_nil in Hin. }
    rewrite Forall_forall in Hadd.
    destruct (Hadd _ Hin) as [draft i c u Hd|prevId a i c u Hprev Ha Hs];
      cbn [versionId docId]; [done|].
    split; [done|]. by destruct (Hst _ _ Ha).
  - apply list_elem_of_lookup in Hin as [j Hj].
    destruct (Forall2_lookup_r _ _ _ _ _ Hupd Hj) as (a & Hja & Hrel).
    apply list_elem_of_lookup_2 in Hja.
    destruct (Hst _ _ Hja) as [Hv Hd].
    apply updated_same_identity in Hrel as (_ & Hd' & Hv' & _).
    split; congruence.
Qed.

Lemma step_proper action st w :
  reads_selection trim action →
  (∀ d, s_selectionDraft st = Some d → (startLocal d < endLocal d)%Z) →
  (∀ v a, a ∈ bucket (s_annotationsByVersion st) v → proper_anchor a) →
  let st' := (step E doc trim action st w).1 in
  (∀ d, s_selectionDraft st' = Some d → (startLocal d < endLocal d)%Z) ∧
  (∀ v a, a ∈ bucket (s_annotationsByVersion st') v → proper_anchor a).
Proof.
  intros Hread Hdraft Hst st'. subst st'. split.
  - destruct (step_cases E doc trim action st w)
      as [(st' & -> & _ & _ & _ & _ & Hd)
         |[(next & -> & ->)
         |[(draft & -> & _ & _ & ->)
         |[(i & ann & -> & _ & _ & _ & Hrun)
         |[(i & u & ann & -> & _ & _ & Hrun)
         |[(target & draft & ann & -> & _ & _ & _ & _ & _ & Hrun)
         |(prevId & -> & _ & _ & _ & _ & Hrun)]]]]]];
      cbv zeta in *; try rewrite Hrun; cbn [fst]; read_cells; try done.
    intros d Hsome. destruct Hd as [Hd|[Hd|[-> _]]].
    + apply Hdraft. congruence.
    + congruence.
    + destruct Hread as (fin & dom & sel & root & Hread).
      rewrite Hsome in Hread. symmetry in Hread. clear -Hread.
      unfold getSelectionDraft in Hread.
      repeat match type of Hread with
             | match ?x with _ => _ end = Some _ =>
                 destruct x eqn:?; try discriminate
             | (if ?x then _ else _) = Some _ =>
                 destruct x eqn:?; try discriminate
             | (let _ := _ in _) = Some _ => cbv zeta in Hread
             end.
      injection Hread as <-. cbn [startLocal endLocal].
      match goal with H : (_ =? _)%Z = false |- _ => apply Z.eqb_neq in H end.
      lia.
  - intros v a'.
    destruct (step_shape E doc trim action st w v)
      as (added & rest & -> & Hadd & Hupd & _).
    intros [Hin|Hin]%elem_of_app.
    + rewrite Forall_forall in Hadd.
      destruct (Hadd _ Hin) as [draft i c u Hd|prevId a i c u Hprev Ha Hs];
        unfold proper_anchor; cbn [anchor]; [|done].
      unfold draftAnchor. by apply Hdraft.
    + apply list_elem_of_lookup in Hin as [j Hj].
      destruct (Forall2_lookup_r _ _ _ _ _ Hupd Hj) as (a & Hja & Hrel).
      apply list_elem_of_lookup_2 in Hja. specialize (Hst _ _ Hja).
      destruct Hrel as [|s now Hs|u now|draft now Hd]; try done.
      unfold proper_anchor, remapped, draftAnchor. cbn [anchor].
      by apply Hdraft.
Qed.
End StoreInvariants.

(** X5. No event deletes an annotation, moves it to another bucket, or
    rewrites its id, document, version, category, severity, comment or
    creation time: whatever the events, an annotation of a bucket is still
    in that bucket afterwards with these fields as they were. *)
Theorem annotations_are_never_deleted (E : Env) (doc : Document)
    (trim : string → string) (actions : list Action) (st : State) (w : World)
    (v : string) (a : Annotation) :
  a ∈ bucket (s_annotationsByVersion st) v →
  ∃ a', a' ∈ bucket (s_annotationsByVersion (run E doc trim actions st w).1) v
        ∧ same_identity a a'.
Proof.
  revert st w a. induction actions as [|action rest IH]; intros st w a Ha.
  { exists a. split; [done|]. by repeat split. }
  cbn [run]. unfold mbind, M_bind.
  destruct (step_keeps E doc trim action st w v a Ha) as (a1 & Ha1 & Hrel).
  destruct (step E doc trim action st w) as [st1 w1]. cbn [fst] in Ha1.
  destruct (IH st1 w1 a1 Ha1) as (a' & Ha' & Hid).
  exists a'. split; [done|].
  eapply same_identity_trans; [|done]. by eapply updated_same_identity.
Qed.

(** X6. In every store reached from the mounted one by the handlers of
    [Action] (selecting text, the form and its fields, create, resolve or
    reopen, assign, clicking a highlight, selecting an issue, showing a
    tab, starting, cancelling and confirming a remap, switching version,
    the role selector and the palette's mode commands, carry-over, Escape
    and Cancel), an annotation filed under a version carries that
    version's id and the id of the document under review. Importing a file
    is not one of these events: it stores what the file holds. *)
Theorem sessions_file_annotations_correctly (E : Env) (doc : Document)
    (trim : string → string) (initialVersionId : string)
    (actions : list Action) (w0 : World) :
  filed_correctly doc (session E doc trim initialVersionId actions w0).1.
Proof.
  unfold session, mbind, M_bind.
  destruct (initialState E initialVersionId w0) as [st1 w1] eqn:Hinit.
  assert (filed_correctly doc st1) as Hok.
  { unfold initialState in Hinit. revert Hinit. run_M. intros [= <- <-].
    intros v l a. cbn [s_annotationsByVersion]. by rewrite lookup_empty. }
  clear Hinit. revert st1 w1 Hok.
  induction actions as [|action rest IH]; intros st w Hok; [done|].
  cbn [run]. unfold mbind, M_bind.
  pose proof (step_filed E doc trim action st w Hok) as Hstep.
  destruct (step E doc trim action st w) as [st1 w1]. by apply IH.
Qed.

(** X7. In every store reached from the mounted one by the handlers of
    [Action] (selecting text, the form and its fields, create, resolve or
    reopen, assign, clicking a highlight, selecting an issue, showing a
    tab, starting, cancelling and confirming a remap, switching version,
    the role selector and the palette's mode commands, carry-over, Escape
    and Cancel; importing a file is not one of them), when the drafts
    of the mouse-up events are what the selection extractor returns,
    every TextRange anchor stored is a non-empty range: its start is
    strictly before its end. *)
Theorem stored_ranges_are_not_empty (E : Env) (doc : Document)
    (trim : string → string) (initialVersionId : string)
    (actions : list Action) (w0 : World) (v : string) (a : Annotation) :
  Forall (reads_selection trim) actions →
  a ∈ bucket (s_annotationsByVersion
                (session E doc trim initialVersionId actions w0).1) v →
  proper_anchor a.
Proof.
  intros Hreads. unfold session, mbind, M_bind.
  destruct (initialState E initialVersionId w0) as [st1 w1] eqn:Hinit.
  assert ((∀ d, s_selectionDraft st1 = Some d → (startLocal d < endLocal d)%Z) ∧
          (∀ v a, a ∈ bucket (s_annotationsByVersion st1) v → proper_anchor a))
    as Hok.
  { unfold initialState in Hinit. revert Hinit. run_M. intros [= <- <-].
    split; [done|]. intros v' a'. unfold bucket.
    cbn [s_annotationsByVersion]. rewrite lookup_empty.
    by intros ?%elem_of_nil. }
  clear Hinit. revert st1 w1 Hok.
  induction Hreads as [|action rest Hread Hrest IH]; intros st w [Hd Hb].
  { apply Hb. }
  cbn [run]. unfold mbind, M_bind.
  pose proof (step_proper E doc trim action st w Hread Hd Hb) as Hstep.
  destruct (step E doc trim action st w) as [st1 w1]. by apply IH.
Qed.

Section LogFacts.
Context (E : Env) (doc : Document) (trim : string → string).
Implicit Types (a : Annotation) (l : list Annotation) (w : World) (st : State).

Lemma step_log action st w :
  let st' := (step E doc trim action st w).1 in
  (s_activity st' = s_activity st ∧
   s_annotationsByVersion st' = s_annotationsByVersion st)
  ∨ ∃ item, s_activity st' = item :: s_activity st ∧ logs action (ev item).
Proof.
  destruct (step_cases E doc trim action st w)
    as [(st' & -> & Habv & Hact & _)
       |[(next & -> & ->)
       |[(draft & -> & _ & _ & ->)
       |[(i & ann & -> & _ & _ & _ & Hrun)
       |[(i & u & ann & -> & _ & _ & Hrun)
       |[(target & draft & ann & -> & _ & _ & _ & _ & _ & Hrun)
       |(prevId & -> & _ & _ & _ & _ & Hrun)]]]]]];
    cbv zeta in *; try rewrite Hrun; cbn [fst]; read_cells;
    [by left|right; eexists; (split; [done|]); cbn [ev logs]..]; try done.
  by destruct (decide _).
Qed.

Lemma step_viewer action st w :
  isReadOnly st = true →
  (∀ m, action ≠ SwitchMode m ∧ action ≠ SetMode m) →
  let st' := (step E doc trim action st w).1 in
  s_annotationsByVersion st' = s_annotationsByVersion st ∧
  isReadOnly st' = true ∧
  (s_selectionDraft st' = s_selectionDraft st ∨ s_selectionDraft st' = None).
Proof.
  intros Hro Hmode.
  destruct (step_cases E doc trim action st w)
    as [(st' & -> & Habv & _ & _ & Hm & Hd)
       |[(next & -> & ->)
       |[(draft & -> & ? & _)
       |[(i & ann & -> & ? & _)
       |[(i & u & ann & -> & ? & _)
       |[(target & draft & ann & -> & ? & _)
       |(prevId & -> & ? & _)]]]]]];
    cbv zeta in *; try congruence; cbn [fst].
  - split; [done|]. split.
    + destruct Hm as [Hm|[m [->| ->]]];
        [|by destruct (Hmode m) as [? _]|by destruct (Hmode m) as [_ ?]].
      unfold isReadOnly in *. by rewrite Hm.
    + destruct Hd as [?|[?|[_ ?]]]; [by left|by right|congruence].
  - unfold isReadOnly in *. read_cells. split; [done|]. split; [done|]. by right.
Qed.
End LogFacts.

(** X8. Along any run of the handlers of [Action] (selecting text, the form
    and its fields, create, resolve or reopen, assign, clicking a
    highlight, selecting an issue, showing a tab, starting, cancelling and
    confirming a remap, switching version, the role selector and the
    palette's mode commands, carry-over, Escape and Cancel; importing a
    file, which replaces the log, is not one of them) the log only grows
    at its head: the records it held stay in place, at most one record is
    added per event, and each added record is of the kind that belongs to
    one of the events of the run (created, resolved or reopened with the
    toggled id, assignee changed with the id and the new assignee,
    remapped, carried over, version switched to the chosen version). And
    no bucket changes without a record: when nothing was added, all
    buckets are as they were. *)
Theorem every_change_is_logged (E : Env) (doc : Document)
    (trim : string → string) (actions : list Action) (st : State) (w : World) :
  let st' := (run E doc trim actions st w).1 in
  ∃ items,
    s_activity st' = items ++ s_activity st ∧
    length items ≤ length actions ∧
    Forall (λ item, Exists (λ action, logs action (ev item)) actions) items ∧
    (items = [] → s_annotationsByVersion st' = s_annotationsByVersion st).
Proof.
  cbv zeta. revert st w. induction actions as [|action rest IH]; intros st w.
  { exists []. split; [done|]. split; [done|]. split; [constructor|done]. }
  cbn [run]. unfold mbind, M_bind.
  pose proof (step_log E doc trim action st w) as Hstep.
  destruct (step E doc trim action st w) as [st1 w1]. cbn [fst] in Hstep.
  destruct (IH st1 w1) as (items & -> & Hlen & Hall & Hsame).
  assert (Forall (λ item, Exists (λ action, logs action (ev item))
                            (action :: rest)) items) as Hall'.
  { eapply Forall_impl; [exact Hall|]. intros item Hex. by apply Exists_cons_tl. }
  destruct Hstep as [[-> Habv]|(item & -> & Hlogs)].
  - exists items. split; [done|]. split; [cbn [length]; lia|].
    split; [done|]. intros Hnil. rewrite (Hsame Hnil). exact Habv.
  - exists (items ++ [item]). split; [by rewrite <- app_assoc|]. split.
    + rewrite length_app. cbn [length]. lia.
    + split; [|by destruct items].
      apply Forall_app. split; [done|]. constructor; [|done].
      by apply Exists_cons_hd.
Qed.

(** X9. In viewer mode, as long as the mode is not set (by the role
    selector, a mode command of the palette or the query string), none
    of the other handlers of [Action] (selecting text, the form and its
    fields, create, resolve or reopen, assign, clicking a highlight,
    selecting an issue, showing a tab, starting, cancelling and confirming
    a remap, switching version, carry-over, Escape and Cancel) changes any
    bucket, the mode stays viewer, and no selection is captured: the draft
    is left as it was or cleared. Importing a file is not one of these
    events: it is not guarded by the mode. *)
Theorem viewer_mode_is_read_only (E : Env) (doc : Document)
    (trim : string → string) (actions : list Action) (st : State) (w : World) :
  isReadOnly st = true →
  Forall (λ action, ∀ m, action ≠ SwitchMode m ∧ action ≠ SetMode m) actions →
  let st' := (run E doc trim actions st w).1 in
  s_annotationsByVersion st' = s_annotationsByVersion st ∧
  isReadOnly st' = true ∧
  (s_selectionDraft st' = s_selectionDraft st ∨ s_selectionDraft st' = None).
Proof.
  intros Hro Hall. revert st w Hro.
  induction Hall as [|action rest Hact Hrest IH]; intros st w Hro.
  { split; [done|]. split; [done|by left]. }
  cbn [run]. unfold mbind, M_bind.
  pose proof (step_viewer E doc trim action st w Hro Hact) as Hstep.
  destruct (step E doc trim action st w) as [st1 w1]. cbn [fst] in Hstep.
  destruct Hstep as (Habv & Hro1 & Hd).
  destruct (IH st1 w1 Hro1) as (Habv' & Hro' & Hd').
  split; [congruence|]. split; [done|].
  destruct Hd as [Hd|Hd], Hd' as [Hd'|Hd']; rewrite ?Hd', ?Hd; auto.
Qed.

(** ** Handlers composed *)

Section HandlerFacts.
Context (E : Env) (doc : Document) (trim : string → string).
Implicit Types (a ann : Annotation) (l : list Annotation) (w : World)
  (st : State).

Lemma toggleResolved_noop i st w ann :
  findById i (currentAnnotations st) = Some ann →
  isReadOnly st = true ∨ status ann = NeedsRemap →
  toggleResolved E i st w = (st, w).
Proof.
  intros Hfind Hwhy. unfold toggleResolved. rewrite Hfind.
  destruct (isReadOnly st); [done|]. destruct Hwhy as [?|Hst]; [done|].
  by rewrite decide_True.
Qed.

Lemma findById_toggled i next k l ann :
  findById i l = Some ann →
  ∃ j, findById i (stamped E (λ a, bool_decide (id a = i)) (withStatus next) k l)
       = Some (withStatus next (nowAt E j) ann).
Proof.
  intros Hfind.
  destruct (findById_stamped E i (λ a, bool_decide (id a = i))
              (withStatus next) k l ann (λ _ _, eq_refl) Hfind)
    as (ann' & Hfind' & Hann').
  apply findById_Some in Hfind as [_ Hid].
  rewrite bool_decide_eq_true_2 in Hann' by done.
  destruct Hann' as (j & _ & ->). by exists j.
Qed.

Lemma filter_keeps_all {A} (P : A → Prop) `{∀ x, Decision (P x)} (l : list A) :
  Forall P l → filter P l = l.
Proof.
  induction 1 as [|x l Hx Hl IH]; [done|].
  by rewrite filter_cons_True, IH.
Qed.

Lemma omap_highlight_ids sectionId l :
  h_id <$> omap (highlightOf sectionId) l `sublist_of` id <$> l.
Proof.
  induction l as [|a l IH]; [done|]. cbn [omap list_omap fmap list_fmap].
  unfold highlightOf at 1. destruct (anchor a) as [s b e|r].
  - case_bool_decide; [|by apply sublist_cons].
    cbn [fmap list_fmap h_id]. by apply sublist_skip.
  - by apply sublist_cons.
Qed.
End HandlerFacts.

(** X10. Toggling the same annotation twice gives it back the status it had:
    Open stays Open and Resolved stays Resolved after two toggles, and a
    NeedsRemap annotation is not touched at all. Only [updatedAt] may
    differ from the annotation before. *)
Theorem toggling_twice_restores_the_status (E : Env) (doc : Document)
    (trim : string → string) (i : string) (st : State) (w : World)
    (ann : Annotation) :
  findById i (currentAnnotations st) = Some ann →
  ∃ now,
    findById i
      (currentAnnotations
         (run E doc trim [ToggleResolved i; ToggleResolved i] st w).1)
    = Some (withStatus (status ann) now ann).
Proof.
  intros Hfind. cbn [run step]. unfold mbind, M_bind, mret, M_ret.
  destruct (isReadOnly st) eqn:Hro.
  { rewrite !(toggleResolved_noop E i st w ann) by auto. cbn [fst].
    exists (updatedAt ann). rewrite Hfind. by destruct ann. }
  destruct (decide (status ann = NeedsRemap)) as [Hst|Hst].
  { rewrite !(toggleResolved_noop E i st w ann) by auto. cbn [fst].
    exists (updatedAt ann). rewrite Hfind. by destruct ann. }
  pose proof (toggleResolved_run E i st w ann Hro Hfind Hst) as H1.
  cbv zeta in H1.
  set (next := if decide (status ann = Resolved) then Open else Resolved) in *.
  destruct (toggleResolved E i st w) as [st1 w1]. injection H1 as -> ->.
  match goal with
  | |- context [toggleResolved E i ?s ?w'] => set (st1 := s); set (w1 := w')
  end.
  assert (currentAnnotations st1
          = stamped E (λ a, bool_decide (id a = i)) (withStatus next)
              (clock w) (currentAnnotations st)) as Hcur1
    by apply currentAnnotations_updated.
  destruct (findById_toggled E i next (clock w) _ ann Hfind) as (j1 & Hfind1).
  rewrite <- Hcur1 in Hfind1.
  assert (isReadOnly st1 = false) as Hro1.
  { unfold isReadOnly in *. subst st1. read_cells. exact Hro. }
  assert (status (withStatus next (nowAt E j1) ann) ≠ NeedsRemap) as Hst1.
  { cbn [status withStatus]. unfold next.
    by destruct (decide (status ann = Resolved)). }
  pose proof (toggleResolved_run E i st1 w1 _ Hro1 Hfind1 Hst1) as H2.
  cbv zeta in H2. rewrite H2. cbn [fst].
  rewrite currentAnnotations_updated.
  destruct (findById_toggled E i
              (if decide (status (withStatus next (nowAt E j1) ann) = Resolved)
               then Open else Resolved) (clock w1) _ _ Hfind1) as (j2 & ->).
  exists (nowAt E j2). f_equal. unfold withStatus. cbn. f_equal.
  subst next. destruct (status ann); try done.
Qed.

(** X11. Creating an annotation from a draft, in editor mode and with a
    generated id that is not empty, puts the new annotation first in the
    current bucket, selects it, shows the Issues tab, clears the draft and
    closes the form; and the viewer highlights the draft's range, as Open,
    in the paragraphs of the draft's section. *)
Theorem created_annotation_is_selected_and_highlighted (E : Env)
    (doc : Document) (trim : string → string) (st : State) (w : World)
    (draft : SelectionDraft) :
  isReadOnly st = false →
  s_selectionDraft st = Some draft →
  genIdAt E "a" (draws w) ≠ "" →
  let st' := (createAnnotation E doc trim st w).1 in
  ∃ a, currentAnnotations st' = a :: currentAnnotations st ∧
       selectedAnnotation st' = Some a ∧
       id a = genIdAt E "a" (draws w) ∧
       s_activeTab st' = Issues ∧
       s_selectionDraft st' = None ∧
       s_showModal st' = false ∧
       mkHighlight (id a) (startLocal draft) (endLocal draft) Open
         ∈ paragraphHighlights (dr_sectionId draft) st'.
Proof.
  intros Hro Hdraft Hid.
  rewrite (createAnnotation_run E doc trim st w draft Hro Hdraft).
  cbv zeta. cbn [fst]. eexists.
  assert (∀ item i a (s : State),
            currentAnnotations
              (clearSelectionUI
                 (setActiveTab Issues
                    (setSelectedAnnotationId i
                       (addActivity item
                          (setAnnotationsByVersion
                             (λ prev, <[s_versionId s :=
                                          a :: bucket prev (s_versionId s)]>
                                        prev) s)))))
            = a :: currentAnnotations s) as Hcur.
  { intros. unfold currentAnnotations. read_cells. apply bucket_insert_eq. }
  split; [apply Hcur|].
  split.
  { unfold selectedAnnotation. rewrite Hcur. read_cells.
    unfold truthy. rewrite bool_decide_eq_false_2 by done.
    cbn [negb mbind option_bind]. unfold findById. cbn [find id].
    by rewrite bool_decide_eq_true_2. }
  split; [done|]. split; [done|]. split; [done|]. split; [done|].
  unfold paragraphHighlights. rewrite Hcur. cbn [omap list_omap].
  unfold highlightOf at 1. cbn [anchor draftAnchor id status].
  rewrite bool_decide_eq_true_2 by done. apply elem_of_cons. by left.
Qed.

(** X12. In every store reached from the mounted one by the handlers of
    [Action] (selecting text, the form and its fields, create, resolve or
    reopen, assign, clicking a highlight, selecting an issue, showing a
    tab, starting, cancelling and confirming a remap, switching version,
    the role selector and the palette's mode commands, carry-over, Escape
    and Cancel; importing a file is not one of them), with a
    generator that never repeats, the highlights handed to the renderer
    for a section carry distinct ids, and none of them has the status
    NeedsRemap. *)
Theorem reachable_highlights_are_sound (E : Env) (doc : Document)
    (trim : string → string) (initialVersionId : string)
    (actions : list Action) (w0 : World) (sectionId : string) :
  never_repeats E →
  let hs := paragraphHighlights sectionId
              (session E doc trim initialVersionId actions w0).1 in
  NoDup (h_id <$> hs) ∧
  Forall (λ h, h_status h ≠ NeedsRemap) hs.
Proof.
  intros Hfresh hs. subst hs. unfold session, mbind, M_bind.
  destruct (initialState E initialVersionId w0) as [st1 w1] eqn:Hinit.
  assert (buckets_ok E (draws w1) (s_annotationsByVersion st1)) as Hok.
  { unfold initialState in Hinit. revert Hinit. run_M. intros [= <- <-].
    intros v l. cbn [s_annotationsByVersion]. by rewrite lookup_empty. }
  pose proof (run_ok E doc trim Hfresh actions st1 w1 Hok) as Hrun.
  destruct (run E doc trim actions st1 w1) as [st2 w2]. cbn [fst snd] in *.
  destruct (buckets_ok_bucket E _ _ (s_versionId st2) Hrun)
    as (Hinv & Hnd & _).
  fold (currentAnnotations st2) in Hinv, Hnd.
  assert (NoDup (h_id <$> paragraphHighlights sectionId st2)) as Hids.
  { eapply sublist_NoDup; [exact Hnd|]. apply omap_highlight_ids. }
  split; [done|].
  apply Forall_forall. intros h (a & Ha & Hh)%list_elem_of_omap.
  rewrite Forall_forall in Hinv. specialize (Hinv a Ha).
  unfold highlightOf in Hh. unfold anchor_matches_status in Hinv.
  destruct (anchor a) as [s b e|r]; [|done].
  case_bool_decide; [|done]. injection Hh as <-. cbn [h_status].
  intros Hst. apply Hinv in Hst. done.
Qed.


(** X14. Changing the assignee does nothing in viewer mode or when no
    annotation of the current version has the id. Otherwise, in editor
    mode, the annotation found for the id afterwards has the new assignee
    (also when it is the one it had), an [updatedAt] read from the clock
    during the call, and every other field as before; every annotation of
    the current bucket with that id is rewritten in this way; the other
    annotations and the other buckets are kept; and one assignee-changed
    record, with the quote of the annotation found, goes to the head of
    the log. *)
Theorem changeAssignee_contract (E : Env) (i : string)
    (toUserId : option string) (st : State) (w : World) :
  (isReadOnly st = true ∨ findById i (currentAnnotations st) = None →
   changeAssignee E i toUserId st w = (st, w)) ∧
  ∀ ann,
    isReadOnly st = false →
    findById i (currentAnnotations st) = Some ann →
    let st' := (changeAssignee E i toUserId st w).1 in
    let w' := (changeAssignee E i toUserId st w).2 in
    (∃ k, clock w ≤ k < clock w' ∧
          findById i (currentAnnotations st')
          = Some {| id := id ann; docId := docId ann;
                    versionId := versionId ann; quote := quote ann;
                    category := category ann; severity := severity ann;
                    status := status ann; assigneeId := toUserId;
                    comment := comment ann; anchor := anchor ann;
                    createdAt := createdAt ann; updatedAt := nowAt E k |}) ∧
    Forall2 (λ a a', if bool_decide (id a = i)
                     then ∃ k, clock w ≤ k < clock w' ∧
                               a' = {| id := id a; docId := docId a;
                                       versionId := versionId a; quote := quote a;
                                       category := category a; severity := severity a;
                                       status := status a; assigneeId := toUserId;
                                       comment := comment a; anchor := anchor a;
                                       createdAt := createdAt a; updatedAt := nowAt E k |}
                     else a' = a)
      (currentAnnotations st) (currentAnnotations st') ∧
    (∀ v, v ≠ s_versionId st →
          bucket (s_annotationsByVersion st') v
          = bucket (s_annotationsByVersion st) v) ∧
    ∃ item, s_activity st' = item :: s_activity st ∧
            ev item = ASSIGNEE_CHANGED i (quote ann) toUserId.
Proof.
  split.
  { intros [Hro|Hnone]; unfold changeAssignee.
    - by rewrite Hro.
    - rewrite Hnone. by destruct (isReadOnly st). }
  intros ann Hro Hfind.
  rewrite (changeAssignee_run E i toUserId st w ann Hro Hfind).
  cbv zeta. cbn [fst snd clock]. rewrite currentAnnotations_updated.
  split; [|split; [|split]].
  - destruct (findById_stamped E i (λ a, bool_decide (id a = i))
                (withAssignee toUserId) (clock w) _ ann (λ _ _, eq_refl) Hfind)
      as (ann' & Hfind' & Hann').
    apply findById_Some in Hfind as [_ Hid].
    rewrite bool_decide_eq_true_2 in Hann' by done.
    destruct Hann' as (j & Hj & ->). exists j. split; [lia|done].
  - eapply Forall2_impl; [apply stamped_Forall2|].
    intros a a'. cbv beta. destruct (bool_decide (id a = i)); [|done].
    intros (j & Hj & ->). exists j. split; [lia|done].
  - intros v Hv. read_cells. rewrite bucket_insert. by case_decide.
  - eexists. split; [by read_cells|done].
Qed.

(** ** The state mirrored in the URL *)

Section UrlFacts.
Implicit Types (k v : string) (ps : SearchParams).

Lemma params_get_cons k' k0 v0 ps :
  params_get k' ((k0, v0) :: ps)
  = if decide (k0 = k') then Some v0 else params_get k' ps.
Proof.
  unfold params_get. cbn [find fst]. case_decide.
  - by rewrite bool_decide_eq_true_2.
  - by rewrite bool_decide_eq_false_2.
Qed.

Lemma params_get_delete k k' ps :
  params_get k' (params_delete k ps)
  = if decide (k' = k) then None else params_get k' ps.
Proof.
  induction ps as [|[k0 v0] ps IH].
  { by case_decide. }
  unfold params_delete, SearchParams in *. rewrite params_get_cons.
  destruct (decide (k0 = k)) as [->|Hne].
  - rewrite filter_cons_False by (cbn; auto). rewrite IH.
    case_decide as Hk; [done|]. by rewrite decide_False by congruence.
  - rewrite filter_cons_True by done. rewrite params_get_cons, IH.
    destruct (decide (k0 = k')) as [<-|?]; [|done].
    by rewrite decide_False.
Qed.

Lemma params_get_set k k' v ps :
  params_get k' (params_set k v ps)
  = if decide (k' = k) then Some v else params_get k' ps.
Proof.
  induction ps as [|[k0 v0] ps IH]; cbn [params_set].
  { rewrite params_get_cons. destruct (decide (k = k')) as [->|?].
    - by rewrite decide_True.
    - by rewrite decide_False by congruence. }
  case_bool_decide as Hk0.
  - subst k0. rewrite !params_get_cons, params_get_delete.
    destruct (decide (k = k')) as [->|?].
    + by rewrite decide_True.
    + by rewrite !decide_False by congruence.
  - rewrite !params_get_cons, IH.
    destruct (decide (k0 = k')) as [<-|?]; [|done].
    by rewrite decide_False by congruence.
Qed.

Lemma params_get_update k k' f ps :
  k' ≠ k → params_get k' (updateParam k f ps) = params_get k' ps.
Proof.
  intros Hne. destruct f as [| |s]; cbn [updateParam]; [done| |].
  - rewrite params_get_delete. by rewrite decide_False.
  - case_bool_decide; [done|]. rewrite params_get_set. by rewrite decide_False.
Qed.

Lemma toTabKey_known t :
  bool_decide (toTabKey t = "issues") || bool_decide (toTabKey t = "activity")
  = true ∧ fromTabKey (toTabKey t) = t.
Proof. by destruct t. Qed.

Lemma readUrl_cells (loc : Location) (st0 : State) :
  let st' := readUrl loc st0 in
  s_activeTab st'
  = match params_get "tab" (search loc) with
    | Some t => if bool_decide (t = "issues") || bool_decide (t = "activity")
                then fromTabKey t else s_activeTab st0
    | None => s_activeTab st0
    end ∧
  s_selectedAnnotationId st'
  = (if truthy (params_get "issue" (search loc))
     then params_get "issue" (search loc) else s_selectedAnnotationId st0) ∧
  s_mode st'
  = match params_get "mode" (search loc) with
    | Some s => if bool_decide (s = "editor") then editor
                else if bool_decide (s = "viewer") then viewer
                else s_mode st0
    | None => s_mode st0
    end ∧
  s_versionId st' = s_versionId st0 ∧
  s_annotationsByVersion st' = s_annotationsByVersion st0 ∧
  s_activity st' = s_activity st0.
Proof.
  unfold readUrl.
  destruct (params_get "tab" (search loc)) as [t|];
    destruct (truthy (params_get "issue" (search loc)));
    destruct (params_get "mode" (search loc)) as [s|];
    try destruct (bool_decide (t = "issues") || bool_decide (t = "activity"));
    try destruct (bool_decide (s = "editor"));
    try destruct (bool_decide (s = "viewer")); done.
Qed.

Lemma share_link_params (st : State) (loc : Location) :
  let ps := search (copyShareLink st loc) in
  params_get "tab" ps = Some (toTabKey (s_activeTab st)) ∧
  params_get "mode" ps = Some (modeName (s_mode st)) ∧
  params_get "issue" ps
  = if truthy (s_selectedAnnotationId st) then s_selectedAnnotationId st
    else None.
Proof.
  unfold copyShareLink. cbv zeta. cbn [search].
  destruct (s_selectedAnnotationId st) as [i|];
    [destruct (truthy (Some i))|cbn [truthy]];
    repeat first [rewrite params_get_set | rewrite params_get_delete
                 | rewrite decide_True by done | rewrite decide_False by done];
    done.
Qed.

Lemma sync_params (st : State) (loc : Location) :
  let ps := search (syncUrl st loc) in
  params_get "tab" ps = Some (toTabKey (s_activeTab st)) ∧
  params_get "mode" ps = Some (modeName (s_mode st)) ∧
  match s_selectedAnnotationId st with
  | None => params_get "issue" ps = None
  | Some i => i ≠ "" → params_get "issue" ps = Some i
  end.
Proof.
  unfold syncUrl, updateUrl. cbv zeta. cbn [search updateParam].
  rewrite !(bool_decide_eq_false_2 (modeName (s_mode st) = ""))
    by (by destruct (s_mode st)).
  rewrite !(bool_decide_eq_false_2 (toTabKey (s_activeTab st) = ""))
    by (by destruct (s_activeTab st)).
  destruct (s_selectedAnnotationId st) as [i|]; cbn [updateParam].
  - case_bool_decide;
      repeat first [rewrite params_get_set
                   | rewrite decide_True by done | rewrite decide_False by done];
      done.
  - repeat first [rewrite params_get_set | rewrite params_get_delete
                 | rewrite decide_True by done | rewrite decide_False by done].
    done.
Qed.
End UrlFacts.

(** X15. Opening the link that "Copy share link" writes restores the tab and
    the mode of the store it was copied from, and its selected annotation
    when there is one; with no selection, the link carries none and the
    opening store keeps its own. The link does not carry the version:
    version, buckets and log are those of the opening store. *)
Theorem share_link_round_trip (st st0 : State) (loc : Location) :
  let st' := readUrl (copyShareLink st loc) st0 in
  s_activeTab st' = s_activeTab st ∧
  s_mode st' = s_mode st ∧
  s_selectedAnnotationId st'
  = (if truthy (s_selectedAnnotationId st) then s_selectedAnnotationId st
     else s_selectedAnnotationId st0) ∧
  s_versionId st' = s_versionId st0 ∧
  s_annotationsByVersion st' = s_annotationsByVersion st0 ∧
  s_activity st' = s_activity st0.
Proof.
  destruct (readUrl_cells (copyShareLink st loc) st0)
    as (Htab & Hsel & Hmode & Hv & Habv & Hact).
  destruct (share_link_params st loc) as (Hpt & Hpm & Hpi).
  cbv zeta in *. rewrite Htab, Hsel, Hmode, Hpt, Hpm, Hpi.
  destruct (toTabKey_known (s_activeTab st)) as [-> ->].
  split; [done|]. split; [by destruct (s_mode st)|].
  split; [|done].
  by destruct (truthy (s_selectedAnnotationId st)) eqn:Ht; rewrite ?Ht.
Qed.

(** X16. Reloading the page restores what the three URL effects wrote: the tab
    and the mode always, and the selected annotation when its id is not
    empty; with no selection the parameter is deleted and the mounting
    store keeps its own selection. *)
Theorem url_effects_round_trip (st st0 : State) (loc : Location) :
  let st' := readUrl (syncUrl st loc) st0 in
  s_activeTab st' = s_activeTab st ∧
  s_mode st' = s_mode st ∧
  match s_selectedAnnotationId st with
  | None => s_selectedAnnotationId st' = s_selectedAnnotationId st0
  | Some i => i ≠ "" → s_selectedAnnotationId st' = Some i
  end.
Proof.
  destruct (readUrl_cells (syncUrl st loc) st0)
    as (Htab & Hsel & Hmode & _).
  destruct (sync_params st loc) as (Hpt & Hpm & Hpi).
  cbv zeta in *. rewrite Htab, Hsel, Hmode, Hpt, Hpm.
  destruct (toTabKey_known (s_activeTab st)) as [-> ->].
  split; [done|]. split; [by destruct (s_mode st)|].
  destruct (s_selectedAnnotationId st) as [i|].
  - intros Hi. rewrite (Hpi Hi). unfold truthy.
    by rewrite bool_decide_eq_false_2.
  - by rewrite Hpi.
Qed.

(** X17. [updateUrl] keeps the path and touches no query parameter other than
    issue, tab and mode: any other parameter reads as before. *)
Theorem updateUrl_keeps_other_parameters (issue tab mode : UrlField)
    (loc : Location) (k : string) :
  k ≠ "issue" → k ≠ "tab" → k ≠ "mode" →
  pathname (updateUrl issue tab mode loc) = pathname loc ∧
  params_get k (search (updateUrl issue tab mode loc))
  = params_get k (search loc).
Proof.
  intros Hi Ht Hm. split; [done|]. unfold updateUrl. cbn [search].
  by rewrite !params_get_update.
Qed.

(** ** The activity tab *)

Section GroupFacts.
Context (formatDay : string → string).
Implicit Types (groups : list (string * list ActivityItem))
  (item : ActivityItem) (day : string).

Lemma group_push_keys day item groups :
  (group_push day item groups).*1
  = if decide (day ∈ groups.*1) then groups.*1 else groups.*1 ++ [day].
Proof.
  induction groups as [|[d items] rest IH]; cbn [group_push].
  { rewrite decide_False; [done|]. cbn. apply not_elem_of_nil. }
  case_bool_decide as Hd.
  - subst d. rewrite decide_True by (cbn; left). done.
  - cbn [fmap list_fmap fst]. rewrite IH.
    destruct (decide (day ∈ rest.*1)) as [Hin|Hnotin].
    + by rewrite decide_True by (by right).
    + rewrite decide_False; [done|].
      intros [?|?]%elem_of_cons; [congruence|done].
Qed.

Lemma group_push_elem day item groups d items :
  NoDup groups.*1 →
  (d, items) ∈ group_push day item groups →
  (d ≠ day ∧ (d, items) ∈ groups)
  ∨ (d = day ∧ ∃ old, items = old ++ [item] ∧
                       ((day, old) ∈ groups ∨ (old = [] ∧ day ∉ groups.*1))).
Proof.
  induction groups as [|[d0 it0] rest IH]; cbn [group_push].
  { intros _ [= -> ->]%list_elem_of_singleton. right. split; [done|].
    exists []. split; [done|]. right. split; [done|]. apply not_elem_of_nil. }
  cbn [fmap list_fmap fst]. intros [Hd0 Hnd]%NoDup_cons.
  case_bool_decide as Hday.
  - subst d0. intros [[= -> ->]|Hin]%elem_of_cons.
    + right. split; [done|]. exists it0. split; [done|]. left. by left.
    + left. split; [|by right]. intros ->. apply Hd0.
      by apply (list_elem_of_fmap_2 fst) in Hin.
  - intros [[= -> ->]|Hin]%elem_of_cons.
    + left. split; [done|]. by left.
    + destruct (IH Hnd Hin) as [[Hne Hrest]|[-> (old & -> & Hold)]].
      * left. split; [done|]. by right.
      * right. split; [done|]. exists old. split; [done|].
        destruct Hold as [Hold|[-> Hnotin]]; [left; by right|].
        right. split; [done|].
        intros [?|?]%elem_of_cons; [congruence|done].
Qed.

(** X18. The activity tab groups the log by day: each day heads exactly one
    group, in the order the days first appear in the log; a group is never
    empty and holds exactly the records of its day, in the order of the
    log; and every record of the log is in the group of its day. *)
Theorem activity_groups_partition_the_log (activity : list ActivityItem) :
  let groups := activityGrouped formatDay activity in
  NoDup groups.*1 ∧
  (∀ d items, (d, items) ∈ groups →
     items ≠ [] ∧
     items = filter (λ e, formatDay (ev_at e) = d) activity) ∧
  (∀ e, e ∈ activity → formatDay (ev_at e) ∈ groups.*1).
Proof.
  cbv zeta. unfold activityGrouped.
  induction activity as [|x l IH] using rev_ind.
  { cbn. split; [constructor|]. split; [|by intros ? ?%elem_of_nil].
    by intros ? ? ?%elem_of_nil. }
  rewrite foldl_app. cbn [foldl].
  set (g := foldl _ [] l) in *. destruct IH as (Hnd & Hgroups & Hdays).
  split; [|split].
  - rewrite group_push_keys. case_decide as Hin; [done|].
    apply NoDup_app. split; [done|]. split; [|apply NoDup_singleton].
    by intros d Hd ->%list_elem_of_singleton.
  - intros d items Hin. rewrite filter_app.
    apply group_push_elem in Hin as [[Hne Hin]|[-> (old & -> & Hold)]];
      [| |done].
    + destruct (Hgroups d items Hin) as [Hnil ->]. split; [done|].
      rewrite (filter_cons_False _ x) by (cbn; congruence).
      by rewrite filter_nil, app_nil_r.
    + split; [by destruct old|].
      rewrite filter_cons_True by done. rewrite filter_nil. f_equal.
      destruct Hold as [Hold|[-> Hnotin]].
      * by destruct (Hgroups _ _ Hold) as [_ <-].
      * destruct (filter _ l) as [|y rest] eqn:Hf; [done|].
        assert (y ∈ filter (λ e, formatDay (ev_at e) = formatDay (ev_at x)) l)
          as [Hy Hyl]%list_elem_of_filter by (rewrite Hf; by left).
        destruct Hnotin. rewrite <- Hy. by apply Hdays.
  - intros e [He|He]%elem_of_app; rewrite group_push_keys;
      case_decide as Hin.
    + by apply Hdays.
    + apply elem_of_app. left. by apply Hdays.
    + by apply list_elem_of_singleton in He as ->.
    + apply list_elem_of_singleton in He as ->.
      apply elem_of_app. right. by left.
Qed.
End GroupFacts.

(** ** Versions and the review page *)

Section VersionFacts.
Context (doc : Document).

Lemma nondecreasing_lookup {A} (f : A → Z) (l : list A) i j a b :
  nondecreasing_by f l → l !! i = Some a → l !! j = Some b → i ≤ j →
  (f a ≤ f b)%Z.
Proof.
  revert i j. induction l as [|x l IH]; intros i j Hl Hi Hj Hij; [done|].
  destruct Hl as [Hx Hl]. destruct i as [|i], j as [|j]; cbn in Hi, Hj.
  - injection Hi as ->. injection Hj as ->. lia.
  - injection Hi as ->. rewrite Forall_forall in Hx. apply Hx.
    by eapply list_elem_of_lookup_2.
  - lia.
  - eapply IH; [done|done|done|lia].
Qed.

Lemma sortedVersions_newest_first :
  nondecreasing_by (λ v, - versionNumber v)%Z (sortedVersions doc).
Proof.
  unfold sortedVersions. apply js_sort_nondecreasing. intros a b. lia.
Qed.

Lemma sortedVersions_elem v : v ∈ sortedVersions doc ↔ v ∈ versions doc.
Proof. unfold sortedVersions. by rewrite js_sort_perm. Qed.

Lemma latestVersionId_Some i :
  latestVersionId doc = Some i →
  ∃ latest, latest ∈ versions doc ∧ v_id latest = i ∧
            ∀ x, x ∈ versions doc →
                 (versionNumber x ≤ versionNumber latest)%Z.
Proof.
  unfold latestVersionId.
  destruct (sortedVersions doc !! 0) as [latest|] eqn:Hlatest.
  - intros [= <-]. exists latest. split; [|split; [done|]].
    + apply sortedVersions_elem. by eapply list_elem_of_lookup_2.
    + intros x [j Hj]%sortedVersions_elem%list_elem_of_lookup.
      pose proof (nondecreasing_lookup _ _ 0 j latest x
                    sortedVersions_newest_first Hlatest Hj ltac:(lia)).
      cbv beta in *. lia.
  - assert (length (sortedVersions doc) = length (versions doc)) as Hlen
      by (unfold sortedVersions; by rewrite js_sort_perm).
    apply lookup_ge_None in Hlatest.
    destruct (versions doc) as [|x l]; [done|]. cbn in Hlen. lia.
Qed.

Lemma contents_lookup {B} (g : string → B) (l : list DocumentVersion)
    (m : gmap string B) k :
  foldl (λ m v, <[v_id v := g (v_id v)]> m) m l !! k
  = if decide (k ∈ v_id <$> l) then Some (g k) else m !! k.
Proof.
  revert m. induction l as [|v l IH]; intros m; cbn [foldl].
  { rewrite decide_False; [done|]. cbn. apply not_elem_of_nil. }
  rewrite IH. cbn [fmap list_fmap].
  destruct (decide (k ∈ v_id <$> l)) as [Hin|Hnotin].
  - by rewrite decide_True by (by right).
  - destruct (decide (k = v_id v)) as [->|Hne].
    + rewrite lookup_insert_eq. by rewrite decide_True by (by left).
    + rewrite lookup_insert_ne by done. rewrite decide_False; [done|].
      by intros [?|?]%elem_of_cons.
Qed.
End VersionFacts.

(** X19. The previous version, when there is one, is the next older one: the
    current version and it are versions of the document, it is not newer
    than the current one, and no version of the document has a number
    strictly between theirs. *)
Theorem previous_version_is_the_next_older (doc : Document) (st : State)
    (prevId : string) :
  previousVersionId doc st = Some prevId →
  ∃ cur prev,
    cur ∈ versions doc ∧ prev ∈ versions doc ∧
    v_id cur = s_versionId st ∧ v_id prev = prevId ∧
    (versionNumber prev ≤ versionNumber cur)%Z ∧
    ∀ x, x ∈ versions doc →
         (versionNumber x ≤ versionNumber prev
          ∨ versionNumber cur ≤ versionNumber x)%Z.
Proof.
  unfold previousVersionId.
  destruct (Z.ltb_spec (currentVersionIndex doc st) 0) as [|Hge]; [done|].
  intros (prev & Hprev & ->)%fmap_Some. unfold currentVersionIndex in *.
  destruct (findIndex_found _ _ Hge) as (cur & Hcur & Hid).
  apply bool_decide_eq_true in Hid.
  set (i := findIndex _ _) in *.
  replace (Z.to_nat (i + 1)) with (S (Z.to_nat i)) in Hprev by lia.
  pose proof (sortedVersions_newest_first doc) as Hsorted.
  exists cur, prev. split; [|split; [|split; [done|split; [done|split]]]].
  - apply sortedVersions_elem. by eapply list_elem_of_lookup_2.
  - apply sortedVersions_elem. by eapply list_elem_of_lookup_2.
  - pose proof (nondecreasing_lookup _ _ _ _ _ _ Hsorted Hcur Hprev
                  ltac:(lia)). cbv beta in *. lia.
  - intros x [j Hj]%sortedVersions_elem%list_elem_of_lookup.
    destruct (decide (j ≤ Z.to_nat i)) as [Hle|Hgt].
    + right. pose proof (nondecreasing_lookup _ _ _ _ _ _ Hsorted Hj Hcur
                           Hle). cbv beta in *. lia.
    + left. pose proof (nondecreasing_lookup _ _ _ _ _ _ Hsorted Hprev Hj
                          ltac:(lia)). cbv beta in *. lia.
Qed.

(** X20. When the review page renders the review, it is for the seeded
    document with the requested id, opened on a version whose number no
    other version of the document exceeds and whose id is not empty, with
    the content the store holds for that version; and the contents handed
    to the client hold, for every version of the document, what the store
    has for it (nothing when the store has none). *)
Theorem review_page_opens_the_latest_version
    (seededDocuments : list Document)
    (store : gmap string (gmap string DocContent)) (i : string)
    (doc : Document) (initialVersionId : string) (content : DocContent)
    (contentsByVersionId : gmap string (option DocContent)) :
  ReviewPage seededDocuments store i
  = Review doc initialVersionId content contentsByVersionId →
  doc ∈ seededDocuments ∧ d_id doc = i ∧
  initialVersionId ≠ "" ∧
  (∃ latest, latest ∈ versions doc ∧ v_id latest = initialVersionId ∧
             ∀ x, x ∈ versions doc →
                  (versionNumber x ≤ versionNumber latest)%Z) ∧
  getDocContent store i initialVersionId = Some content ∧
  ∀ x, x ∈ versions doc →
       contentsByVersionId !! v_id x = Some (getDocContent store i (v_id x)).
Proof.
  unfold ReviewPage, getDocumentById.
  destruct (find _ seededDocuments) as [d|] eqn:Hfind; [|done].
  apply find_some in Hfind as [Hin Hid].
  apply bool_decide_eq_true in Hid. apply list_elem_of_In in Hin.
  destruct (latestVersionId d) as [v|] eqn:Hlatest; [|done].
  destruct (negb (truthy (Some v))) eqn:Htruthy; [done|].
  rewrite contents_lookup.
  destruct (decide (v ∈ v_id <$> versions d)) as [Hv|Hv];
    [|by rewrite lookup_empty].
  destruct (getDocContent store (d_id d) v) as [c|] eqn:Hcontent; [|done].
  intros [= <- <- <- <-]. subst i.
  split; [done|]. split; [done|]. split.
  { intros ->. done. }
  split; [by apply latestVersionId_Some|]. split; [done|].
  intros x Hx. rewrite contents_lookup.
  by rewrite decide_True by (by apply list_elem_of_fmap_2).
Qed.

(** ** The selection extractor and the keyboard *)

Section ExtractorFacts.
Context (trim : string → string) (finiteNumber : string → option Z).
Context (dom : Dom) (windowSelection : option DomSelection).

(** X21. A draft returned by the selection extractor comes from a selection
    that is not collapsed and lies in one paragraph: both ends of the range
    have the same closest paragraph, whose section id is the draft's and
    is not empty. Its quote is the trimmed text of the selection and is
    not empty; its offsets are the two offsets of the range in increasing
    order, and they differ. *)
Theorem selection_draft_is_well_formed (viewerRoot : DomNode)
    (d : SelectionDraft) :
  getSelectionDraft trim finiteNumber dom windowSelection viewerRoot = Some d →
  ∃ sel para,
    windowSelection = Some sel ∧
    rangeCount sel ≠ 0 ∧ isCollapsed sel = false ∧
    elementOf dom (startContainer (rangeAt0 sel)) ≫= closestPara dom
    = Some para ∧
    elementOf dom (endContainer (rangeAt0 sel)) ≫= closestPara dom
    = Some para ∧
    dataset_sectionId dom para = Some (dr_sectionId d) ∧
    dr_sectionId d ≠ "" ∧
    dr_quote d = trim (selectionText sel) ∧ dr_quote d ≠ "" ∧
    startLocal d = Z.min (startOffset (rangeAt0 sel)) (endOffset (rangeAt0 sel)) ∧
    endLocal d = Z.max (startOffset (rangeAt0 sel)) (endOffset (rangeAt0 sel)) ∧
    (startLocal d < endLocal d)%Z ∧
    rect d = boundingClientRect (rangeAt0 sel).
Proof.
  unfold getSelectionDraft.
  destruct windowSelection as [sel|]; [|done].
  case_bool_decide as Hcount; [done|].
  destruct (isCollapsed sel) eqn:Hcollapsed; [done|]. cbv zeta.
  destruct (_ && _); [done|].
  destruct (elementOf dom (commonAncestorContainer (rangeAt0 sel)))
    as [commonEl|]; [|done].
  destruct (negb (contains dom viewerRoot commonEl)); [done|].
  case_bool_decide as Hquote; [done|].
  destruct (elementOf dom (startContainer (rangeAt0 sel)) ≫= closestPara dom)
    as [sp|] eqn:Hsp; [|done].
  destruct (elementOf dom (endContainer (rangeAt0 sel)) ≫= closestPara dom)
    as [ep|] eqn:Hep; [|done].
  case_bool_decide as Hsame; [|done]. subst ep. cbn [negb].
  destruct (dataset_sectionId dom sp) as [sectionId|] eqn:Hsec; [|done].
  destruct (negb (truthy (Some sectionId))) eqn:Htruthy; [done|].
  destruct (dataset_paraIndex dom sp) as [paraIndexStr|]; [|done].
  destruct (negb (truthy (Some paraIndexStr))); [done|]. cbn [orb].
  destruct (finiteNumber paraIndexStr) as [paraIndex|]; [|done].
  destruct (Z.eqb_spec (startOffset (rangeAt0 sel)) (endOffset (rangeAt0 sel)))
    as [|Hne]; [done|].
  intros [= <-]. exists sel, sp. cbn [dr_sectionId dr_quote startLocal endLocal rect].
  repeat split; try done; try lia.
  intros ->. done.
Qed.
End ExtractorFacts.

(** X22. Moving the selection with the arrow keys never reads past the ends
    of the list of shown issues: it always returns, and either leaves the
    store as it is (off the Issues tab, or with nothing shown) or selects
    an issue of the shown list. Starting from the issue at the first
    place where the selected id is shown, or from the first issue when it
    is not shown, it lands [delta] places further, stopping at the ends. *)
Theorem moveIssueSelection_stays_in_the_list (trim toLowerCase : string → string)
    (f : Filters) (delta : Z) (st : State) :
  let shown := filteredAnnotations trim toLowerCase f st in
  (s_activeTab st ≠ Issues ∨ shown = [] →
   moveIssueSelection trim toLowerCase f delta st = Some st) ∧
  (s_activeTab st = Issues → shown ≠ [] →
   ∃ k a,
     (0 ≤ k < Z.of_nat (length shown))%Z ∧
     k = clamp (Z.max 0 (findIndex
                           (λ a, bool_decide (Some (id a)
                                              = s_selectedAnnotationId st))
                           shown) + delta)
               0 (Z.of_nat (length shown) - 1) ∧
     shown !! Z.to_nat k = Some a ∧
     moveIssueSelection trim toLowerCase f delta st
     = Some (setSelectedAnnotationId (Some (id a)) st)).
Proof.
  cbv zeta. unfold moveIssueSelection.
  set (shown := filteredAnnotations trim toLowerCase f st). split.
  - intros [Htab|Hnil].
    + by rewrite bool_decide_eq_false_2.
    + rewrite Hnil. by destruct (negb _).
  - intros Htab Hshown. rewrite bool_decide_eq_true_2 by done. cbn [negb].
    rewrite bool_decide_eq_false_2 by (by destruct shown).
    set (k := clamp _ 0 _).
    assert (0 ≤ k < Z.of_nat (length shown))%Z as Hk.
    { assert (0 < length shown) by (destruct shown; [done|cbn; lia]).
      unfold k, clamp. lia. }
    destruct (lookup_lt_is_Some_2 shown (Z.to_nat k) ltac:(lia)) as [a Ha].
    exists k, a. rewrite Ha. split; [exact Hk|]. by repeat split.
Qed.

(** ** The documents list *)

Section ListingFacts.
Context (trim toLowerCase : string → string).
Context (localeCompare : string → string → Z) (getTime : string → option Z).
Implicit Types (d : ListedDocument) (docs seeded : list ListedDocument).

Lemma sortDocs_perm docs sort :
  sortDocs localeCompare getTime docs sort ≡ₚ docs.
Proof.
  unfold sortDocs. destruct sort as [s|]; [|apply js_sort_perm].
  repeat case_bool_decide; apply js_sort_perm.
Qed.

Lemma sortDocs_issues docs :
  nondecreasing_by (λ d, - l_issueCount d)%Z
    (sortDocs localeCompare getTime docs (Some "issues_desc")).
Proof.
  unfold sortDocs. rewrite bool_decide_eq_true_2 by done.
  apply js_sort_nondecreasing. intros a b. lia.
Qed.

Lemma sortDocs_default docs sort (time : ListedDocument → Z) :
  sort ≠ Some "issues_desc" → sort ≠ Some "title_asc" →
  (∀ d, d ∈ docs → getTime (l_updatedAt d) = Some (time d)) →
  nondecreasing_by (λ d, - time d)%Z (sortDocs localeCompare getTime docs sort).
Proof.
  intros Hi Ht Htime.
  assert (nondecreasing_by (λ d, - time d)%Z
            (js_sort (byUpdatedDesc getTime) docs)) as Hsorted.
  { apply js_sort_nondecreasing_on. intros a b Ha Hb. unfold byUpdatedDesc.
    rewrite (Htime a Ha), (Htime b Hb). lia. }
  unfold sortDocs. destruct sort as [s|]; [|done].
  rewrite !bool_decide_eq_false_2 by congruence. done.
Qed.

Lemma docsQuery_empty sp :
  (∀ k, sp k = None) →
  docsQuery trim sp = mkQuery None (Some "All") (Some "All")
                        (Some "updated_desc").
Proof. intros Hsp. unfold docsQuery. by rewrite !Hsp. Qed.
End ListingFacts.

(** X23. The documents list holds exactly the seeded documents that match the
    search text, the tag and the status of the query, each as often as it
    is seeded: whatever the sort order asked for, sorting drops and
    repeats nothing. *)
Theorem getDocuments_returns_the_matches (trim toLowerCase : string → string)
    (localeCompare : string → string → Z) (getTime : string → option Z)
    (seeded : list ListedDocument) (query : DocsQuery) :
  getDocuments trim toLowerCase localeCompare getTime seeded query
  ≡ₚ filter (λ d, matchesQuery trim toLowerCase d (q_q query) = true
                  ∧ matchesTag d (q_tag query) = true
                  ∧ matchesStatus d (q_status query) = true) seeded.
Proof.
  unfold getDocuments. cbv zeta. rewrite sortDocs_perm.
  rewrite !list_filter_filter.
  erewrite list_filter_iff; [done|]. intros d. cbv beta. tauto.
Qed.

(** X24. With the sort "issues_desc" the list is ordered by issue count, most
    issues first. With any sort other than "issues_desc" and "title_asc",
    also an unknown one or none, and seeded documents whose update dates
    all parse, it is ordered by update time, latest first. *)
Theorem getDocuments_orders_the_list (trim toLowerCase : string → string)
    (localeCompare : string → string → Z) (getTime : string → option Z)
    (seeded : list ListedDocument) (query : DocsQuery)
    (time : ListedDocument → Z) :
  (q_sort query = Some "issues_desc" →
   nondecreasing_by (λ d, - l_issueCount d)%Z
     (getDocuments trim toLowerCase localeCompare getTime seeded query)) ∧
  (q_sort query ≠ Some "issues_desc" → q_sort query ≠ Some "title_asc" →
   (∀ d, d ∈ seeded → getTime (l_updatedAt d) = Some (time d)) →
   nondecreasing_by (λ d, - time d)%Z
     (getDocuments trim toLowerCase localeCompare getTime seeded query)).
Proof.
  unfold getDocuments. cbv zeta. split.
  - intros ->. apply sortDocs_issues.
  - intros Hi Ht Htime. apply sortDocs_default; [done|done|].
    intros d Hd. apply Htime.
    apply list_elem_of_filter in Hd as [_ Hd].
    apply list_elem_of_filter in Hd as [_ Hd].
    by apply list_elem_of_filter in Hd as [_ Hd].
Qed.

(** X25. Requested without search parameters, the documents page builds the
    query with no search text, the tag "All", the status "All" and the
    sort "updated_desc", lists what [getDocuments] returns for that query,
    and so lists every seeded document, once each. *)
Theorem docs_page_without_parameters_lists_everything
    (trim toLowerCase : string → string)
    (localeCompare : string → string → Z) (getTime : string → option Z)
    (seeded : list ListedDocument)
    (sp : string → option (string + list string)) :
  (∀ k, sp k = None) →
  docsQuery trim sp
  = {| q_q := None; q_tag := Some "All"; q_status := Some "All";
       q_sort := Some "updated_desc" |} ∧
  DocsPage trim toLowerCase localeCompare getTime seeded sp
  = getDocuments trim toLowerCase localeCompare getTime seeded
      {| q_q := None; q_tag := Some "All"; q_status := Some "All";
         q_sort := Some "updated_desc" |} ∧
  DocsPage trim toLowerCase localeCompare getTime seeded sp ≡ₚ seeded.
Proof.
  intros Hsp. split; [by apply docsQuery_empty|].
  split; [unfold DocsPage; by rewrite (docsQuery_empty trim sp Hsp)|].
  unfold DocsPage, getDocuments. cbv zeta.
  rewrite sortDocs_perm, (docsQuery_empty trim sp Hsp).
  cbn [q_q q_tag q_status].
  rewrite !filter_keeps_all; [done|apply Forall_forall; by intros d _..].
Qed.

(** X26. The toolbar's [setParam], for a key other than "page": in the URL it
    pushes, the key reads as the chosen value, or is absent when the
    value is empty or "All"; "page" is absent; every other parameter reads
    as before. *)
Theorem toolbar_setParam_contract (key value : string) (sp : SearchParams)
    (k : string) :
  key ≠ "page" →
  params_get key (setParam key value sp)
  = (if bool_decide (value = "") || bool_decide (value = "All")
     then None else Some value) ∧
  params_get "page" (setParam key value sp) = None ∧
  (k ≠ key → k ≠ "page" →
   params_get k (setParam key value sp) = params_get k sp).
Proof.
  intros Hkey. unfold setParam.
  destruct (bool_decide (value = "") || bool_decide (value = "All"));
    rewrite !params_get_delete, ?params_get_set;
    rewrite (decide_False (P := key = "page")) by done;
    rewrite (decide_True (P := key = key)) by done;
    rewrite (decide_True (P := "page" = "page")) by done;
    (split; [done|]); (split; [done|]); intros Hk Hpage;
    by rewrite ?params_get_delete, ?params_get_set, !decide_False by done.
Qed.

(** X27. The toolbar's search: in the URL it pushes, "q" reads as the trimmed
    text, or is absent when nothing is left of it after trimming; "page"
    is absent; every other parameter reads as before. *)
Theorem toolbar_applySearch_contract (trim : string → string) (q : string)
    (sp : SearchParams) (k : string) :
  params_get "q" (applySearch trim q sp)
  = (if bool_decide (trim q = "") then None else Some (trim q)) ∧
  params_get "page" (applySearch trim q sp) = None ∧
  (k ≠ "q" → k ≠ "page" →
   params_get k (applySearch trim q sp) = params_get k sp).
Proof.
  unfold applySearch. cbv zeta.
  destruct (bool_decide (trim q = ""));
    rewrite !params_get_delete, ?params_get_set;
    rewrite (decide_False (P := "q" = "page")) by done;
    rewrite (decide_True (P := "q" = "q")) by done;
    rewrite (decide_True (P := "page" = "page")) by done;
    (split; [done|]); (split; [done|]); intros Hk Hpage;
    by rewrite ?params_get_delete, ?params_get_set, !decide_False by done.
Qed.

(** ** From a click on a mark to the issue *)

Lemma findById_elem (i : string) (l : list Annotation) (a : Annotation) :
  NoDup (id <$> l) → a ∈ l → id a = i → findById i l = Some a.
Proof.
  intros Hnd Ha Hid.
  destruct (findById i l) as [a'|] eqn:Hfind.
  - f_equal. symmetry. by eapply findById_unique.
  - unfold findById in Hfind. apply list_elem_of_In in Ha.
    pose proof (find_none _ _ Hfind a Ha) as Hno. cbv beta in Hno.
    by rewrite bool_decide_eq_true_2 in Hno.
Qed.

(** X28. Clicking a mark of a rendered paragraph selects the annotation it was
    drawn for. When the annotations of the current version carry distinct,
    non-empty ids, the id a mark hands to the click handler is the id of
    an annotation of the current version that is anchored in the section
    of the paragraph and has the status the mark is coloured for; after
    the click it is the selected annotation, shown on the Issues tab. *)
Theorem clicking_a_mark_selects_its_annotation {char : Type}
    (t : list char) (sectionId : string) (st : State)
    (value : list char) (key : PartKey) (i : string)
    (shown : AnnotationStatus) :
  NoDup (id <$> currentAnnotations st) →
  (∀ a, a ∈ currentAnnotations st → id a ≠ "") →
  PMark value key i shown
    ∈ render_parts t (paragraphHighlights sectionId st) →
  ∃ a b e,
    selectedAnnotation (handleClickHighlight i st) = Some a ∧
    a ∈ currentAnnotations st ∧ id a = i ∧ status a = shown ∧
    anchor a = TextRange sectionId b e ∧
    s_activeTab (handleClickHighlight i st) = Issues.
Proof.
  intros Hnd Hids Hmark.
  destruct (mark_has_highlight t _ _ i shown Hmark eq_refl)
    as (h & Hh & <- & <-).
  apply list_elem_of_omap in Hh as (a & Ha & Hhigh).
  unfold highlightOf in Hhigh.
  destruct (anchor a) as [s b e|r] eqn:Hanchor; [|done].
  case_bool_decide as Hs; [|done]. injection Hhigh as <-. subst s.
  cbn [h_id h_status]. exists a, b, e.
  split; [|by repeat split].
  unfold selectedAnnotation, handleClickHighlight.
  assert (∀ s0 : State,
            currentAnnotations
              (setActiveTab Issues (setSelectedAnnotationId (Some (id a)) s0))
            = currentAnnotations s0) as -> by done.
  read_cells. unfold truthy.
  rewrite bool_decide_eq_false_2 by (by apply Hids). cbn [negb mbind option_bind].
  by apply findById_elem.
Qed.

(** ** The statements at work on the samples *)


Lemma render_keys_are_distinct_witness :
  NoDup (h_id <$> [spanA; spanB]) ∧
  NoDup (part_key <$> render_parts ten_digits [spanA; spanB]).
Proof.
  assert (NoDup (h_id <$> [spanA; spanB])) as Hnd
    by (apply (bool_decide_unpack _); vm_compute; exact I).
  split; [exact Hnd|].
  exact (render_keys_are_distinct ten_digits [spanA; spanB] Hnd).
Defined.

Lemma annotations_are_never_deleted_witness :
  Demo.first_annotation ∈ bucket (s_annotationsByVersion Demo.v1_store) "v1" ∧
  ∃ a', a' ∈ bucket
               (s_annotationsByVersion
                  (run Demo.env Demo.doc Demo.trim
                     [ToggleResolved "uu"; SwitchVersion "v2";
                      CarryOverFromPrevious]
                     Demo.v1_store Demo.v1_world).1) "v1"
        ∧ same_identity Demo.first_annotation a'.
Proof.
  assert (Demo.first_annotation
            ∈ bucket (s_annotationsByVersion Demo.v1_store) "v1") as Hin
    by in_list.
  split; [exact Hin|].
  exact (annotations_are_never_deleted Demo.env Demo.doc Demo.trim _
           Demo.v1_store Demo.v1_world "v1" Demo.first_annotation Hin).
Defined.

Lemma stored_ranges_are_not_empty_witness :
  Forall (reads_selection Demo.trim) Sample.script ∧
  Demo.first_annotation
    ∈ bucket (s_annotationsByVersion
                (session Demo.env Demo.doc Demo.trim "v1" Sample.script
                   Demo.w0).1) "v1" ∧
  proper_anchor Demo.first_annotation.
Proof.
  assert (Forall (reads_selection Demo.trim) Sample.script) as Hreads.
  { unfold Sample.script. constructor.
    - by exists Sample.finiteNumber, Sample.dom, (Some Sample.selection), 0.
    - constructor; [exact I|]. constructor; [exact I|]. constructor. }
  assert (Demo.first_annotation
            ∈ bucket (s_annotationsByVersion
                        (session Demo.env Demo.doc Demo.trim "v1"
                           Sample.script Demo.w0).1) "v1") as Hin by in_list.
  split; [exact Hreads|]. split; [exact Hin|].
  exact (stored_ranges_are_not_empty Demo.env Demo.doc Demo.trim "v1"
           Sample.script Demo.w0 "v1" Demo.first_annotation Hreads Hin).
Defined.

Lemma viewer_mode_is_read_only_witness :
  isReadOnly Sample.viewer_store = true ∧
  s_annotationsByVersion
    (run Demo.env Demo.doc Demo.trim
       [MouseUp (Some Demo.draft); OpenCreateModal; CreateAnnotation;
        ToggleResolved "uu"; ChangeAssignee "uu" (Some "u3");
        StartRemap "uu"; RemapIssue; ClearSelection; SwitchVersion "v2";
        CarryOverFromPrevious; CloseOverlays]
       Sample.viewer_store Demo.v1_world).1
  = s_annotationsByVersion Sample.viewer_store.
Proof.
  assert (isReadOnly Sample.viewer_store = true) as Hro by reflexivity.
  split; [exact Hro|].
  refine (proj1 (viewer_mode_is_read_only Demo.env Demo.doc Demo.trim _
                   Sample.viewer_store Demo.v1_world Hro _)).
  repeat (constructor; [intros m; split; discriminate|]). constructor.
Defined.

Lemma toggling_twice_restores_the_status_witness :
  findById "uu" (currentAnnotations Demo.v1_store)
  = Some Demo.first_annotation ∧
  ∃ now,
    findById "uu"
      (currentAnnotations
         (run Demo.env Demo.doc Demo.trim
            [ToggleResolved "uu"; ToggleResolved "uu"]
            Demo.v1_store Demo.v1_world).1)
    = Some (withStatus Open now Demo.first_annotation).
Proof.
  assert (findById "uu" (currentAnnotations Demo.v1_store)
          = Some Demo.first_annotation) as Hfind by (vm_compute; reflexivity).
  split; [exact Hfind|].
  exact (toggling_twice_restores_the_status Demo.env Demo.doc Demo.trim "uu"
           Demo.v1_store Demo.v1_world Demo.first_annotation Hfind).
Defined.

Lemma created_annotation_is_selected_and_highlighted_witness :
  isReadOnly Demo.remap_store = false ∧
  s_selectionDraft Demo.remap_store = Some Demo.draft2 ∧
  genIdAt Demo.env "a" (draws Demo.carried_world) ≠ "" ∧
  ∃ a, selectedAnnotation
         (createAnnotation Demo.env Demo.doc Demo.trim Demo.remap_store
            Demo.carried_world).1 = Some a ∧
       mkHighlight (id a) 4 21 Open
         ∈ paragraphHighlights "s1"
             (createAnnotation Demo.env Demo.doc Demo.trim Demo.remap_store
                Demo.carried_world).1.
Proof.
  assert (isReadOnly Demo.remap_store = false) as Hro by reflexivity.
  assert (s_selectionDraft Demo.remap_store = Some Demo.draft2) as Hdraft
    by reflexivity.
  assert (genIdAt Demo.env "a" (draws Demo.carried_world) ≠ "") as Hid
    by (vm_compute; discriminate).
  split; [exact Hro|]. split; [exact Hdraft|]. split; [exact Hid|].
  destruct (created_annotation_is_selected_and_highlighted Demo.env Demo.doc
              Demo.trim Demo.remap_store Demo.carried_world Demo.draft2
              Hro Hdraft Hid) as (a & _ & Hsel & _ & _ & _ & _ & Hmark).
  exists a. split; [exact Hsel|exact Hmark].
Defined.

Lemma reachable_highlights_are_sound_witness :
  never_repeats Demo.env ∧
  NoDup (h_id <$> paragraphHighlights "s2"
                    (session Demo.env Demo.doc Demo.trim "v1" Demo.script_v1
                       Demo.w0).1).
Proof.
  split; [exact demo_never_repeats|].
  exact (proj1 (reachable_highlights_are_sound Demo.env Demo.doc Demo.trim
                  "v1" Demo.script_v1 Demo.w0 "s2" demo_never_repeats)).
Defined.


Lemma changeAssignee_contract_witness :
  isReadOnly Demo.v1_store = false ∧
  findById "uu" (currentAnnotations Demo.v1_store)
  = Some Demo.first_annotation ∧
  (∃ k a', findById "uu"
             (currentAnnotations
                (changeAssignee Demo.env "uu" (Some "u3") Demo.v1_store
                   Demo.v1_world).1)
           = Some a' ∧
           assigneeId a' = Some "u3" ∧ updatedAt a' = nowAt Demo.env k ∧
           status a' = Open ∧ quote a' = "services.") ∧
  ∃ item,
    s_activity
      (changeAssignee Demo.env "uu" (Some "u3") Demo.v1_store Demo.v1_world).1
    = item :: s_activity Demo.v1_store ∧
    ev item = ASSIGNEE_CHANGED "uu" "services." (Some "u3").
Proof.
  assert (isReadOnly Demo.v1_store = false) as Hro by reflexivity.
  assert (findById "uu" (currentAnnotations Demo.v1_store)
          = Some Demo.first_annotation) as Hfind by (vm_compute; reflexivity).
  split; [exact Hro|]. split; [exact Hfind|].
  destruct (changeAssignee_contract Demo.env "uu" (Some "u3") Demo.v1_store
              Demo.v1_world) as [_ Hchange].
  destruct (Hchange Demo.first_annotation Hro Hfind)
    as ((k & _ & Hk) & _ & _ & Hlog).
  split; [|exact Hlog].
  exists k. eexists. split; [exact Hk|]. repeat split.
Defined.

Lemma url_effects_round_trip_witness :
  s_selectedAnnotationId Demo.v1_store = Some "uuuuuu" ∧
  "uuuuuu" ≠ "" ∧
  s_selectedAnnotationId
    (readUrl (syncUrl Demo.v1_store Sample.location) Demo.v2_store)
  = Some "uuuuuu".
Proof.
  assert (s_selectedAnnotationId Demo.v1_store = Some "uuuuuu") as Hsel
    by reflexivity.
  assert ("uuuuuu" ≠ "") as Hne by discriminate.
  split; [exact Hsel|]. split; [exact Hne|].
  destruct (url_effects_round_trip Demo.v1_store Demo.v2_store Sample.location)
    as (_ & _ & Hissue).
  rewrite Hsel in Hissue. exact (Hissue Hne).
Defined.

Lemma updateUrl_keeps_other_parameters_witness :
  "q" ≠ "issue" ∧ "q" ≠ "tab" ∧ "q" ≠ "mode" ∧
  params_get "q" (search (updateUrl (Str "uu") Null Omitted Sample.location))
  = Some "x".
Proof.
  assert ("q" ≠ "issue") as Hi by discriminate.
  assert ("q" ≠ "tab") as Ht by discriminate.
  assert ("q" ≠ "mode") as Hm by discriminate.
  split; [exact Hi|]. split; [exact Ht|]. split; [exact Hm|].
  rewrite (proj2 (updateUrl_keeps_other_parameters (Str "uu") Null Omitted
                    Sample.location "q" Hi Ht Hm)).
  reflexivity.
Defined.

Lemma previous_version_is_the_next_older_witness :
  previousVersionId Demo.doc Demo.v2_store = Some "v1" ∧
  ∃ cur prev,
    cur ∈ versions Demo.doc ∧ prev ∈ versions Demo.doc ∧
    v_id cur = s_versionId Demo.v2_store ∧ v_id prev = "v1" ∧
    (versionNumber prev ≤ versionNumber cur)%Z.
Proof.
  assert (previousVersionId Demo.doc Demo.v2_store = Some "v1") as Hprev
    by (vm_compute; reflexivity).
  split; [exact Hprev|].
  destruct (previous_version_is_the_next_older Demo.doc Demo.v2_store "v1"
              Hprev) as (cur & prev & Hcur & Hp & Hc & Hpid & Hle & _).
  exists cur, prev. repeat split; assumption.
Defined.

Lemma review_page_opens_the_latest_version_witness :
  ReviewPage Sample.documents Sample.store "d1"
  = Review Demo.doc "v2" Sample.content_v2 Sample.contents ∧
  getDocContent Sample.store "d1" "v2" = Some Sample.content_v2 ∧
  ∃ latest, latest ∈ versions Demo.doc ∧ v_id latest = "v2" ∧
            ∀ x, x ∈ versions Demo.doc →
                 (versionNumber x ≤ versionNumber latest)%Z.
Proof.
  assert (ReviewPage Sample.documents Sample.store "d1"
          = Review Demo.doc "v2" Sample.content_v2 Sample.contents) as Hpage
    by (vm_compute; reflexivity).
  split; [exact Hpage|].
  destruct (review_page_opens_the_latest_version Sample.documents Sample.store
              "d1" Demo.doc "v2" Sample.content_v2 Sample.contents Hpage)
    as (_ & _ & _ & Hlatest & Hcontent & _).
  split; [exact Hcontent|exact Hlatest].
Defined.

Lemma selection_draft_is_well_formed_witness :
  getSelectionDraft Demo.trim Sample.finiteNumber Sample.dom
    (Some Sample.selection) 0 = Some Demo.draft ∧
  (startLocal Demo.draft < endLocal Demo.draft)%Z ∧
  dr_quote Demo.draft ≠ "".
Proof.
  assert (getSelectionDraft Demo.trim Sample.finiteNumber Sample.dom
            (Some Sample.selection) 0 = Some Demo.draft) as Hdraft
    by (vm_compute; reflexivity).
  split; [exact Hdraft|].
  destruct (selection_draft_is_well_formed Demo.trim Sample.finiteNumber
              Sample.dom (Some Sample.selection) 0 Demo.draft Hdraft)
    as (sel & para & _ & _ & _ & _ & _ & _ & _ & _ & Hquote & _ & _ & Hlt & _).
  split; [exact Hlt|exact Hquote].
Defined.

Lemma moveIssueSelection_stays_in_the_list_witness :
  s_activeTab Demo.v1_store = Issues ∧
  filteredAnnotations Demo.trim Demo.trim (mkFilters None None None "")
    Demo.v1_store ≠ [] ∧
  moveIssueSelection Demo.trim Demo.trim (mkFilters None None None "") 1
    Demo.v1_store
  = Some (setSelectedAnnotationId (Some "uuuu") Demo.v1_store).
Proof.
  assert (s_activeTab Demo.v1_store = Issues) as Htab by reflexivity.
  assert (filteredAnnotations Demo.trim Demo.trim
            (mkFilters None None None "") Demo.v1_store ≠ []) as Hshown
    by (vm_compute; discriminate).
  split; [exact Htab|]. split; [exact Hshown|].
  destruct (moveIssueSelection_stays_in_the_list Demo.trim Demo.trim
              (mkFilters None None None "") 1 Demo.v1_store) as [_ Hmove].
  destruct (Hmove Htab Hshown) as (k & a & _ & Hk & Ha & ->).
  subst k. vm_compute in Ha. injection Ha as <-. reflexivity.
Defined.

Lemma getDocuments_orders_the_list_witness :
  q_sort Sample.byIssues = Some "issues_desc" ∧
  nondecreasing_by (λ d, - l_issueCount d)%Z
    (getDocuments Demo.trim Demo.trim Sample.localeCompare Sample.getTime
       Sample.listed Sample.byIssues) ∧
  (∀ d, d ∈ Sample.listed →
        Sample.getTime (l_updatedAt d)
        = Some (Z.of_nat (String.length (l_updatedAt d)))) ∧
  nondecreasing_by (λ d, - Z.of_nat (String.length (l_updatedAt d)))%Z
    (getDocuments Demo.trim Demo.trim Sample.localeCompare Sample.getTime
       Sample.listed (mkQuery None None None None)).
Proof.
  assert (q_sort Sample.byIssues = Some "issues_desc") as Hsort by reflexivity.
  assert (∀ d, d ∈ Sample.listed →
               Sample.getTime (l_updatedAt d)
               = Some (Z.of_nat (String.length (l_updatedAt d)))) as Htime
    by (intros d _; reflexivity).
  split; [exact Hsort|]. split.
  - exact (proj1 (getDocuments_orders_the_list Demo.trim Demo.trim
                    Sample.localeCompare Sample.getTime Sample.listed
                    Sample.byIssues (λ _, 0%Z)) Hsort).
  - split; [exact Htime|].
    refine (proj2 (getDocuments_orders_the_list Demo.trim Demo.trim
                     Sample.localeCompare Sample.getTime Sample.listed
                     (mkQuery None None None None)
                     (λ d, Z.of_nat (String.length (l_updatedAt d))))
              _ _ Htime); discriminate.
Defined.

Lemma docs_page_without_parameters_lists_everything_witness :
  (∀ k : string, (λ _, None) k = (None : option (string + list string))) ∧
  docsQuery Demo.trim (λ _, None)
  = mkQuery None (Some "All") (Some "All") (Some "updated_desc") ∧
  DocsPage Demo.trim Demo.trim Sample.localeCompare Sample.getTime
    Sample.listed (λ _, None) ≡ₚ Sample.listed.
Proof.
  assert (∀ k : string,
            (λ _, None) k = (None : option (string + list string))) as Hsp
    by (intros k; reflexivity).
  split; [exact Hsp|].
  destruct (docs_page_without_parameters_lists_everything Demo.trim Demo.trim
              Sample.localeCompare Sample.getTime Sample.listed (λ _, None)
              Hsp) as (Hquery & _ & Hlist).
  split; [exact Hquery | exact Hlist].
Defined.

Lemma toolbar_setParam_contract_witness :
  "tag" ≠ "page" ∧
  params_get "tag" (setParam "tag" "Legal" Sample.params) = Some "Legal" ∧
  params_get "page" (setParam "tag" "Legal" Sample.params) = None.
Proof.
  assert ("tag" ≠ "page") as Hkey by discriminate.
  split; [exact Hkey|].
  destruct (toolbar_setParam_contract "tag" "Legal" Sample.params "q" Hkey)
    as (Htag & Hpage & _).
  split; [exact Htag|exact Hpage].
Defined.

Lemma toolbar_applySearch_contract_witness :
  "tag" ≠ "q" ∧ "tag" ≠ "page" ∧
  params_get "tag" (applySearch Demo.trim "msa" Sample.params) = Some "HR".
Proof.
  assert ("tag" ≠ "q") as Hq by discriminate.
  assert ("tag" ≠ "page") as Hpage by discriminate.
  split; [exact Hq|]. split; [exact Hpage|].
  rewrite (proj2 (proj2 (toolbar_applySearch_contract Demo.trim "msa"
                           Sample.params "tag")) Hq Hpage).
  reflexivity.
Defined.

Lemma clicking_a_mark_selects_its_annotation_witness :
  NoDup (id <$> currentAnnotations Demo.v1_store) ∧
  (∀ a, a ∈ currentAnnotations Demo.v1_store → id a ≠ "") ∧
  PMark (list_ascii_of_string "ctor prov") (KeyMark 10 19 "uu") "uu" Open
    ∈ render_parts (list_ascii_of_string "The Contractor provides services.")
        (paragraphHighlights "s2" Demo.v1_store) ∧
  ∃ a, selectedAnnotation (handleClickHighlight "uu" Demo.v1_store) = Some a ∧
       id a = "uu" ∧ status a = Open.
Proof.
  assert (NoDup (id <$> currentAnnotations Demo.v1_store)) as Hnd
    by (apply (bool_decide_unpack _); vm_compute; exact I).
  assert (∀ a, a ∈ currentAnnotations Demo.v1_store → id a ≠ "") as Hids.
  { intros a Ha. vm_compute in Ha.
    repeat (apply elem_of_cons in Ha as [->|Ha]; [discriminate|]).
    by apply elem_of_nil in Ha. }
  assert (PMark (list_ascii_of_string "ctor prov") (KeyMark 10 19 "uu") "uu"
            Open
            ∈ render_parts
                (list_ascii_of_string "The Contractor provides services.")
                (paragraphHighlights "s2" Demo.v1_store)) as Hmark
    by in_list.
  split; [exact Hnd|]. split; [exact Hids|]. split; [exact Hmark|].
  destruct (clicking_a_mark_selects_its_annotation _ "s2" Demo.v1_store _ _
              "uu" Open Hnd Hids Hmark)
    as (a & b & e & Hsel & _ & Hid & Hst & _).
  exists a. repeat split; assumption.
Defined.
